(** * FishGame: a shallow embedding of the simulation core

    The development follows the JavaScript sources of the game:
    [MathUtils] (vector, angle and collision helpers), [Fish], [Player]
    (hook, line and reeling state machine), [Game] (pools, spawning,
    collision pass) and [TouchController] (gesture recognition).

    Numbers.  A JavaScript number is an IEEE-754 binary64 value.  The helpers
    of [MathUtils] that only use [+ - * sqrt < <=] are written once, over the
    interface [Arith], and are read at two instances:
    - [R]: exact real arithmetic, the idealisation used for the general
      statements (no rounding, no NaN, no infinities);
    - [float]: the primitive binary64 floats, which compute exactly what a
      JavaScript engine computes for these operators and are used to evaluate
      the code at concrete inputs.
    The entity classes are read over [R].

    Objects.  An argument that may be [null] or [undefined] is an [option];
    a call that can raise is a [Completion].  [Math.random()] and [Date.now()]
    are inputs of the operations that use them. *)

From Stdlib Require Import PrimFloat.
From Stdlib Require Import Reals Lra Lia ZArith List Bool String.
Import ListNotations.

Set Implicit Arguments.

(** ** Numbers *)

Class Arith (N : Type) : Type := {
  zero : N;
  two : N;
  Math_PI : N;
  add : N -> N -> N;
  sub : N -> N -> N;
  mul : N -> N -> N;
  Math_sqrt : N -> N;
  ltb : N -> N -> bool;   (* a < b  *)
  leb : N -> N -> bool    (* a <= b *)
}.

Definition Rltb (a b : R) : bool := if Rlt_dec a b then true else false.
Definition Rleb (a b : R) : bool := if Rle_dec a b then true else false.
Definition Reqb (a b : R) : bool := if Req_dec_T a b then true else false.

#[export] Instance R_arith : Arith R := {|
  zero := 0%R;
  two := 2%R;
  Math_PI := PI;
  add := Rplus;
  sub := Rminus;
  mul := Rmult;
  Math_sqrt := sqrt;
  ltb := Rltb;
  leb := Rleb
|}.

(** [Math.PI] is the double nearest to pi, [0x1.921fb54442d18p+1]. *)
#[export] Instance float_arith : Arith float := {|
  zero := 0%float;
  two := 2%float;
  Math_PI := 0x1.921fb54442d18p+1%float;
  add := PrimFloat.add;
  sub := PrimFloat.sub;
  mul := PrimFloat.mul;
  Math_sqrt := PrimFloat.sqrt;
  ltb := PrimFloat.ltb;
  leb := PrimFloat.leb
|}.

(** ** Completions: a call returns normally or throws *)

Inductive JsError : Type :=
| TypeError                    (* property read on null or undefined *)
| Error (message : string).    (* [throw new Error(message)] *)

Inductive Completion (A : Type) : Type :=
| Return (a : A)
| Throw (e : JsError).

Arguments Return {A} a.
Arguments Throw {A} e.

(** ** Records: assignment to a property

    [r <| p := v |>] is the record [r] after [r.p = v]; [r <| p ::= f |>] is
    [r] after [r.p = f(r.p)].  A setter is built from the eta-expansion of
    the record. *)

Class Setter {Rec T : Type} (proj : Rec -> T) : Type :=
  set_field : (T -> T) -> Rec -> Rec.

Arguments set_field {Rec T} proj {Setter} _ _ /.

Ltac build_setter eta proj :=
  let f := fresh "f" in
  let r := fresh "r" in
  intros f r;
  let body := eval cbv beta delta [eta] in (eta r) in
  match eval pattern (proj r) in body with
  | ?ctx _ => let t := eval cbv beta in (ctx (f (proj r))) in exact t
  end.

Notation "r <| p := v |>" := (set_field p (fun _ => v) r)
  (at level 1, left associativity, p at level 0, format "r  <| p  :=  v |>").
Notation "r <| p ::= f |>" := (set_field p f r)
  (at level 1, left associativity, p at level 0, format "r  <| p  ::=  f |>").

(** [v || d] on an optional number and on an optional string: [undefined],
    [0] and the empty string are falsy. *)
Definition or_number (v : option R) (d : R) : R :=
  match v with
  | Some a => if Reqb a 0 then d else a
  | None => d
  end.

Definition or_string (v : option string) (d : string) : string :=
  match v with
  | Some a => if String.eqb a EmptyString then d else a
  | None => d
  end.

(** ** MathUtils *)

Module MathUtils.

Section Generic.

Context {N : Type} `{Arith N}.

(** Objects read through their [x], [y] (and [radius], or [width] and
    [height]) properties. *)
Record Point : Type := mkPoint { x : N; y : N }.
Record Circle : Type := mkCircle { cx : N; cy : N; radius : N }.
Record Rect : Type := mkRect { rx : N; ry : N; width : N; height : N }.

Definition centre (c : Circle) : Point := mkPoint (cx c) (cy c).

Definition distance (point1 point2 : option Point) : N :=
  match point1, point2 with
  | Some p1, Some p2 =>
      let dx := sub (x p2) (x p1) in
      let dy := sub (y p2) (y p1) in
      Math_sqrt (add (mul dx dx) (mul dy dy))
  | _, _ => zero
  end.

Definition distanceSquared (point1 point2 : option Point) : N :=
  match point1, point2 with
  | Some p1, Some p2 =>
      let dx := sub (x p2) (x p1) in
      let dy := sub (y p2) (y p1) in
      add (mul dx dx) (mul dy dy)
  | _, _ => zero
  end.

Definition circleCollision (circle1 circle2 : option Circle) : bool :=
  match circle1, circle2 with
  | Some c1, Some c2 =>
      let distance := distance (Some (centre c1)) (Some (centre c2)) in
      leb distance (add (radius c1) (radius c2))
  | _, _ => false
  end.

Definition fastCircleCollision (circle1 circle2 : option Circle) : bool :=
  match circle1, circle2 with
  | Some c1, Some c2 =>
      let distanceSquared :=
        distanceSquared (Some (centre c1)) (Some (centre c2)) in
      let radiusSum := add (radius c1) (radius c2) in
      leb distanceSquared (mul radiusSum radiusSum)
  | _, _ => false
  end.

(** [normalizeAngle]: two [while] loops.  A loop is unfolded at most [fuel]
    times; [None] means that the loop is still running after [fuel]
    iterations. *)
Fixpoint while_negative (fuel : nat) (angle : N) : option N :=
  if ltb angle zero then
    match fuel with
    | O => None
    | S fuel' => while_negative fuel' (add angle (mul two Math_PI))
    end
  else Some angle.

Fixpoint while_too_large (fuel : nat) (angle : N) : option N :=
  if leb (mul two Math_PI) angle then
    match fuel with
    | O => None
    | S fuel' => while_too_large fuel' (sub angle (mul two Math_PI))
    end
  else Some angle.

Definition normalizeAngle (fuel : nat) (angle : N) : option N :=
  match while_negative fuel angle with
  | Some angle' => while_too_large fuel angle'
  | None => None
  end.

End Generic.

Arguments Point N : clear implicits.
Arguments Circle N : clear implicits.
Arguments Rect N : clear implicits.

(** The remaining helpers use division and the trigonometric functions and
    are read over [R]. *)

Local Open Scope R_scope.

(** [Math.atan2(y, x)] *)
Definition Math_atan2 (y x : R) : R :=
  if Rltb 0 x then atan (y / x)
  else if Rltb x 0 then
    (if Rleb 0 y then atan (y / x) + PI else atan (y / x) - PI)
  else if Rltb 0 y then PI / 2
  else if Rltb y 0 then - (PI / 2)
  else 0.

(** [Math.floor] and [Math.round] (halves round up) *)
Definition Math_floor (v : R) : R := IZR (Zfloor v).
Definition Math_round (v : R) : R := IZR (Zfloor (v + / 2)).

(** [a % b] on numbers: the remainder has the sign of [a]. *)
Definition Math_trunc (v : R) : R :=
  if Rleb 0 v then IZR (Zfloor v) else IZR (Zceil v).
Definition remainder (a b : R) : R := a - b * Math_trunc (a / b).

Definition origin : Point R := mkPoint 0 0.

Definition magnitude (vector : option (Point R)) : R :=
  match vector with
  | Some v => sqrt (x v * x v + y v * y v)
  | None => 0
  end.

Definition normalize (vector : option (Point R)) : Point R :=
  match vector with
  | Some v =>
      let mag := magnitude (Some v) in
      if Reqb mag 0 then origin
      else mkPoint (x v / mag) (y v / mag)
  | None => origin
  end.

Definition addVectors (vector1 vector2 : option (Point R)) : Point R :=
  match vector1, vector2 with
  | Some v1, Some v2 => mkPoint (x v1 + x v2) (y v1 + y v2)
  | _, _ => origin
  end.

Definition subtractVectors (vector1 vector2 : option (Point R)) : Point R :=
  match vector1, vector2 with
  | Some v1, Some v2 => mkPoint (x v1 - x v2) (y v1 - y v2)
  | _, _ => origin
  end.

Definition multiplyVector (vector : option (Point R)) (scalar : R) : Point R :=
  match vector with
  | Some v => mkPoint (x v * scalar) (y v * scalar)
  | None => origin
  end.

Definition degreesToRadians (degrees : R) : R := degrees * (PI / 180).
Definition radiansToDegrees (radians : R) : R := radians * (180 / PI).

Definition angleBetween (point1 point2 : option (Point R)) : R :=
  match point1, point2 with
  | Some p1, Some p2 =>
      let dx := x p2 - x p1 in
      let dy := y p2 - y p1 in
      Math_atan2 dy dx
  | _, _ => 0
  end.

Definition rectangleCollision (rect1 rect2 : option (Rect R)) : bool :=
  match rect1, rect2 with
  | Some r1, Some r2 =>
      Rltb (rx r1) (rx r2 + width r2) &&
      Rltb (rx r2) (rx r1 + width r1) &&
      Rltb (ry r1) (ry r2 + height r2) &&
      Rltb (ry r2) (ry r1 + height r1)
  | _, _ => false
  end.

Definition pointInCircle (point : option (Point R))
    (circle : option (Circle R)) : bool :=
  match point, circle with
  | Some p, Some c =>
      let distance := distance (Some p) (Some (centre c)) in
      Rleb distance (radius c)
  | _, _ => false
  end.

Definition pointInRectangle (point : option (Point R))
    (rect : option (Rect R)) : bool :=
  match point, rect with
  | Some p, Some r =>
      Rleb (rx r) (x p) &&
      Rleb (x p) (rx r + width r) &&
      Rleb (ry r) (y p) &&
      Rleb (y p) (ry r + height r)
  | _, _ => false
  end.

Definition lerp (start finish t : R) : R := start + t * (finish - start).

Definition clamp (value min max : R) : R := Rmin (Rmax value min) max.

Definition map (value fromMin fromMax toMin toMax : R) : R :=
  let fromRange := fromMax - fromMin in
  let toRange := toMax - toMin in
  let scaledValue := (value - fromMin) / fromRange in
  toMin + scaledValue * toRange.

(** [random] is the value returned by the call of [Math.random()]. *)
Definition randomRange (random min max : R) : R := random * (max - min) + min.

Definition randomInt (random min max : R) : R :=
  Math_floor (random * (max - min + 1)) + min.

(** No guard: [center.x] is read whatever [center] is. *)
Definition randomPointInCircle (random1 random2 : R)
    (center : option (Point R)) (radius : R) : Completion (Point R) :=
  let angle := random1 * 2 * PI in
  let distance := sqrt random2 * radius in
  match center with
  | Some c => Return (mkPoint (x c + cos angle * distance)
                              (y c + sin angle * distance))
  | None => Throw TypeError
  end.

Definition velocityFromAngle (angle speed : R) : Point R :=
  mkPoint (cos angle * speed) (sin angle * speed).

(** No guard: [velocity.x] is read whatever [velocity] is. *)
Definition applyGravity (velocity : option (Point R))
    (gravity deltaTime : R) : Completion (Point R) :=
  match velocity with
  | Some v => Return (mkPoint (x v) (y v + gravity * deltaTime))
  | None => Throw TypeError
  end.

Definition applyFriction (velocity : option (Point R))
    (friction : R) : Completion (Point R) :=
  match velocity with
  | Some v => Return (mkPoint (x v * friction) (y v * friction))
  | None => Throw TypeError
  end.

Definition isInBounds (point : option (Point R))
    (bounds : option (Rect R)) : bool :=
  pointInRectangle point bounds.

End MathUtils.

(** ** Fish *)

Module Fish.

Local Open Scope R_scope.
Local Open Scope string_scope.

(** A fish object is known by its reference.  The objects live in a store;
    the pool, the list of active fish, the caught list of the player and the
    school lists hold references. *)
Definition FishId : Type := nat.

Record Bounds : Type := mkBounds {
  bounds_left : R; bounds_right : R; bounds_top : R; bounds_bottom : R
}.

(** The constructor options that reach the simulation state.  The sprite
    sheet, the frame geometry and the sprite loader only serve drawing. *)
Record Options : Type := mkOptions {
  opt_x : option R;
  opt_y : option R;
  opt_width : option R;
  opt_height : option R;
  opt_scale : option R;
  opt_rotation : option R;
  opt_opacity : option R;
  opt_frameCount : option R;
  opt_animationSpeed : option R;
  opt_speed : option R;
  opt_bounds : option Bounds;
  opt_fishType : option string;
  opt_behavior : option string
}.

Definition no_options : Options :=
  mkOptions None None None None None None None None None None None None None.

Record t : Type := mk {
  x : R;
  y : R;
  width : R;
  height : R;
  scale : R;
  rotation : R;
  opacity : R;
  spriteLoaded : bool;
  frameCount : R;
  currentFrame : R;
  animationSpeed : R;
  lastFrameTime : R;
  animationPaused : bool;
  speed : R;
  velocity : MathUtils.Point R;
  direction : R;
  bounds : Bounds;
  isActive : bool;
  isCaught : bool;
  fishType : string;
  behavior : string;
  rarity : R;
  scoreValue : R;
  lodLevel : R;
  destroyed : bool;
  mobileMode : bool;
  touchRadius : R;
  schoolmates : list FishId;
  threats : list (MathUtils.Circle R);
  lastBehaviorUpdate : R;
  behaviorUpdateInterval : R;
  eventListeners : list (string * nat)   (* event name, registered callback *)
}.

Definition eta (f : t) : t :=
  mk (x f) (y f) (width f) (height f) (scale f) (rotation f) (opacity f)
     (spriteLoaded f) (frameCount f) (currentFrame f) (animationSpeed f)
     (lastFrameTime f) (animationPaused f) (speed f) (velocity f)
     (direction f) (bounds f) (isActive f) (isCaught f) (fishType f)
     (behavior f) (rarity f) (scoreValue f) (lodLevel f) (destroyed f)
     (mobileMode f) (touchRadius f) (schoolmates f) (threats f)
     (lastBehaviorUpdate f) (behaviorUpdateInterval f) (eventListeners f).

#[global] Instance set_x : Setter x := ltac:(build_setter eta x).
Arguments set_x _ _ /.
#[global] Instance set_y : Setter y := ltac:(build_setter eta y).
Arguments set_y _ _ /.
#[global] Instance set_scale : Setter scale := ltac:(build_setter eta scale).
Arguments set_scale _ _ /.
#[global] Instance set_rotation : Setter rotation := ltac:(build_setter eta rotation).
Arguments set_rotation _ _ /.
#[global] Instance set_spriteLoaded : Setter spriteLoaded := ltac:(build_setter eta spriteLoaded).
Arguments set_spriteLoaded _ _ /.
#[global] Instance set_currentFrame : Setter currentFrame := ltac:(build_setter eta currentFrame).
Arguments set_currentFrame _ _ /.
#[global] Instance set_animationSpeed : Setter animationSpeed := ltac:(build_setter eta animationSpeed).
Arguments set_animationSpeed _ _ /.
#[global] Instance set_lastFrameTime : Setter lastFrameTime := ltac:(build_setter eta lastFrameTime).
Arguments set_lastFrameTime _ _ /.
#[global] Instance set_animationPaused : Setter animationPaused := ltac:(build_setter eta animationPaused).
Arguments set_animationPaused _ _ /.
#[global] Instance set_speed : Setter speed := ltac:(build_setter eta speed).
Arguments set_speed _ _ /.
#[global] Instance set_velocity : Setter velocity := ltac:(build_setter eta velocity).
Arguments set_velocity _ _ /.
#[global] Instance set_direction : Setter direction := ltac:(build_setter eta direction).
Arguments set_direction _ _ /.
#[global] Instance set_isActive : Setter isActive := ltac:(build_setter eta isActive).
Arguments set_isActive _ _ /.
#[global] Instance set_isCaught : Setter isCaught := ltac:(build_setter eta isCaught).
Arguments set_isCaught _ _ /.
#[global] Instance set_behavior : Setter behavior := ltac:(build_setter eta behavior).
Arguments set_behavior _ _ /.
#[global] Instance set_lodLevel : Setter lodLevel := ltac:(build_setter eta lodLevel).
Arguments set_lodLevel _ _ /.
#[global] Instance set_destroyed : Setter destroyed := ltac:(build_setter eta destroyed).
Arguments set_destroyed _ _ /.
#[global] Instance set_mobileMode : Setter mobileMode := ltac:(build_setter eta mobileMode).
Arguments set_mobileMode _ _ /.
#[global] Instance set_schoolmates : Setter schoolmates := ltac:(build_setter eta schoolmates).
Arguments set_schoolmates _ _ /.
#[global] Instance set_threats : Setter threats := ltac:(build_setter eta threats).
Arguments set_threats _ _ /.
#[global] Instance set_lastBehaviorUpdate : Setter lastBehaviorUpdate := ltac:(build_setter eta lastBehaviorUpdate).
Arguments set_lastBehaviorUpdate _ _ /.
#[global] Instance set_behaviorUpdateInterval : Setter behaviorUpdateInterval := ltac:(build_setter eta behaviorUpdateInterval).
Arguments set_behaviorUpdateInterval _ _ /.
#[global] Instance set_eventListeners : Setter eventListeners := ltac:(build_setter eta eventListeners).
Arguments set_eventListeners _ _ /.

(** The store of fish objects. *)
Definition Store : Type := FishId -> t.

Definition upd (st : Store) (id : FishId) (f : t) : Store :=
  fun id' => if Nat.eqb id' id then f else st id'.

(** *** Initialisation *)

Definition _applyBehaviorModifications (f : t) : t :=
  if String.eqb (behavior f) "aggressive" then
    f <| speed ::= fun v => v * 1.5 |> <| animationSpeed ::= fun v => v * 0.8 |>
  else if String.eqb (behavior f) "lazy" then
    f <| speed ::= fun v => v * 0.6 |> <| animationSpeed ::= fun v => v * 1.3 |>
  else if String.eqb (behavior f) "erratic" then
    f <| behaviorUpdateInterval := 50 |>
  else f.

Definition _initializeMovement (random : R) (f : t) : t :=
  let direction' := MathUtils.randomRange random 0 (2 * PI) in
  let f := f <| direction := direction' |> in
  let f := f <| velocity := MathUtils.velocityFromAngle (direction f) (speed f) |> in
  _applyBehaviorModifications f.

Definition _getRarityValue (fishType : string) : R :=
  if String.eqb fishType "common" then 1
  else if String.eqb fishType "uncommon" then 2
  else if String.eqb fishType "rare" then 5
  else if String.eqb fishType "epic" then 10
  else if String.eqb fishType "legendary" then 25
  else 1.

(** [_calculateBaseScore], from the [width], [height] and [rarity] of the
    object. *)
Definition _calculateBaseScore (width height rarity : R) : R :=
  let sizeMultiplier := (width + height) / 64 in
  MathUtils.Math_round (10 * rarity * sizeMultiplier).

Definition default_bounds : Bounds := mkBounds 0 800 0 600.

(** [new Fish(options)].  [random k] is the value of the [k]-th call of
    [Math.random()] made by the constructor. *)
Definition new (random : nat -> R) (options : Options) : t :=
  let width := or_number (opt_width options) 32 in
  let height := or_number (opt_height options) 32 in
  let speed := or_number (opt_speed options) 2 in
  let velocity :=
    MathUtils.mkPoint (MathUtils.randomRange (random 0%nat) (- speed) speed)
                      (MathUtils.randomRange (random 1%nat) (- speed) speed) in
  let fishType := or_string (opt_fishType options) "common" in
  let rarity := _getRarityValue fishType in
  _initializeMovement (random 2%nat)
    {| x := or_number (opt_x options) 0;
       y := or_number (opt_y options) 0;
       width := width;
       height := height;
       scale := or_number (opt_scale options) 1;
       rotation := or_number (opt_rotation options) 0;
       opacity := or_number (opt_opacity options) 1;
       spriteLoaded := false;
       frameCount := or_number (opt_frameCount options) 8;
       currentFrame := 0;
       animationSpeed := or_number (opt_animationSpeed options) 150;
       lastFrameTime := 0;
       animationPaused := false;
       speed := speed;
       velocity := velocity;
       direction := MathUtils.Math_atan2 (MathUtils.y velocity) (MathUtils.x velocity);
       bounds := match opt_bounds options with
                 | Some b => b
                 | None => default_bounds
                 end;
       isActive := true;
       isCaught := false;
       fishType := fishType;
       behavior := or_string (opt_behavior options) "normal";
       rarity := rarity;
       scoreValue := _calculateBaseScore width height rarity;
       lodLevel := 0;
       destroyed := false;
       mobileMode := false;
       touchRadius := width;
       schoolmates := [];
       threats := [];
       lastBehaviorUpdate := 0;
       behaviorUpdateInterval := 100;
       eventListeners := [] |}.

(** *** Animation *)

Definition _updateAnimation (deltaTime : R) (f : t) : t :=
  if animationPaused f || Rltb 2 (lodLevel f) then f
  else
    let f := f <| lastFrameTime ::= fun v => v + deltaTime |> in
    if Rleb (animationSpeed f) (lastFrameTime f) then
      f <| currentFrame := MathUtils.remainder (currentFrame f + 1) (frameCount f) |>
        <| lastFrameTime := 0 |>
    else f.

Definition setAnimationSpeed (speed : R) (f : t) : t :=
  f <| animationSpeed := Rmax 50 speed |>.

Definition pauseAnimation (f : t) : t := f <| animationPaused := true |>.
Definition resumeAnimation (f : t) : t := f <| animationPaused := false |>.

(** *** Movement *)

Definition set_vx (v : R) (p : MathUtils.Point R) : MathUtils.Point R :=
  MathUtils.mkPoint v (MathUtils.y p).
Definition set_vy (v : R) (p : MathUtils.Point R) : MathUtils.Point R :=
  MathUtils.mkPoint (MathUtils.x p) v.

Definition _handleBoundsCollision (f : t) : t :=
  let halfWidth := (width f * scale f) / 2 in
  let halfHeight := (height f * scale f) / 2 in
  let f :=
    if Rltb (x f - halfWidth) (bounds_left (bounds f)) then
      f <| x := bounds_left (bounds f) + halfWidth |>
        <| velocity ::= fun v => set_vx (Rabs (MathUtils.x v)) v |>
    else if Rltb (bounds_right (bounds f)) (x f + halfWidth) then
      f <| x := bounds_right (bounds f) - halfWidth |>
        <| velocity ::= fun v => set_vx (- Rabs (MathUtils.x v)) v |>
    else f in
  if Rltb (y f - halfHeight) (bounds_top (bounds f)) then
    f <| y := bounds_top (bounds f) + halfHeight |>
      <| velocity ::= fun v => set_vy (Rabs (MathUtils.y v)) v |>
  else if Rltb (bounds_bottom (bounds f)) (y f + halfHeight) then
    f <| y := bounds_bottom (bounds f) - halfHeight |>
      <| velocity ::= fun v => set_vy (- Rabs (MathUtils.y v)) v |>
  else f.

Definition position (f : t) : MathUtils.Point R := MathUtils.mkPoint (x f) (y f).

(** [random1] decides the change of direction, [random2] is its amount. *)
Definition _applyErraticBehavior (random1 random2 : R) (f : t) : t :=
  if Rltb random1 0.3 then
    let newDirection :=
      direction f + MathUtils.randomRange random2 (- (PI / 4)) (PI / 4) in
    f <| velocity := MathUtils.velocityFromAngle newDirection (speed f) |>
      <| direction := newDirection |>
  else f.

(** The sums accumulated by the [forEach] over the schoolmates. *)
Record SchoolSums : Type := mkSums {
  avgX : R; avgY : R; avgVelX : R; avgVelY : R; count : R
}.

Definition _applySchoolingBehavior (st : Store) (self : FishId) (f : t) : t :=
  match schoolmates f with
  | [] => f
  | _ =>
    let sums :=
      fold_left
        (fun acc id =>
           let mate := if Nat.eqb id self then f else st id in
           if isActive mate && negb (isCaught mate) then
             let distance :=
               MathUtils.distance (Some (position f)) (Some (position mate)) in
             if Rltb distance 100 then
               mkSums (avgX acc + x mate) (avgY acc + y mate)
                      (avgVelX acc + MathUtils.x (velocity mate))
                      (avgVelY acc + MathUtils.y (velocity mate))
                      (count acc + 1)
             else acc
           else acc)
        (schoolmates f) (mkSums 0 0 0 0 0) in
    if Rltb 0 (count sums) then
      let avgX := avgX sums / count sums in
      let avgY := avgY sums / count sums in
      let avgVelX := avgVelX sums / count sums in
      let avgVelY := avgVelY sums / count sums in
      let influence := 0.1 in
      let directionToCenter := MathUtils.Math_atan2 (avgY - y f) (avgX - x f) in
      let vx := MathUtils.lerp (MathUtils.x (velocity f)) avgVelX influence in
      let vy := MathUtils.lerp (MathUtils.y (velocity f)) avgVelY influence in
      let vx := vx + cos directionToCenter * influence * speed f in
      let vy := vy + sin directionToCenter * influence * speed f in
      let f := f <| velocity := MathUtils.mkPoint vx vy |> in
      let currentSpeed := MathUtils.magnitude (Some (velocity f)) in
      if Rltb 0 currentSpeed then
        f <| velocity :=
               MathUtils.multiplyVector
                 (Some (MathUtils.normalize (Some (velocity f)))) (speed f) |>
      else f
    else f
  end.

Definition _applyAvoidanceBehavior (f : t) : t :=
  fold_left
    (fun f threat =>
       let distance :=
         MathUtils.distance (Some (position f))
                            (Some (MathUtils.centre threat)) in
       if Rltb distance (MathUtils.radius threat) then
         let avoidanceDirection :=
           MathUtils.Math_atan2 (y f - MathUtils.cy threat)
                                (x f - MathUtils.cx threat) in
         let avoidanceForce :=
           (MathUtils.radius threat - distance) / MathUtils.radius threat in
         let vx := MathUtils.x (velocity f)
                   + cos avoidanceDirection * avoidanceForce * speed f in
         let vy := MathUtils.y (velocity f)
                   + sin avoidanceDirection * avoidanceForce * speed f in
         let f := f <| velocity := MathUtils.mkPoint vx vy |> in
         let currentSpeed := MathUtils.magnitude (Some (velocity f)) in
         if Rltb (speed f * 2) currentSpeed then
           f <| velocity :=
                  MathUtils.multiplyVector
                    (Some (MathUtils.normalize (Some (velocity f))))
                    (speed f * 2) |>
         else f
       else f)
    (threats f) f.

(** No fish of the game carries a custom AI object ([setAI] is never called
    by the sources); the [ai.update] hook is outside the model.  [self] is
    the reference of the fish [f] itself, [st] holds the other fish. *)
Definition _updateBehaviorMovement (st : Store) (self : FishId)
    (random1 random2 : R) (deltaTime : R) (f : t) : t :=
  let f := f <| lastBehaviorUpdate ::= fun v => v + deltaTime |> in
  if Rltb (lastBehaviorUpdate f) (behaviorUpdateInterval f) then f
  else
    let f := f <| lastBehaviorUpdate := 0 |> in
    if String.eqb (behavior f) "erratic" then
      _applyErraticBehavior random1 random2 f
    else if String.eqb (behavior f) "schooling" then
      _applySchoolingBehavior st self f
    else if String.eqb (behavior f) "avoidance" then
      _applyAvoidanceBehavior f
    else f.

Definition _updateMovement (st : Store) (self : FishId)
    (random1 random2 : R) (deltaTime : R) (f : t) : t :=
  if negb (isActive f) || isCaught f then f
  else
    let deltaSeconds := deltaTime / 1000 in
    let f := f <| x ::= fun v => v + MathUtils.x (velocity f) * deltaSeconds * 60 |> in
    let f := f <| y ::= fun v => v + MathUtils.y (velocity f) * deltaSeconds * 60 |> in
    let f := _handleBoundsCollision f in
    let f :=
      if negb (Reqb (MathUtils.x (velocity f)) 0)
         || negb (Reqb (MathUtils.y (velocity f)) 0) then
        let rotation' :=
          MathUtils.Math_atan2 (MathUtils.y (velocity f))
                               (MathUtils.x (velocity f)) in
        f <| rotation := rotation' |> <| direction := rotation' |>
      else f in
    _updateBehaviorMovement st self random1 random2 deltaTime f.

Definition setPosition (x' y' : R) (f : t) : t := f <| x := x' |> <| y := y' |>.

Definition setVelocity (vx vy : R) (f : t) : t :=
  f <| velocity := MathUtils.mkPoint vx vy |>
    <| direction := MathUtils.Math_atan2 vy vx |>.

(** *** Collision detection *)

(** The target of [checkCollision] is told apart by its properties: a
    [radius], else a [width] and a [height], else a bare point. *)
Inductive Target : Type :=
| CircleTarget (c : MathUtils.Circle R)
| RectTarget (r : MathUtils.Rect R)
| PointTarget (p : MathUtils.Point R).

(** [getBounds()]: the properties [x], [y], [width], [height]; the
    properties [left], [top], [right], [bottom] are [x], [y], [x + width]
    and [y + height]. *)
Definition getBounds (f : t) : MathUtils.Rect R :=
  let scaledWidth := width f * scale f in
  let scaledHeight := height f * scale f in
  MathUtils.mkRect (x f) (y f) scaledWidth scaledHeight.

Definition checkCollision (target : Target) (f : t) : bool :=
  match target with
  | CircleTarget c =>
      let fishCenter :=
        MathUtils.mkPoint (x f + width f / 2) (y f + height f / 2) in
      MathUtils.pointInCircle (Some fishCenter) (Some c)
  | RectTarget r =>
      let fishBounds := getBounds f in
      MathUtils.rectangleCollision (Some fishBounds) (Some r)
  | PointTarget p =>
      MathUtils.pointInRectangle (Some p) (Some (getBounds f))
  end.

(** *** Game mechanics *)

Definition catch (f : t) : t :=
  f <| isCaught := true |> <| isActive := false |>
    <| velocity := MathUtils.origin |>.

Definition escape (random : R) (f : t) : t :=
  _initializeMovement random (f <| isCaught := false |> <| isActive := true |>).

Definition getScore (f : t) : R :=
  let multiplier := 1 in
  let sizeBonus := (width f + height f) / 64 in
  let multiplier := multiplier * sizeBonus in
  let multiplier :=
    if String.eqb (behavior f) "aggressive" then multiplier * 1.5
    else if String.eqb (behavior f) "erratic" then multiplier * 1.3
    else multiplier in
  MathUtils.Math_round (scoreValue f * multiplier).

Definition setBehavior (behavior' : string) (f : t) : t :=
  _applyBehaviorModifications (f <| behavior := behavior' |>).

Definition addToSchool (schoolmates' : list FishId) (f : t) : t :=
  setBehavior "schooling" (f <| schoolmates := schoolmates' |>).

Definition addThreat (threat : MathUtils.Circle R) (f : t) : t :=
  setBehavior "avoidance" (f <| threats ::= fun l => (l ++ [threat])%list |>).

(** *** Level of detail, pooling, mobile mode *)

Definition isInViewport (viewport : MathUtils.Rect R) (f : t) : bool :=
  let b := getBounds f in
  let left := MathUtils.rx b in
  let top := MathUtils.ry b in
  let right := MathUtils.rx b + MathUtils.width b in
  let bottom := MathUtils.ry b + MathUtils.height b in
  negb (Rltb right (MathUtils.rx viewport)
        || Rltb (MathUtils.rx viewport + MathUtils.width viewport) left
        || Rltb bottom (MathUtils.ry viewport)
        || Rltb (MathUtils.ry viewport + MathUtils.height viewport) top).

Definition setLOD (distance : R) (f : t) : t :=
  if Rltb distance 200 then f <| lodLevel := 0 |>
  else if Rltb distance 500 then f <| lodLevel := 1 |>
  else if Rltb distance 1000 then f <| lodLevel := 2 |>
  else f <| lodLevel := 3 |>.

Definition reset (f : t) : t :=
  f <| isActive := false |>
    <| isCaught := false |>
    <| currentFrame := 0 |>
    <| lastFrameTime := 0 |>
    <| velocity := MathUtils.origin |>
    <| schoolmates := [] |>
    <| threats := [] |>
    <| destroyed := false |>.

Definition setMobileMode (enabled : bool) (f : t) : t :=
  let f := f <| mobileMode := enabled |> in
  if enabled then
    f <| animationSpeed ::= fun v => Rmax v 200 |>
      <| lodLevel ::= fun v => Rmax v 1 |>
      <| behaviorUpdateInterval ::= fun v => Rmax v 150 |>
  else f.

Definition adaptToViewport (viewport : MathUtils.Rect R) (f : t) : t :=
  if Rltb (MathUtils.width viewport) 500 then
    setMobileMode true (f <| scale ::= fun v => Rmin v 0.8 |>)
  else f.

Definition handleTouch (touch : option (MathUtils.Point R)) (f : t) : bool :=
  let distance :=
    MathUtils.distance
      (Some (MathUtils.mkPoint (x f + width f / 2) (y f + height f / 2)))
      touch in
  Rleb distance (touchRadius f).

(** *** Listeners, update, destroy

    The callbacks registered on a fish are external code; the model keeps
    the registrations and does not run them. *)

Definition on (event : string) (callback : nat) (f : t) : t :=
  f <| eventListeners ::= fun l => (l ++ [(event, callback)])%list |>.

Fixpoint remove_listener (event : string) (callback : nat)
    (l : list (string * nat)) : list (string * nat) :=
  match l with
  | [] => []
  | (e, c) :: l' =>
      if String.eqb e event && Nat.eqb c callback then l'
      else (e, c) :: remove_listener event callback l'
  end.

Definition off (event : string) (callback : nat) (f : t) : t :=
  f <| eventListeners ::= remove_listener event callback |>.

Definition update (st : Store) (self : FishId) (random1 random2 : R)
    (deltaTime : R) (f : t) : t :=
  if destroyed f then f
  else
    let f := _updateAnimation deltaTime f in
    _updateMovement st self random1 random2 deltaTime f.

Definition destroy (f : t) : t :=
  f <| destroyed := true |>
    <| isActive := false |>
    <| spriteLoaded := false |>
    <| eventListeners := [] |>
    <| schoolmates := [] |>
    <| threats := [] |>.

End Fish.

(** ** The states of a fish

    A fish object is built by the constructor and then changed by its
    methods. *)

Module FishStates.

Import Fish.

Inductive reachable : Fish.t -> Prop :=
| reach_new random options :
    reachable (new random options)
| reach_update st self random1 random2 deltaTime f :
    reachable f -> reachable (update st self random1 random2 deltaTime f)
| reach_setAnimationSpeed speed f :
    reachable f -> reachable (setAnimationSpeed speed f)
| reach_pauseAnimation f :
    reachable f -> reachable (pauseAnimation f)
| reach_resumeAnimation f :
    reachable f -> reachable (resumeAnimation f)
| reach_setPosition x y f :
    reachable f -> reachable (setPosition x y f)
| reach_setVelocity vx vy f :
    reachable f -> reachable (setVelocity vx vy f)
| reach_catch f :
    reachable f -> reachable (catch f)
| reach_escape random f :
    reachable f -> reachable (escape random f)
| reach_setBehavior behavior f :
    reachable f -> reachable (setBehavior behavior f)
| reach_addToSchool schoolmates f :
    reachable f -> reachable (addToSchool schoolmates f)
| reach_addThreat threat f :
    reachable f -> reachable (addThreat threat f)
| reach_setLOD distance f :
    reachable f -> reachable (setLOD distance f)
| reach_reset f :
    reachable f -> reachable (reset f)
| reach_setMobileMode enabled f :
    reachable f -> reachable (setMobileMode enabled f)
| reach_adaptToViewport viewport f :
    reachable f -> reachable (adaptToViewport viewport f)
| reach_on event callback f :
    reachable f -> reachable (on event callback f)
| reach_off event callback f :
    reachable f -> reachable (off event callback f)
| reach_destroy f :
    reachable f -> reachable (destroy f).


End FishStates.

(** ** Callbacks

    The callbacks that the sources register on the player are three methods
    of the game; any other callback is external code. *)

Inductive Callback : Type :=
| Game_handlePlayerCast
| Game_handleFishCaught
| Game_handleReelingComplete
| External (n : nat).

(** ** Player *)

Module Player.

Local Open Scope R_scope.
Local Open Scope string_scope.

Record WeatherEffects : Type := mkWeather {
  windForce : R; visibility : R; fishActivity : R
}.

(** The [effect] object of a power-up: the properties the player reads. *)
Record Effect : Type := mkEffect {
  effect_maxLineLength : option R;
  effect_reelingSpeed : option R;
  effect_castingPower : option R
}.

Record PowerUp : Type := mkPowerUp {
  type : string;
  effect : Effect;
  duration : R;
  startTime : R
}.

Record Options : Type := mkOptions {
  opt_x : option R;
  opt_y : option R;
  opt_hookSize : option R;
  opt_hookType : option string;
  opt_maxLineLength : option R;
  opt_lineWeight : option R;
  opt_gravity : option R;
  opt_waterLevel : option R;
  opt_waterResistance : option R;
  opt_airResistance : option R;
  opt_castingPower : option R;
  opt_maxCastingPower : option R;
  opt_reelingSpeed : option R;
  opt_environment : option string;
  opt_weather : option string;
  opt_touchCastSensitivity : option R;
  opt_touchReelThreshold : option R
}.

Definition no_options : Options :=
  mkOptions None None None None None None None None None None None None None
            None None None None.

Record t : Type := mk {
  x : R;
  y : R;
  isActive : bool;
  destroyed : bool;
  hookX : R;
  hookY : R;
  hookSize : R;
  hookVelocity : MathUtils.Point R;
  hookType : string;
  hookEffectiveness : R;
  lineLength : R;
  maxLineLength : R;
  lineWeight : R;
  lineTension : R;
  lineBroken : bool;
  gravity : R;
  waterLevel : R;
  waterResistance : R;
  airResistance : R;
  isCasting : bool;
  castingPower : R;
  maxCastingPower : R;
  castingAngle : R;
  castCount : nat;
  isReeling : bool;
  reelingSpeed : R;
  reelingDistance : R;
  caughtFish : list Fish.FishId;
  totalScore : R;
  fishesCaught : nat;
  environment : string;
  weather : string;
  weatherEffects : WeatherEffects;
  activePowerUps : list PowerUp;
  powerUpEffects : list (string * Effect);   (* keyed by power-up type *)
  eventListeners : list (string * Callback);
  touchCastSensitivity : R;
  touchReelThreshold : R;
  lastUpdateTime : R
}.

Definition eta (p : t) : t :=
  mk (x p) (y p) (isActive p) (destroyed p) (hookX p) (hookY p) (hookSize p)
     (hookVelocity p) (hookType p) (hookEffectiveness p) (lineLength p)
     (maxLineLength p) (lineWeight p) (lineTension p) (lineBroken p)
     (gravity p) (waterLevel p) (waterResistance p) (airResistance p)
     (isCasting p) (castingPower p) (maxCastingPower p) (castingAngle p)
     (castCount p) (isReeling p) (reelingSpeed p) (reelingDistance p)
     (caughtFish p) (totalScore p) (fishesCaught p) (environment p)
     (weather p) (weatherEffects p) (activePowerUps p) (powerUpEffects p)
     (eventListeners p) (touchCastSensitivity p) (touchReelThreshold p)
     (lastUpdateTime p).

#[global] Instance set_isActive : Setter isActive := ltac:(build_setter eta isActive).
Arguments set_isActive _ _ /.
#[global] Instance set_destroyed : Setter destroyed := ltac:(build_setter eta destroyed).
Arguments set_destroyed _ _ /.
#[global] Instance set_hookX : Setter hookX := ltac:(build_setter eta hookX).
Arguments set_hookX _ _ /.
#[global] Instance set_hookY : Setter hookY := ltac:(build_setter eta hookY).
Arguments set_hookY _ _ /.
#[global] Instance set_hookVelocity : Setter hookVelocity := ltac:(build_setter eta hookVelocity).
Arguments set_hookVelocity _ _ /.
#[global] Instance set_hookType : Setter hookType := ltac:(build_setter eta hookType).
Arguments set_hookType _ _ /.
#[global] Instance set_hookEffectiveness : Setter hookEffectiveness := ltac:(build_setter eta hookEffectiveness).
Arguments set_hookEffectiveness _ _ /.
#[global] Instance set_lineLength : Setter lineLength := ltac:(build_setter eta lineLength).
Arguments set_lineLength _ _ /.
#[global] Instance set_maxLineLength : Setter maxLineLength := ltac:(build_setter eta maxLineLength).
Arguments set_maxLineLength _ _ /.
#[global] Instance set_lineTension : Setter lineTension := ltac:(build_setter eta lineTension).
Arguments set_lineTension _ _ /.
#[global] Instance set_lineBroken : Setter lineBroken := ltac:(build_setter eta lineBroken).
Arguments set_lineBroken _ _ /.
#[global] Instance set_gravity : Setter gravity := ltac:(build_setter eta gravity).
Arguments set_gravity _ _ /.
#[global] Instance set_waterResistance : Setter waterResistance := ltac:(build_setter eta waterResistance).
Arguments set_waterResistance _ _ /.
#[global] Instance set_isCasting : Setter isCasting := ltac:(build_setter eta isCasting).
Arguments set_isCasting _ _ /.
#[global] Instance set_castingPower : Setter castingPower := ltac:(build_setter eta castingPower).
Arguments set_castingPower _ _ /.
#[global] Instance set_maxCastingPower : Setter maxCastingPower := ltac:(build_setter eta maxCastingPower).
Arguments set_maxCastingPower _ _ /.
#[global] Instance set_castingAngle : Setter castingAngle := ltac:(build_setter eta castingAngle).
Arguments set_castingAngle _ _ /.
#[global] Instance set_castCount : Setter castCount := ltac:(build_setter eta castCount).
Arguments set_castCount _ _ /.
#[global] Instance set_isReeling : Setter isReeling := ltac:(build_setter eta isReeling).
Arguments set_isReeling _ _ /.
#[global] Instance set_reelingSpeed : Setter reelingSpeed := ltac:(build_setter eta reelingSpeed).
Arguments set_reelingSpeed _ _ /.
#[global] Instance set_caughtFish : Setter caughtFish := ltac:(build_setter eta caughtFish).
Arguments set_caughtFish _ _ /.
#[global] Instance set_totalScore : Setter totalScore := ltac:(build_setter eta totalScore).
Arguments set_totalScore _ _ /.
#[global] Instance set_fishesCaught : Setter fishesCaught := ltac:(build_setter eta fishesCaught).
Arguments set_fishesCaught _ _ /.
#[global] Instance set_environment : Setter environment := ltac:(build_setter eta environment).
Arguments set_environment _ _ /.
#[global] Instance set_weather : Setter weather := ltac:(build_setter eta weather).
Arguments set_weather _ _ /.
#[global] Instance set_weatherEffects : Setter weatherEffects := ltac:(build_setter eta weatherEffects).
Arguments set_weatherEffects _ _ /.
#[global] Instance set_activePowerUps : Setter activePowerUps := ltac:(build_setter eta activePowerUps).
Arguments set_activePowerUps _ _ /.
#[global] Instance set_powerUpEffects : Setter powerUpEffects := ltac:(build_setter eta powerUpEffects).
Arguments set_powerUpEffects _ _ /.
#[global] Instance set_eventListeners : Setter eventListeners := ltac:(build_setter eta eventListeners).
Arguments set_eventListeners _ _ /.
#[global] Instance set_lastUpdateTime : Setter lastUpdateTime := ltac:(build_setter eta lastUpdateTime).
Arguments set_lastUpdateTime _ _ /.

(** *** Events *)

Inductive Event : Type :=
| EvCastStarted (power angle : R) (count : nat)
| EvReelingStarted (caughtFish : nat)
| EvReelingStopped
| EvReelingComplete (fishCaught : nat) (scoreGained : R)
| EvLineBroken (lineLength : R)
| EvFishCaught (fish : Fish.FishId) (score : R)
| EvFishEscaped (fish : Fish.FishId) (score : R)
| EvPowerUpApplied (powerUp : PowerUp)
| EvPowerUpExpired (powerUp : PowerUp)
| EvPlayerReset
| EvDestroyed.

Definition event_name (e : Event) : string :=
  match e with
  | EvCastStarted _ _ _ => "castStarted"
  | EvReelingStarted _ => "reelingStarted"
  | EvReelingStopped => "reelingStopped"
  | EvReelingComplete _ _ => "reelingComplete"
  | EvLineBroken _ => "lineBroken"
  | EvFishCaught _ _ => "fishCaught"
  | EvFishEscaped _ _ => "fishEscaped"
  | EvPowerUpApplied _ => "powerUpApplied"
  | EvPowerUpExpired _ => "powerUpExpired"
  | EvPlayerReset => "playerReset"
  | EvDestroyed => "destroyed"
  end.

(** [_emit(event, ...)]: the calls made, one for each callback registered
    under the name of the event, in the order of registration. *)
Definition _emit (e : Event) (p : t) : list (Callback * Event) :=
  List.map (fun l => (snd l, e))
    (List.filter (fun l => String.eqb (fst l) (event_name e))
                 (eventListeners p)).

(** The result of a method: the player, the store of fish objects, and the
    callbacks called on the way. *)
Record Out : Type := mkOut {
  player : t;
  fishes : Fish.Store;
  calls : list (Callback * Event)
}.

Definition ret (p : t) (st : Fish.Store) : Out := mkOut p st [].

Definition emit (e : Event) (p : t) (st : Fish.Store) : Out :=
  mkOut p st (_emit e p).

Definition bind (o : Out) (k : t -> Fish.Store -> Out) : Out :=
  let o' := k (player o) (fishes o) in
  mkOut (player o') (fishes o') (calls o ++ calls o')%list.

Notation "o >>= k" := (bind o k) (at level 50, left associativity).

(** *** Initialisation *)

Definition _getHookEffectiveness (hookType : string) : R :=
  if String.eqb hookType "basic" then 1.0
  else if String.eqb hookType "silver_hook" then 1.2
  else if String.eqb hookType "golden_hook" then 1.5
  else if String.eqb hookType "diamond_hook" then 2.0
  else if String.eqb hookType "legendary_hook" then 3.0
  else 1.0.

Definition _getWeatherEffects (weather : string) : WeatherEffects :=
  if String.eqb weather "calm" then mkWeather 0 1.0 1.0
  else if String.eqb weather "windy" then mkWeather 2 0.8 0.7
  else if String.eqb weather "stormy" then mkWeather 5 0.5 0.3
  else if String.eqb weather "foggy" then mkWeather 0 0.3 1.2
  else mkWeather 0 1.0 1.0.

Definition set_vx (v : R) (p : MathUtils.Point R) : MathUtils.Point R :=
  MathUtils.mkPoint v (MathUtils.y p).
Definition set_vy (v : R) (p : MathUtils.Point R) : MathUtils.Point R :=
  MathUtils.mkPoint (MathUtils.x p) v.

Definition _applyEnvironmentEffects (p : t) : t :=
  if String.eqb (environment p) "shallow_water" then
    p <| waterResistance := 0.85 |> <| maxLineLength ::= fun v => v * 0.8 |>
  else if String.eqb (environment p) "deep_water" then
    p <| waterResistance := 0.9 |> <| gravity ::= fun v => v * 1.2 |>
  else if String.eqb (environment p) "fast_current" then
    p <| waterResistance := 0.7 |>
      <| hookVelocity ::= fun v => set_vx (MathUtils.x v + 1) v |>
  else p.

(** [new Player(options)] *)
Definition new (options : Options) : t :=
  let x := or_number (opt_x options) 400 in
  let y := or_number (opt_y options) 50 in
  let hookType := or_string (opt_hookType options) "basic" in
  let weather := or_string (opt_weather options) "calm" in
  _applyEnvironmentEffects
    {| x := x;
       y := y;
       isActive := true;
       destroyed := false;
       hookX := x;
       hookY := y;
       hookSize := or_number (opt_hookSize options) 8;
       hookVelocity := MathUtils.origin;
       hookType := hookType;
       hookEffectiveness := _getHookEffectiveness hookType;
       lineLength := 0;
       maxLineLength := or_number (opt_maxLineLength options) 300;
       lineWeight := or_number (opt_lineWeight options) 0.1;
       lineTension := 0;
       lineBroken := false;
       gravity := or_number (opt_gravity options) 0.3;
       waterLevel := or_number (opt_waterLevel options) 200;
       waterResistance := or_number (opt_waterResistance options) 0.85;
       airResistance := or_number (opt_airResistance options) 0.98;
       isCasting := false;
       castingPower := or_number (opt_castingPower options) 5;
       maxCastingPower := or_number (opt_maxCastingPower options) 10;
       castingAngle := 0;
       castCount := 0;
       isReeling := false;
       reelingSpeed := or_number (opt_reelingSpeed options) 3;
       reelingDistance := 10;
       caughtFish := [];
       totalScore := 0;
       fishesCaught := 0;
       environment := or_string (opt_environment options) "shallow_water";
       weather := weather;
       weatherEffects := _getWeatherEffects weather;
       activePowerUps := [];
       powerUpEffects := [];
       eventListeners := [];
       touchCastSensitivity := or_number (opt_touchCastSensitivity options) 20;
       touchReelThreshold := or_number (opt_touchReelThreshold options) 5;
       lastUpdateTime := 0 |}.

(** *** Casting *)

(** [MathUtils.normalizeAngle] in exact arithmetic: the two loops have
    returned after [angle_fuel angle] iterations
    (lemma [normalizeAngle_enough_fuel]). *)
Definition angle_fuel (angle : R) : nat :=
  S (Z.to_nat (Zceil (Rabs angle / (2 * PI)))).

Definition normalizeAngle (angle : R) : R :=
  match MathUtils.normalizeAngle (angle_fuel angle) angle with
  | Some a => a
  | None => angle
  end.

(** [random] is the draw of the wind perturbation. *)
Definition cast (random : R) (power angle : R) (p : t) (st : Fish.Store) : Out :=
  if destroyed p || isCasting p || isReeling p then ret p st
  else
    let p := p <| castingPower := MathUtils.clamp power 0 (maxCastingPower p) |> in
    let p := p <| castingAngle := normalizeAngle angle |> in
    let p :=
      if Rltb 0 (windForce (weatherEffects p)) then
        let windEffect := windForce (weatherEffects p) * 0.1 in
        let p := p <| castingAngle ::= fun a =>
                   a + MathUtils.randomRange random (- windEffect) windEffect |> in
        p <| castingAngle := normalizeAngle (castingAngle p) |>
      else p in
    let p := p <| hookVelocity :=
                 MathUtils.mkPoint (castingPower p * cos (castingAngle p))
                                   (castingPower p * sin (castingAngle p)) |> in
    let p := p <| isCasting := true |>
               <| lineBroken := false |>
               <| castCount ::= S |> in
    emit (EvCastStarted (castingPower p) (castingAngle p) (castCount p)) p st.

Definition handleTouchCast (random : R) (startTouch endTouch : MathUtils.Point R)
    (p : t) (st : Fish.Store) : Out :=
  if destroyed p || isCasting p || isReeling p then ret p st
  else
    let deltaX := MathUtils.x endTouch - MathUtils.x startTouch in
    let deltaY := MathUtils.y endTouch - MathUtils.y startTouch in
    let distance := MathUtils.distance (Some startTouch) (Some endTouch) in
    let power := Rmin (distance / touchCastSensitivity p) (maxCastingPower p) in
    let angle := MathUtils.Math_atan2 deltaY deltaX in
    cast random power angle p st.

(** *** Hook physics *)

Definition _resetHook (p : t) : t :=
  p <| hookX := x p |>
    <| hookY := y p |>
    <| hookVelocity := MathUtils.origin |>
    <| lineLength := 0 |>
    <| lineTension := 0 |>.

Definition _updateLineLength (p : t) : t :=
  p <| lineLength :=
         MathUtils.distance (Some (MathUtils.mkPoint (x p) (y p)))
                            (Some (MathUtils.mkPoint (hookX p) (hookY p))) |>.

Definition _updateLineTension (p : t) : t :=
  let tensionRatio := lineLength p / maxLineLength p in
  let p := p <| lineTension := MathUtils.clamp tensionRatio 0 1 |> in
  if Rltb 0.8 (lineTension p) then
    let tensionForce := (lineTension p - 0.8) * 0.5 in
    let directionToPlayer :=
      MathUtils.Math_atan2 (y p - hookY p) (x p - hookX p) in
    p <| hookVelocity ::= fun v =>
           MathUtils.mkPoint
             (MathUtils.x v + cos directionToPlayer * tensionForce)
             (MathUtils.y v + sin directionToPlayer * tensionForce) |>
  else p.

(** [fish.escape()] on every fish of the list, in order; [random k] is the
    draw made by the [k]-th call. *)
Fixpoint escape_each (random : nat -> R) (k : nat) (fish : list Fish.FishId)
    (st : Fish.Store) : Fish.Store :=
  match fish with
  | [] => st
  | id :: fish' =>
      escape_each random (S k) fish'
        (Fish.upd st id (Fish.escape (random k) (st id)))
  end.

Definition _breakLine (random : nat -> R) (p : t) (st : Fish.Store) : Out :=
  let p := p <| lineBroken := true |>
             <| isCasting := false |>
             <| isReeling := false |> in
  let st := escape_each random 0 (caughtFish p) st in
  let p := p <| caughtFish := [] |> in
  emit (EvLineBroken (lineLength p)) p st >>= fun p st =>
  ret (_resetHook p) st.

(** A [Fish] has no [weight] property: [fish.weight || 1] is 1. *)
Definition _applyFishResistance (deltaTime : R) (p : t) : t :=
  let totalResistance :=
    fold_left (fun sum (_ : Fish.FishId) => sum + 1 * 0.1) (caughtFish p) 0 in
  p <| hookVelocity ::= fun v =>
         MathUtils.mkPoint (MathUtils.x v * (1 - totalResistance))
                           (MathUtils.y v * (1 - totalResistance)) |>.

(** The first part of [_updateHookPhysics]: gravity, resistance, wind and
    the new position of the hook. *)
Definition _moveHook (deltaTime : R) (p : t) : t :=
  let deltaSeconds := deltaTime / 1000 in
  let p := p <| hookVelocity ::= fun v =>
             set_vy (MathUtils.y v + gravity p * deltaSeconds * 60) v |> in
  let p :=
    if Rltb (hookY p) (waterLevel p) then
      p <| hookVelocity ::= fun v =>
             MathUtils.mkPoint (MathUtils.x v * airResistance p)
                               (MathUtils.y v * airResistance p) |>
    else
      p <| hookVelocity ::= fun v =>
             MathUtils.mkPoint (MathUtils.x v * waterResistance p)
                               (MathUtils.y v * waterResistance p) |> in
  let p :=
    if Rltb 0 (windForce (weatherEffects p)) && Rltb (hookY p) (waterLevel p) then
      p <| hookVelocity ::= fun v =>
             set_vx (MathUtils.x v + windForce (weatherEffects p) * 0.01) v |>
    else p in
  let p := p <| hookX ::= fun v =>
             v + MathUtils.x (hookVelocity p) * deltaSeconds * 60 |> in
  p <| hookY ::= fun v => v + MathUtils.y (hookVelocity p) * deltaSeconds * 60 |>.

Definition _updateHookPhysics (random : nat -> R) (deltaTime : R)
    (p : t) (st : Fish.Store) : Out :=
  if negb (isCasting p) && negb (isReeling p) then ret p st
  else
    let p := _moveHook deltaTime p in
    let p := _updateLineLength p in
    let p := _updateLineTension p in
    (if Rltb (maxLineLength p) (lineLength p) then _breakLine random p st
     else ret p st) >>= fun p st =>
    if (0 <? List.length (caughtFish p))%nat then
      ret (_applyFishResistance deltaTime p) st
    else ret p st.

(** *** Reeling *)

Definition startReeling (p : t) (st : Fish.Store) : Out :=
  if destroyed p || isReeling p || negb (isCasting p) then ret p st
  else
    let p := p <| isReeling := true |> <| isCasting := false |> in
    emit (EvReelingStarted (List.length (caughtFish p))) p st.

Definition stopReeling (p : t) (st : Fish.Store) : Out :=
  if destroyed p then ret p st
  else
    let p := p <| isReeling := false |> in
    emit EvReelingStopped p st.

Definition handleTouchReel (p : t) (st : Fish.Store) : Out := startReeling p st.

Definition _completeReeling (p : t) (st : Fish.Store) : Out :=
  let p := p <| isReeling := false |> <| isCasting := false |> in
  let p := p <| totalScore :=
             fold_left (fun total id => total + Fish.getScore (st id))
                       (caughtFish p) (totalScore p) |> in
  let p := p <| fishesCaught ::= fun n => (n + List.length (caughtFish p))%nat |> in
  emit (EvReelingComplete
          (List.length (caughtFish p))
          (fold_left (fun sum id => sum + Fish.getScore (st id))
                     (caughtFish p) 0)) p st >>= fun p st =>
  ret (_resetHook (p <| caughtFish := [] |>)) st.

Fixpoint lookup_effect (key : string) (l : list (string * Effect))
    : option Effect :=
  match l with
  | [] => None
  | (k, e) :: l' => if String.eqb k key then Some e else lookup_effect key l'
  end.

(** [powerUpEffects] is keyed by the type of the power-ups, so
    [powerUpEffects.reelingSpeed] is defined only after a power-up whose type
    is the string [reelingSpeed]; its value is then the effect object, and the
    product of a number and an object is [NaN] in JavaScript.  Exact
    arithmetic has no [NaN]: [NaN_as_real] stands for it. *)
Definition NaN_as_real : R := 0.

Definition _updateReeling (deltaTime : R) (p : t) (st : Fish.Store) : Out :=
  if negb (isReeling p) then ret p st
  else
    let directionToPlayer :=
      MathUtils.Math_atan2 (y p - hookY p) (x p - hookX p) in
    let reelingForce := reelingSpeed p in
    let reelingForce :=
      if (0 <? List.length (caughtFish p))%nat then
        let resistance := INR (List.length (caughtFish p)) * 0.3 in
        reelingForce * (1 - resistance)
      else reelingForce in
    let reelingForce :=
      match lookup_effect "reelingSpeed" (powerUpEffects p) with
      | Some _ => NaN_as_real
      | None => reelingForce
      end in
    let p := p <| hookVelocity :=
               MathUtils.mkPoint (cos directionToPlayer * reelingForce)
                                 (sin directionToPlayer * reelingForce) |> in
    if Rleb (lineLength p) (reelingDistance p) then _completeReeling p st
    else ret p st.

(** *** Catching *)

(** The hook is a rectangle: it has a [width] and a [height] and no
    [radius]. *)
Definition checkFishCollision (fish : option Fish.FishId) (p : t)
    (st : Fish.Store) : bool :=
  match fish with
  | None => false
  | Some id =>
      if Fish.isCaught (st id) then false
      else
        let hookBounds :=
          MathUtils.mkRect (hookX p - hookSize p / 2) (hookY p - hookSize p / 2)
                           (hookSize p) (hookSize p) in
        Fish.checkCollision (Fish.RectTarget hookBounds) (st id)
  end.

Definition includes (id : Fish.FishId) (l : list Fish.FishId) : bool :=
  existsb (Nat.eqb id) l.

(** [random] is the draw that decides the catch. *)
Definition catchFish (random : R) (fish : option Fish.FishId) (p : t)
    (st : Fish.Store) : Out :=
  match fish with
  | None => ret p st
  | Some id =>
      if destroyed p || Fish.isCaught (st id) || includes id (caughtFish p)
      then ret p st
      else
        let catchChance := hookEffectiveness p * fishActivity (weatherEffects p) in
        if Rltb (catchChance * 0.8) random then ret p st
        else
          let st := Fish.upd st id (Fish.catch (st id)) in
          let p := p <| caughtFish ::= fun l => (l ++ [id])%list |> in
          let score := Fish.getScore (st id) in
          let p := p <| totalScore ::= fun v => v + score |> in
          let p := p <| fishesCaught ::= S |> in
          emit (EvFishCaught id score) p st
  end.

(** [indexOf] and [splice(index, 1)] *)
Fixpoint indexOf (id : Fish.FishId) (l : list Fish.FishId) : option nat :=
  match l with
  | [] => None
  | a :: l' =>
      if Nat.eqb a id then Some O
      else match indexOf id l' with
           | Some i => Some (S i)
           | None => None
           end
  end.

Fixpoint splice1 (index : nat) (l : list Fish.FishId) : list Fish.FishId :=
  match l, index with
  | [], _ => []
  | _ :: l', O => l'
  | a :: l', S i => a :: splice1 i l'
  end.

(** [random1] decides the escape, [random2] is the draw of [fish.escape()];
    a missing [escapeChance] is 0.1. *)
Definition handleFishEscape (random1 random2 : R) (fish : Fish.FishId)
    (escapeChance : option R) (p : t) (st : Fish.Store) : Out :=
  let escapeChance := match escapeChance with Some c => c | None => 0.1 end in
  if Rltb random1 escapeChance then
    match indexOf fish (caughtFish p) with
    | Some index =>
        let p := p <| caughtFish ::= splice1 index |> in
        let st := Fish.upd st fish (Fish.escape random2 (st fish)) in
        let score := Fish.getScore (st fish) in
        let p := p <| totalScore := Rmax 0 (totalScore p - score) |> in
        let p := p <| fishesCaught ::= Nat.pred |> in
        emit (EvFishEscaped fish score) p st
    | None => ret p st
    end
  else ret p st.

(** *** Power-ups *)

Definition set_effect (key : string) (e : Effect)
    (l : list (string * Effect)) : list (string * Effect) :=
  (List.filter (fun ke => negb (String.eqb (fst ke) key)) l ++ [(key, e)])%list.

Definition delete_effect (key : string)
    (l : list (string * Effect)) : list (string * Effect) :=
  List.filter (fun ke => negb (String.eqb (fst ke) key)) l.

(** [now] is the value of [Date.now()]. *)
Definition applyPowerUp (now : R) (powerUp : option PowerUp) (p : t)
    (st : Fish.Store) : Out :=
  match powerUp with
  | None => ret p st
  | Some powerUp =>
      if destroyed p then ret p st
      else
        let p := match effect_maxLineLength (effect powerUp) with
                 | Some v => p <| maxLineLength := v |>
                 | None => p
                 end in
        let p := match effect_reelingSpeed (effect powerUp) with
                 | Some v => p <| reelingSpeed := v |>
                 | None => p
                 end in
        let p := match effect_castingPower (effect powerUp) with
                 | Some v => p <| maxCastingPower := v |>
                 | None => p
                 end in
        let powerUp :=
          mkPowerUp (type powerUp) (effect powerUp) (duration powerUp) now in
        let p := p <| activePowerUps ::= fun l => (l ++ [powerUp])%list |> in
        let p := p <| powerUpEffects ::= set_effect (type powerUp) (effect powerUp) |> in
        emit (EvPowerUpApplied powerUp) p st
  end.

Definition truthy (v : option R) : bool :=
  match v with
  | Some a => negb (Reqb a 0)
  | None => false
  end.

(** The [filter] over [activePowerUps], whose callback also resets the
    properties of the expired power-ups. *)
Fixpoint expire_powerUps (currentTime : R) (l : list PowerUp) (p : t)
    : list PowerUp * t * list (Callback * Event) :=
  match l with
  | [] => ([], p, [])
  | powerUp :: l' =>
      let elapsed := currentTime - startTime powerUp in
      if Rleb (duration powerUp) elapsed then
        let p := p <| powerUpEffects ::= delete_effect (type powerUp) |> in
        let p := if truthy (effect_maxLineLength (effect powerUp))
                 then p <| maxLineLength := 300 |> else p in
        let p := if truthy (effect_reelingSpeed (effect powerUp))
                 then p <| reelingSpeed := 3 |> else p in
        let called := _emit (EvPowerUpExpired powerUp) p in
        let '(kept, p, calls) := expire_powerUps currentTime l' p in
        (kept, p, (called ++ calls)%list)
      else
        let '(kept, p, calls) := expire_powerUps currentTime l' p in
        (powerUp :: kept, p, calls)
  end.

Definition _updatePowerUps (now : R) (deltaTime : R) (p : t)
    (st : Fish.Store) : Out :=
  let currentTime := now in
  let '(kept, p, calls) := expire_powerUps currentTime (activePowerUps p) p in
  mkOut (p <| activePowerUps := kept |>) st calls.

Definition setHookType (hookType' : string) (p : t) : t :=
  p <| hookType := hookType' |>
    <| hookEffectiveness := _getHookEffectiveness hookType' |>.

Definition setEnvironment (environment' : string) (p : t) : t :=
  _applyEnvironmentEffects (p <| environment := environment' |>).

Definition setWeather (weather' : string) (p : t) : t :=
  p <| weather := weather' |>
    <| weatherEffects := _getWeatherEffects weather' |>.

Definition reset (p : t) (st : Fish.Store) : Out :=
  let p := p <| isCasting := false |>
             <| isReeling := false |>
             <| lineBroken := false |>
             <| caughtFish := [] |> in
  let p := _resetHook p in
  emit EvPlayerReset p st.

Definition isHookInViewport (viewport : MathUtils.Rect R) (p : t) : bool :=
  negb (Rltb (hookX p) (MathUtils.rx viewport - hookSize p)
        || Rltb (MathUtils.rx viewport + MathUtils.width viewport + hookSize p)
                (hookX p)
        || Rltb (hookY p) (MathUtils.ry viewport - hookSize p)
        || Rltb (MathUtils.ry viewport + MathUtils.height viewport + hookSize p)
                (hookY p)).

(** *** Statistics

    [getStatistics()] builds its result from [calculateSkill()], and
    [calculateSkill()] starts by calling [getStatistics()].  [depth] is the
    number of frames left on the call stack; [None] is the call that finds
    the stack exhausted. *)

Record Statistics : Type := mkStatistics {
  stat_totalScore : R;
  stat_fishesCaught : nat;
  stat_castCount : nat;
  stat_accuracy : R;
  stat_averageScore : R;
  stat_currentStreak : nat;
  stat_skillLevel : R
}.

Definition _calculateStreak (p : t) : nat := Nat.min (fishesCaught p) 10.

Fixpoint getStatistics (depth : nat) (p : t) : option Statistics :=
  match depth with
  | O => None
  | S depth' =>
      let accuracy :=
        if (0 <? castCount p)%nat
        then INR (fishesCaught p) / INR (castCount p) * 100
        else 0 in
      let averageScore :=
        if (0 <? fishesCaught p)%nat
        then totalScore p / INR (fishesCaught p)
        else 0 in
      let currentStreak := _calculateStreak p in
      match calculateSkill depth' p with
      | Some skillLevel =>
          Some {| stat_totalScore := totalScore p;
                  stat_fishesCaught := fishesCaught p;
                  stat_castCount := castCount p;
                  stat_accuracy := MathUtils.Math_round (accuracy * 10) / 10;
                  stat_averageScore :=
                    MathUtils.Math_round (averageScore * 10) / 10;
                  stat_currentStreak := currentStreak;
                  stat_skillLevel := skillLevel |}
      | None => None
      end
  end
with calculateSkill (depth : nat) (p : t) : option R :=
  match depth with
  | O => None
  | S depth' =>
      match getStatistics depth' p with
      | Some stats =>
          let accuracyWeight := 0.4 in
          let scoreWeight := 0.3 in
          let experienceWeight := 0.3 in
          let accuracyScore := Rmin (stat_accuracy stats) 100 in
          let scoreScore := Rmin (stat_averageScore stats * 2) 100 in
          let experienceScore := Rmin (INR (castCount p) * 2) 100 in
          Some (MathUtils.Math_round
                  (accuracyScore * accuracyWeight
                   + scoreScore * scoreWeight
                   + experienceScore * experienceWeight))
      | None => None
      end
  end.

(** *** Listeners, update, destroy *)

Definition on (event : string) (callback : Callback) (p : t) : t :=
  p <| eventListeners ::= fun l => (l ++ [(event, callback)])%list |>.

Definition Callback_eqb (a b : Callback) : bool :=
  match a, b with
  | Game_handlePlayerCast, Game_handlePlayerCast => true
  | Game_handleFishCaught, Game_handleFishCaught => true
  | Game_handleReelingComplete, Game_handleReelingComplete => true
  | External n, External m => Nat.eqb n m
  | _, _ => false
  end.

Fixpoint remove_listener (event : string) (callback : Callback)
    (l : list (string * Callback)) : list (string * Callback) :=
  match l with
  | [] => []
  | (e, c) :: l' =>
      if String.eqb e event && Callback_eqb c callback then l'
      else (e, c) :: remove_listener event callback l'
  end.

Definition off (event : string) (callback : Callback) (p : t) : t :=
  p <| eventListeners ::= remove_listener event callback |>.

(** [update(deltaTime)]: [random] feeds the escapes of a breaking line,
    [now] is [Date.now()]. *)
Definition update (random : nat -> R) (now : R) (deltaTime : R)
    (p : t) (st : Fish.Store) : Out :=
  if destroyed p then ret p st
  else
    let p := p <| lastUpdateTime := deltaTime |> in
    _updateHookPhysics random deltaTime p st >>= fun p st =>
    _updateReeling deltaTime p st >>= fun p st =>
    _updatePowerUps now deltaTime p st.

Definition destroy (random : nat -> R) (p : t) (st : Fish.Store) : Out :=
  let p := p <| destroyed := true |> <| isActive := false |> in
  let st := escape_each random 0 (caughtFish p) st in
  let p := p <| caughtFish := [] |>
             <| activePowerUps := [] |>
             <| powerUpEffects := [] |>
             <| eventListeners := [] |> in
  emit EvDestroyed p st.

End Player.

(** ** The states of a player

    A player object is built by the constructor and then changed by its
    public methods, called with any arguments, any draws of [Math.random()],
    any clock, and whatever the fish objects are at the time of the call. *)

Module PlayerStates.

Import Player.

Inductive reachable : Player.t -> Prop :=
| reach_new options :
    reachable (new options)
| reach_cast random power angle st p :
    reachable p -> reachable (player (cast random power angle p st))
| reach_handleTouchCast random startTouch endTouch st p :
    reachable p ->
    reachable (player (handleTouchCast random startTouch endTouch p st))
| reach_startReeling st p :
    reachable p -> reachable (player (startReeling p st))
| reach_stopReeling st p :
    reachable p -> reachable (player (stopReeling p st))
| reach_handleTouchReel st p :
    reachable p -> reachable (player (handleTouchReel p st))
| reach_update random now deltaTime st p :
    reachable p -> reachable (player (update random now deltaTime p st))
| reach_catchFish random fish st p :
    reachable p -> reachable (player (catchFish random fish p st))
| reach_handleFishEscape random1 random2 fish escapeChance st p :
    reachable p ->
    reachable (player (handleFishEscape random1 random2 fish escapeChance p st))
| reach_applyPowerUp now powerUp st p :
    reachable p -> reachable (player (applyPowerUp now powerUp p st))
| reach_setHookType hookType p :
    reachable p -> reachable (setHookType hookType p)
| reach_setEnvironment environment p :
    reachable p -> reachable (setEnvironment environment p)
| reach_setWeather weather p :
    reachable p -> reachable (setWeather weather p)
| reach_reset st p :
    reachable p -> reachable (player (reset p st))
| reach_on event callback p :
    reachable p -> reachable (on event callback p)
| reach_off event callback p :
    reachable p -> reachable (off event callback p)
| reach_destroy random st p :
    reachable p -> reachable (player (destroy random p st)).

(** A store in which every reference is a freshly built default fish. *)
Definition default_store : Fish.Store :=
  fun _ => Fish.new (fun _ => 0%R) Fish.no_options.



End PlayerStates.

(** ** TouchController

    The touch path of the gesture recogniser: pointer tracking, the
    classification of a released touch into tap, double tap or swipe, the
    pinch of two touches, and the mapping of gestures to player actions
    through the zones.  The canvas is an object of the host; what the
    controller reads from it is the record [Canvas].  The callbacks of the
    timers armed by the controller and the mouse emulation are outside the
    model; the callbacks registered on the controller are external code and
    are not run. *)

Module TouchController.

Local Open Scope R_scope.
Local Open Scope string_scope.

Record Canvas : Type := mkCanvas {
  canvas_width : R;      (* [canvas.width] *)
  rect_left : R;         (* [canvas.getBoundingClientRect()] *)
  rect_top : R;
  rect_width : R;
  rect_height : R
}.

(** What the controller reads from its [gameState] object. *)
Record GameStateView : Type := mkView {
  view_isPaused : bool;
  view_currentMode : option string
}.

Inductive TouchKey : Type :=
| TouchIdentifier (n : nat)
| MouseKey.

Definition TouchKey_eqb (a b : TouchKey) : bool :=
  match a, b with
  | TouchIdentifier n, TouchIdentifier m => Nat.eqb n m
  | MouseKey, MouseKey => true
  | _, _ => false
  end.

(** A tracking object of the pool. *)
Record TouchObj : Type := mkTouchObj {
  id : option TouchKey;
  startX : R;
  startY : R;
  currentX : R;
  currentY : R;
  previousX : R;
  previousY : R;
  deltaX : R;
  deltaY : R;
  startTime : R;
  lastMoveTime_ : R;
  isActive : bool;
  longPressTimer : option nat    (* [gestureData.longPressTimer] *)
}.

Definition _createTouchObject : TouchObj :=
  mkTouchObj None 0 0 0 0 0 0 0 0 0 0 false None.

(** [touch.reset()] *)
Definition reset_touch (touch : TouchObj) : TouchObj := _createTouchObject.

(** A touch point of a DOM touch event. *)
Record Touch : Type := mkTouch {
  identifier : nat;
  clientX : R;
  clientY : R
}.

Record SwipeData : Type := mkSwipe {
  swipe_startX : R;
  swipe_startY : R;
  swipe_endX : R;
  swipe_endY : R;
  swipe_distance : R;
  swipe_duration : R;
  swipe_direction : string;
  swipe_velocity : R
}.

Inductive Gesture : Type :=
| Tap (position : MathUtils.Point R) (timestamp : R)
| DoubleTap (position : MathUtils.Point R) (timestamp : R)
| Swipe (data : SwipeData) (timestamp : R)
| LongPress (position : MathUtils.Point R) (timestamp : R)
| Pinch (scale : R) (center : MathUtils.Point R) (timestamp : R).

Record Zones : Type := mkZones {
  casting : MathUtils.Rect R;
  reeling : MathUtils.Rect R;
  player_zone : MathUtils.Rect R
}.

Record Options : Type := mkOptions {
  opt_maxTouches : option nat;
  opt_touchTimeout : option R;
  opt_touchSensitivity : option R;
  opt_gestureThreshold : option R;
  opt_doubleTapDelay : option R;
  opt_longPressDelay : option R;
  opt_swipeMinDistance : option R;
  opt_pinchThreshold : option R;
  opt_throttleInterval : option R
}.

Definition no_options : Options :=
  mkOptions None None None None None None None None None.

Record t : Type := mk {
  isEnabled : bool;
  destroyed : bool;
  currentMode : string;
  activeTouches : list (TouchKey * TouchObj);   (* a [Map], in insertion order *)
  touchPool : list TouchObj;
  maxTouches : nat;
  touchTimeout : R;
  touchSensitivity : R;
  gestureThreshold : R;
  doubleTapDelay : R;
  longPressDelay : R;
  swipeMinDistance : R;
  pinchThreshold : R;
  throttleInterval : R;
  lastMoveTime : R;
  moveThrottle : bool;
  canvasScale : R;
  canvasOffset : MathUtils.Point R;
  touchZones : Zones;
  lastGesture : option Gesture;
  lastTapTime : R;
  lastTapPosition : option (MathUtils.Point R);
  gestureInProgress : bool;
  customGestures : list string;
  audioFeedbackEnabled : bool;
  reducedMotion : bool;
  assistiveMode : bool;
  eventListeners : list (string * nat);
  mouseDown : bool;
  mouseTouch : option TouchObj;
  orientationTimer : option nat
}.

Definition eta (c : t) : t :=
  mk (isEnabled c) (destroyed c) (currentMode c) (activeTouches c)
     (touchPool c) (maxTouches c) (touchTimeout c) (touchSensitivity c)
     (gestureThreshold c) (doubleTapDelay c) (longPressDelay c)
     (swipeMinDistance c) (pinchThreshold c) (throttleInterval c)
     (lastMoveTime c) (moveThrottle c) (canvasScale c) (canvasOffset c)
     (touchZones c) (lastGesture c) (lastTapTime c) (lastTapPosition c)
     (gestureInProgress c) (customGestures c) (audioFeedbackEnabled c)
     (reducedMotion c) (assistiveMode c) (eventListeners c) (mouseDown c)
     (mouseTouch c) (orientationTimer c).

#[global] Instance set_isEnabled : Setter isEnabled := ltac:(build_setter eta isEnabled).
Arguments set_isEnabled _ _ /.
#[global] Instance set_destroyed : Setter destroyed := ltac:(build_setter eta destroyed).
Arguments set_destroyed _ _ /.
#[global] Instance set_currentMode : Setter currentMode := ltac:(build_setter eta currentMode).
Arguments set_currentMode _ _ /.
#[global] Instance set_activeTouches : Setter activeTouches := ltac:(build_setter eta activeTouches).
Arguments set_activeTouches _ _ /.
#[global] Instance set_touchPool : Setter touchPool := ltac:(build_setter eta touchPool).
Arguments set_touchPool _ _ /.
#[global] Instance set_touchSensitivity : Setter touchSensitivity := ltac:(build_setter eta touchSensitivity).
Arguments set_touchSensitivity _ _ /.
#[global] Instance set_gestureThreshold : Setter gestureThreshold := ltac:(build_setter eta gestureThreshold).
Arguments set_gestureThreshold _ _ /.
#[global] Instance set_doubleTapDelay : Setter doubleTapDelay := ltac:(build_setter eta doubleTapDelay).
Arguments set_doubleTapDelay _ _ /.
#[global] Instance set_swipeMinDistance : Setter swipeMinDistance := ltac:(build_setter eta swipeMinDistance).
Arguments set_swipeMinDistance _ _ /.
#[global] Instance set_lastMoveTime : Setter lastMoveTime := ltac:(build_setter eta lastMoveTime).
Arguments set_lastMoveTime _ _ /.
#[global] Instance set_canvasScale : Setter canvasScale := ltac:(build_setter eta canvasScale).
Arguments set_canvasScale _ _ /.
#[global] Instance set_canvasOffset : Setter canvasOffset := ltac:(build_setter eta canvasOffset).
Arguments set_canvasOffset _ _ /.
#[global] Instance set_touchZones : Setter touchZones := ltac:(build_setter eta touchZones).
Arguments set_touchZones _ _ /.
#[global] Instance set_lastGesture : Setter lastGesture := ltac:(build_setter eta lastGesture).
Arguments set_lastGesture _ _ /.
#[global] Instance set_lastTapTime : Setter lastTapTime := ltac:(build_setter eta lastTapTime).
Arguments set_lastTapTime _ _ /.
#[global] Instance set_lastTapPosition : Setter lastTapPosition := ltac:(build_setter eta lastTapPosition).
Arguments set_lastTapPosition _ _ /.
#[global] Instance set_gestureInProgress : Setter gestureInProgress := ltac:(build_setter eta gestureInProgress).
Arguments set_gestureInProgress _ _ /.
#[global] Instance set_customGestures : Setter customGestures := ltac:(build_setter eta customGestures).
Arguments set_customGestures _ _ /.
#[global] Instance set_audioFeedbackEnabled : Setter audioFeedbackEnabled := ltac:(build_setter eta audioFeedbackEnabled).
Arguments set_audioFeedbackEnabled _ _ /.
#[global] Instance set_reducedMotion : Setter reducedMotion := ltac:(build_setter eta reducedMotion).
Arguments set_reducedMotion _ _ /.
#[global] Instance set_assistiveMode : Setter assistiveMode := ltac:(build_setter eta assistiveMode).
Arguments set_assistiveMode _ _ /.
#[global] Instance set_eventListeners : Setter eventListeners := ltac:(build_setter eta eventListeners).
Arguments set_eventListeners _ _ /.
#[global] Instance set_mouseDown : Setter mouseDown := ltac:(build_setter eta mouseDown).
Arguments set_mouseDown _ _ /.
#[global] Instance set_mouseTouch : Setter mouseTouch := ltac:(build_setter eta mouseTouch).
Arguments set_mouseTouch _ _ /.
#[global] Instance set_orientationTimer : Setter orientationTimer := ltac:(build_setter eta orientationTimer).
Arguments set_orientationTimer _ _ /.

(** The result of a handler: the controller, the player it drives, the fish
    objects, and the callbacks called by the player. *)
Record Out : Type := mkOut {
  self : t;
  player : option Player.t;
  fishes : Fish.Store;
  calls : list (Callback * Player.Event)
}.

(** *** Initialisation *)

Definition _updateCanvasProperties (canvas : Canvas) (c : t) : t :=
  c <| canvasOffset := MathUtils.mkPoint (rect_left canvas) (rect_top canvas) |>
    <| canvasScale :=
         rect_width canvas
         / (if Reqb (canvas_width canvas) 0 then rect_width canvas
            else canvas_width canvas) |>.

(** [player?.x || d]: a missing player, and a coordinate 0, give [d]. *)
Definition player_coordinate (coordinate : option R) (d : R) : R :=
  or_number coordinate d.

Definition _initializeTouchZones (canvas : Canvas)
    (player : option Player.t) : Zones :=
  let width := rect_width canvas in
  let height := rect_height canvas in
  {| casting := MathUtils.mkRect 0 0 width (height * 0.4);
     reeling := MathUtils.mkRect 0 (height * 0.4) width (height * 0.6);
     player_zone :=
       MathUtils.mkRect
         (player_coordinate (option_map Player.x player) (width / 2) - 44)
         (player_coordinate (option_map Player.y player) 50 - 44)
         88 88 |}.

Definition or_nat (v : option nat) (d : nat) : nat :=
  match v with
  | Some O => d
  | Some n => n
  | None => d
  end.

(** [_handleOrientationChange()]: a pending timer is cleared and a new one is
    armed; [timer] is the handle returned by [setTimeout]. *)
Definition _handleOrientationChange (timer : nat) (c : t) : t :=
  c <| orientationTimer := Some timer |>.

(** The body of the constructor, once the canvas is known to be there. *)
Definition build (timer : nat) (options : Options) (canvas : Canvas)
    (player : option Player.t) (gameState : option GameStateView) : t :=
  let maxTouches := or_nat (opt_maxTouches options) 10 in
  let c :=
    {| isEnabled := true;
       destroyed := false;
       currentMode :=
         or_string
           (match gameState with
            | Some g => view_currentMode g
            | None => None
            end) "fishing";
       activeTouches := [];
       touchPool := List.repeat _createTouchObject (maxTouches * 2);
       maxTouches := maxTouches;
       touchTimeout := or_number (opt_touchTimeout options) 5000;
       touchSensitivity := or_number (opt_touchSensitivity options) 1.0;
       gestureThreshold := or_number (opt_gestureThreshold options) 10;
       doubleTapDelay := or_number (opt_doubleTapDelay options) 300;
       longPressDelay := or_number (opt_longPressDelay options) 500;
       swipeMinDistance := or_number (opt_swipeMinDistance options) 50;
       pinchThreshold := or_number (opt_pinchThreshold options) 20;
       throttleInterval := or_number (opt_throttleInterval options) 16;
       lastMoveTime := 0;
       moveThrottle := true;
       canvasScale :=
         rect_width canvas
         / (if Reqb (canvas_width canvas) 0 then rect_width canvas
            else canvas_width canvas);
       canvasOffset := MathUtils.mkPoint (rect_left canvas) (rect_top canvas);
       touchZones := _initializeTouchZones canvas player;
       lastGesture := None;
       lastTapTime := 0;
       lastTapPosition := None;
       gestureInProgress := false;
       customGestures := [];
       audioFeedbackEnabled := false;
       reducedMotion := false;
       assistiveMode := false;
       eventListeners := [];
       mouseDown := false;
       mouseTouch := None;
       orientationTimer := None |} in
  _handleOrientationChange timer c.

(** [new TouchController(options)], for the canvas, the player and the game
    state view found in the options. *)
Definition new (timer : nat) (options : Options) (canvas : option Canvas)
    (player : option Player.t) (gameState : option GameStateView)
    : Completion t :=
  match canvas with
  | None => Throw (Error "TouchController requires a canvas element")
  | Some canvas => Return (build timer options canvas player gameState)
  end.

(** *** Zones *)

Definition getCastingZone (c : t) : MathUtils.Rect R := casting (touchZones c).
Definition getReelingZone (c : t) : MathUtils.Rect R := reeling (touchZones c).

Definition in_zone (zone : MathUtils.Rect R) (x y : R) : bool :=
  Rleb (MathUtils.rx zone) x
  && Rleb x (MathUtils.rx zone + MathUtils.width zone)
  && Rleb (MathUtils.ry zone) y
  && Rleb y (MathUtils.ry zone + MathUtils.height zone).

Definition isInCastingZone (x y : R) (c : t) : bool :=
  in_zone (casting (touchZones c)) x y.

Definition isInReelingZone (x y : R) (c : t) : bool :=
  in_zone (reeling (touchZones c)) x y.

Definition _isInGameArea (canvas : Canvas) (x y : R) : bool :=
  Rleb 0 x && Rleb x (rect_width canvas) && Rleb 0 y && Rleb y (rect_height canvas).

(** *** Pool and map of the tracked touches *)

Definition _getTouchCoordinates (touch : Touch) (c : t) : MathUtils.Point R :=
  MathUtils.mkPoint
    ((clientX touch - MathUtils.x (canvasOffset c)) / canvasScale c)
    ((clientY touch - MathUtils.y (canvasOffset c)) / canvasScale c).

(** [touchPool.pop() || _createTouchObject()], then [reset()] *)
Definition _getTouchFromPool (c : t) : TouchObj * t :=
  match List.rev (touchPool c) with
  | touch :: rest => (reset_touch touch, c <| touchPool := List.rev rest |>)
  | [] => (reset_touch _createTouchObject, c)
  end.

Definition _returnTouchToPool (touch : TouchObj) (c : t) : t :=
  if (List.length (touchPool c) <? maxTouches c * 2)%nat then
    c <| touchPool ::= fun l => (l ++ [touch])%list |>
  else c.

Fixpoint map_get (key : TouchKey) (m : list (TouchKey * TouchObj))
    : option TouchObj :=
  match m with
  | [] => None
  | (k, v) :: m' => if TouchKey_eqb k key then Some v else map_get key m'
  end.

Fixpoint map_set (key : TouchKey) (value : TouchObj)
    (m : list (TouchKey * TouchObj)) : list (TouchKey * TouchObj) :=
  match m with
  | [] => [(key, value)]
  | (k, v) :: m' =>
      if TouchKey_eqb k key then (k, value) :: m'
      else (k, v) :: map_set key value m'
  end.

Definition map_delete (key : TouchKey) (m : list (TouchKey * TouchObj))
    : list (TouchKey * TouchObj) :=
  List.filter (fun kv => negb (TouchKey_eqb (fst kv) key)) m.

(** [_setupLongPressDetection]: [timer] is the handle of the armed timer. *)
Definition _setupLongPressDetection (timer : nat) (touchObj : TouchObj)
    : TouchObj :=
  mkTouchObj (id touchObj) (startX touchObj) (startY touchObj)
             (currentX touchObj) (currentY touchObj) (previousX touchObj)
             (previousY touchObj) (deltaX touchObj) (deltaY touchObj)
             (startTime touchObj) (lastMoveTime_ touchObj) (isActive touchObj)
             (Some timer).

(** *** Touch start *)

Definition paused (gameState : option GameStateView) : bool :=
  match gameState with
  | Some g => view_isPaused g
  | None => false
  end.

(** The loop over [event.changedTouches]; [k] counts the timers armed. *)
Fixpoint touchStart_loop (currentTime : R) (timer : nat -> nat) (k : nat)
    (canvas : Canvas) (touches : list Touch) (c : t) : t :=
  match touches with
  | [] => c
  | touch :: touches' =>
      if (maxTouches c <=? List.length (activeTouches c))%nat then c
      else
        let coordinates := _getTouchCoordinates touch c in
        if negb (_isInGameArea canvas (MathUtils.x coordinates)
                               (MathUtils.y coordinates))
        then touchStart_loop currentTime timer k canvas touches' c
        else
          let '(touchObj, c) := _getTouchFromPool c in
          let touchObj :=
            mkTouchObj (Some (TouchIdentifier (identifier touch)))
                       (MathUtils.x coordinates) (MathUtils.y coordinates)
                       (MathUtils.x coordinates) (MathUtils.y coordinates)
                       (previousX touchObj) (previousY touchObj)
                       (deltaX touchObj) (deltaY touchObj)
                       currentTime currentTime true
                       (longPressTimer touchObj) in
          let touchObj := _setupLongPressDetection (timer k) touchObj in
          let c := c <| activeTouches ::=
                     map_set (TouchIdentifier (identifier touch)) touchObj |> in
          touchStart_loop currentTime timer (S k) canvas touches' c
  end.

Definition _handleTouchStart (now : R) (timer : nat -> nat)
    (gameState : option GameStateView) (canvas : Canvas)
    (changedTouches : list Touch) (c : t) : t :=
  if destroyed c || negb (isEnabled c) then c
  else if paused gameState then c
  else
    let currentTime := now in
    let c := touchStart_loop currentTime timer 0 canvas changedTouches c in
    c <| currentMode :=
           or_string
             (match gameState with
              | Some g => view_currentMode g
              | None => None
              end) "fishing" |>.

(** *** Touch move *)

Definition _processTouchMove (touchObj : TouchObj) (c : t) : t :=
  let distance :=
    sqrt (deltaX touchObj * deltaX touchObj + deltaY touchObj * deltaY touchObj) in
  if Rltb (gestureThreshold c) distance then c <| gestureInProgress := true |>
  else c.

Definition _handlePinch (now : R) (scale : R) (center : MathUtils.Point R)
    (c : t) : t :=
  c <| lastGesture := Some (Pinch scale center now) |>.

Definition _handleMultiTouchGestures (now : R) (c : t) : t :=
  match activeTouches c with
  | [(_, touch1); (_, touch2)] =>
      let currentDistance :=
        sqrt ((currentX touch2 - currentX touch1) * (currentX touch2 - currentX touch1)
              + (currentY touch2 - currentY touch1) * (currentY touch2 - currentY touch1)) in
      let initialDistance :=
        sqrt ((startX touch2 - startX touch1) * (startX touch2 - startX touch1)
              + (startY touch2 - startY touch1) * (startY touch2 - startY touch1)) in
      let scale := currentDistance / initialDistance in
      let center :=
        MathUtils.mkPoint ((currentX touch1 + currentX touch2) / 2)
                          ((currentY touch1 + currentY touch2) / 2) in
      if Rltb 0.1 (Rabs (scale - 1)) then _handlePinch now scale center c
      else c
  | _ => c
  end.

Fixpoint touchMove_loop (currentTime : R) (touches : list Touch) (c : t) : t :=
  match touches with
  | [] => c
  | touch :: touches' =>
      match map_get (TouchIdentifier (identifier touch)) (activeTouches c) with
      | None => touchMove_loop currentTime touches' c
      | Some touchObj =>
          let coordinates := _getTouchCoordinates touch c in
          let touchObj :=
            mkTouchObj (id touchObj) (startX touchObj) (startY touchObj)
                       (MathUtils.x coordinates) (MathUtils.y coordinates)
                       (currentX touchObj) (currentY touchObj)
                       (MathUtils.x coordinates - startX touchObj)
                       (MathUtils.y coordinates - startY touchObj)
                       (startTime touchObj) currentTime (isActive touchObj)
                       (longPressTimer touchObj) in
          let c := c <| activeTouches ::=
                     map_set (TouchIdentifier (identifier touch)) touchObj |> in
          let c := _processTouchMove touchObj c in
          touchMove_loop currentTime touches' c
      end
  end.

Definition _handleTouchMove (now : R) (gameState : option GameStateView)
    (changedTouches : list Touch) (c : t) : t :=
  if destroyed c || negb (isEnabled c) then c
  else if paused gameState then c
  else
    let currentTime := now in
    if moveThrottle c && Rltb (currentTime - lastMoveTime c) (throttleInterval c)
    then c
    else
      let c := c <| lastMoveTime := currentTime |> in
      let c := touchMove_loop currentTime changedTouches c in
      if (2 <=? List.length (activeTouches c))%nat
      then _handleMultiTouchGestures now c
      else c.

(** *** Gesture recognition *)

Definition _getSwipeDirection (deltaX deltaY : R) : string :=
  let absDeltaX := Rabs deltaX in
  let absDeltaY := Rabs deltaY in
  if Rltb absDeltaY absDeltaX then
    (if Rltb 0 deltaX then "right" else "left")
  else
    (if Rltb 0 deltaY then "down" else "up").

(** The auto-reeling of a tap in the reeling zone is disabled in the source
    (the call of [player.handleTouchReel()] is commented out): after the
    guard the method has no statement left. *)
Definition _handleGameTap (position : MathUtils.Point R) (c : t)
    (player : option Player.t) (st : Fish.Store) : Out :=
  match player with
  | None => mkOut c player st []
  | Some _ =>
      if negb (String.eqb (currentMode c) "fishing") then mkOut c player st []
      else mkOut c player st []
  end.

Definition _handleGameSwipe (random : R) (swipeData : SwipeData) (c : t)
    (player : option Player.t) (st : Fish.Store) : Out :=
  match player with
  | None => mkOut c player st []
  | Some p =>
      if negb (String.eqb (currentMode c) "fishing") then mkOut c player st []
      else if isInCastingZone (swipe_startX swipeData) (swipe_startY swipeData) c
              && Rleb (swipeMinDistance c) (swipe_distance swipeData) then
        let startPos :=
          MathUtils.mkPoint (swipe_startX swipeData) (swipe_startY swipeData) in
        let endPos :=
          MathUtils.mkPoint (swipe_endX swipeData) (swipe_endY swipeData) in
        let o := Player.handleTouchCast random startPos endPos p st in
        mkOut c (Some (Player.player o)) (Player.fishes o) (Player.calls o)
      else mkOut c player st []
  end.

Definition _handleDoubleTap (now : R) (position : MathUtils.Point R)
    (c : t) : t :=
  c <| lastGesture := Some (DoubleTap position now) |>.

Definition _handleTap (now : R) (position : MathUtils.Point R) (c : t)
    (player : option Player.t) (st : Fish.Store) : Out :=
  let currentTime := now in
  let isDoubleTap :=
    negb (Reqb (lastTapTime c) 0)
    && Rltb (currentTime - lastTapTime c) (doubleTapDelay c)
    && match lastTapPosition c with
       | Some last =>
           Rltb (Rabs (MathUtils.x position - MathUtils.x last)) (gestureThreshold c)
           && Rltb (Rabs (MathUtils.y position - MathUtils.y last)) (gestureThreshold c)
       | None => false
       end in
  if isDoubleTap then
    let c := _handleDoubleTap now position c in
    mkOut (c <| lastTapTime := 0 |>) player st []
  else
    let c := c <| lastTapTime := currentTime |>
               <| lastTapPosition := Some position |> in
    let o := _handleGameTap position c player st in
    mkOut ((self o) <| lastGesture := Some (Tap position currentTime) |>)
          (TouchController.player o) (fishes o) (calls o).

Definition _handleSwipe (now random : R) (swipeData : SwipeData) (c : t)
    (player : option Player.t) (st : Fish.Store) : Out :=
  let o := _handleGameSwipe random swipeData c player st in
  mkOut ((self o) <| lastGesture := Some (Swipe swipeData now) |>)
        (TouchController.player o) (fishes o) (calls o).

Definition _recognizeGesture (now random : R) (touchObj : TouchObj)
    (duration distance : R) (c : t) (player : option Player.t)
    (st : Fish.Store) : Out :=
  if Rltb distance (gestureThreshold c) && Rltb duration (longPressDelay c) then
    _handleTap now (MathUtils.mkPoint (currentX touchObj) (currentY touchObj))
               c player st
  else if Rleb (swipeMinDistance c) distance then
    _handleSwipe now random
      (mkSwipe (startX touchObj) (startY touchObj)
               (currentX touchObj) (currentY touchObj)
               distance duration
               (_getSwipeDirection (deltaX touchObj) (deltaY touchObj))
               (distance / duration))
      c player st
  else mkOut c player st [].

(** *** Touch end and cancel *)

Fixpoint touchEnd_loop (currentTime : R) (random : nat -> R) (k : nat)
    (touches : list Touch) (c : t) (player : option Player.t)
    (st : Fish.Store) : Out :=
  match touches with
  | [] => mkOut c player st []
  | touch :: touches' =>
      match map_get (TouchIdentifier (identifier touch)) (activeTouches c) with
      | None => touchEnd_loop currentTime random k touches' c player st
      | Some touchObj =>
          let duration := currentTime - startTime touchObj in
          let distance :=
            sqrt (deltaX touchObj * deltaX touchObj
                  + deltaY touchObj * deltaY touchObj) in
          let o := _recognizeGesture currentTime (random k) touchObj
                     duration distance c player st in
          let c := _returnTouchToPool touchObj (self o) in
          let c := c <| activeTouches ::=
                     map_delete (TouchIdentifier (identifier touch)) |> in
          let o' := touchEnd_loop currentTime random (S k) touches' c
                      (TouchController.player o) (fishes o) in
          mkOut (self o') (TouchController.player o') (fishes o')
                (calls o ++ calls o')%list
      end
  end.

Definition _handleTouchEnd (now : R) (random : nat -> R)
    (changedTouches : list Touch) (c : t) (player : option Player.t)
    (st : Fish.Store) : Out :=
  if destroyed c || negb (isEnabled c) then mkOut c player st []
  else touchEnd_loop now random 0 changedTouches c player st.

Fixpoint touchCancel_loop (touches : list Touch) (c : t) : t :=
  match touches with
  | [] => c
  | touch :: touches' =>
      match map_get (TouchIdentifier (identifier touch)) (activeTouches c) with
      | Some touchObj =>
          let c := _returnTouchToPool touchObj c in
          let c := c <| activeTouches ::=
                     map_delete (TouchIdentifier (identifier touch)) |> in
          touchCancel_loop touches' c
      | None => touchCancel_loop touches' c
      end
  end.

Definition _handleTouchCancel (changedTouches : list Touch) (c : t) : t :=
  if destroyed c then c
  else touchCancel_loop changedTouches c.

(** *** Configuration *)

Definition adaptToScreenSize (screenWidth : R) (canvas : Canvas)
    (player : option Player.t) (c : t) : t :=
  let c :=
    if Rltb screenWidth 375 then
      c <| gestureThreshold ::= fun v => Rmax 5 (v * 0.7) |>
        <| swipeMinDistance ::= fun v => Rmax 30 (v * 0.8) |>
    else c in
  c <| touchZones := _initializeTouchZones canvas player |>.

Definition enableAudioFeedback (enabled : bool) (c : t) : t :=
  c <| audioFeedbackEnabled := enabled |>.

Definition setReducedMotion (reduced : bool) (c : t) : t :=
  let c := c <| reducedMotion := reduced |> in
  if reduced then c <| gestureThreshold ::= fun v => v * 1.5 |> else c.

Definition enableAssistiveMode (enabled : bool) (c : t) : t :=
  let c := c <| assistiveMode := enabled |> in
  if enabled then c <| doubleTapDelay ::= fun v => v * 1.5 |> else c.

Definition setGestureThreshold (threshold : R) (c : t) : Completion t :=
  if Rleb threshold 0 then Throw (Error "Gesture threshold must be positive")
  else Return (c <| gestureThreshold := threshold |>).

Definition setSensitivity (sensitivity : R) (c : t) : Completion t :=
  if Rltb sensitivity 0 then Throw (Error "Touch sensitivity must be non-negative")
  else Return (c <| touchSensitivity := sensitivity |>).

Definition addCustomGesture (name : string) (c : t) : t :=
  c <| customGestures ::= fun l => (l ++ [name])%list |>.

Definition on (event : string) (callback : nat) (c : t) : t :=
  c <| eventListeners ::= fun l => (l ++ [(event, callback)])%list |>.

Definition off (event : string) (callback : nat) (c : t) : t :=
  c <| eventListeners ::= Fish.remove_listener event callback |>.

(** *** Destroy *)

Definition _clearAllTimers (c : t) : t :=
  let c := c <| orientationTimer := None |> in
  c <| activeTouches ::=
         List.map (fun kv =>
           (fst kv,
            let touch := snd kv in
            mkTouchObj (id touch) (startX touch) (startY touch)
                       (currentX touch) (currentY touch) (previousX touch)
                       (previousY touch) (deltaX touch) (deltaY touch)
                       (startTime touch) (lastMoveTime_ touch) (isActive touch)
                       None)) |>.

Definition destroy (c : t) : t :=
  let c := c <| destroyed := true |> <| isEnabled := false |> in
  let c := c <| mouseDown := false |> in
  let c := match mouseTouch c with
           | Some touch => (_returnTouchToPool touch c) <| mouseTouch := None |>
           | None => c
           end in
  let c := fold_left (fun c kv => _returnTouchToPool (snd kv) c)
                     (activeTouches c) c in
  let c := c <| activeTouches := [] |> in
  let c := c <| touchPool := [] |> in
  let c := c <| eventListeners := [] |> in
  let c := c <| customGestures := [] |> in
  _clearAllTimers c.

End TouchController.

(** ** Game

    The orchestrator owns the player, the touch controller and the fish
    objects.  The user interface, the audio manager, the canvas drawing and
    the local storage are collaborators of the host; the callbacks registered
    on the game are external code and are not run. *)

Module Game.

Local Open Scope R_scope.
Local Open Scope string_scope.

Record Stats : Type := mkStats {
  score : R;
  fishCaught : nat;
  casts : nat;
  accuracy : R;
  playTime : R;
  bestScore : R
}.

Record Options : Type := mkOptions {
  opt_width : option R;
  opt_height : option R;
  opt_targetFPS : option R;
  opt_maxFish : option nat;
  opt_skipDependencies : bool
}.

Definition no_options : Options := mkOptions None None None None false.

Record t : Type := mk {
  width : R;
  height : R;
  gameState : string;
  isRunning : bool;
  isPaused : bool;
  destroyed : bool;
  targetFPS : R;
  maxDeltaTime : R;
  frameCount : nat;
  currentFPS : R;
  lastFrameTime : R;
  fpsHistory : list R;
  animationFrameId : option nat;
  stats : Stats;
  maxFish : nat;
  fishPool : list Fish.FishId;
  activeFish : list Fish.FishId;
  fishSpawnRate : R;
  lastFishSpawn : R;
  fishSpawnInterval : R;
  difficulty : string;
  comboCount : nat;
  comboMultiplier : R;
  comboTimeout : R;
  lastComboTime : R;
  activePowerUps : list Player.PowerUp;
  performanceMode : string;
  lowFPSThreshold : R;
  lowFPSCount : nat;
  adaptiveQuality : bool;
  eventListeners : list (string * nat);
  player : option Player.t;
  touchController : option TouchController.t;
  fishes : Fish.Store
}.

Definition eta (g : t) : t :=
  mk (width g) (height g) (gameState g) (isRunning g) (isPaused g)
     (destroyed g) (targetFPS g) (maxDeltaTime g) (frameCount g)
     (currentFPS g) (lastFrameTime g) (fpsHistory g) (animationFrameId g)
     (stats g) (maxFish g) (fishPool g) (activeFish g) (fishSpawnRate g)
     (lastFishSpawn g) (fishSpawnInterval g) (difficulty g) (comboCount g)
     (comboMultiplier g) (comboTimeout g) (lastComboTime g)
     (activePowerUps g) (performanceMode g) (lowFPSThreshold g)
     (lowFPSCount g) (adaptiveQuality g) (eventListeners g) (player g)
     (touchController g) (fishes g).

#[global] Instance set_gameState : Setter gameState := ltac:(build_setter eta gameState).
Arguments set_gameState _ _ /.
#[global] Instance set_isRunning : Setter isRunning := ltac:(build_setter eta isRunning).
Arguments set_isRunning _ _ /.
#[global] Instance set_isPaused : Setter isPaused := ltac:(build_setter eta isPaused).
Arguments set_isPaused _ _ /.
#[global] Instance set_destroyed : Setter destroyed := ltac:(build_setter eta destroyed).
Arguments set_destroyed _ _ /.
#[global] Instance set_targetFPS : Setter targetFPS := ltac:(build_setter eta targetFPS).
Arguments set_targetFPS _ _ /.
#[global] Instance set_frameCount : Setter frameCount := ltac:(build_setter eta frameCount).
Arguments set_frameCount _ _ /.
#[global] Instance set_currentFPS : Setter currentFPS := ltac:(build_setter eta currentFPS).
Arguments set_currentFPS _ _ /.
#[global] Instance set_lastFrameTime : Setter lastFrameTime := ltac:(build_setter eta lastFrameTime).
Arguments set_lastFrameTime _ _ /.
#[global] Instance set_fpsHistory : Setter fpsHistory := ltac:(build_setter eta fpsHistory).
Arguments set_fpsHistory _ _ /.
#[global] Instance set_animationFrameId : Setter animationFrameId := ltac:(build_setter eta animationFrameId).
Arguments set_animationFrameId _ _ /.
#[global] Instance set_stats : Setter stats := ltac:(build_setter eta stats).
Arguments set_stats _ _ /.
#[global] Instance set_maxFish : Setter maxFish := ltac:(build_setter eta maxFish).
Arguments set_maxFish _ _ /.
#[global] Instance set_fishPool : Setter fishPool := ltac:(build_setter eta fishPool).
Arguments set_fishPool _ _ /.
#[global] Instance set_activeFish : Setter activeFish := ltac:(build_setter eta activeFish).
Arguments set_activeFish _ _ /.
#[global] Instance set_fishSpawnRate : Setter fishSpawnRate := ltac:(build_setter eta fishSpawnRate).
Arguments set_fishSpawnRate _ _ /.
#[global] Instance set_lastFishSpawn : Setter lastFishSpawn := ltac:(build_setter eta lastFishSpawn).
Arguments set_lastFishSpawn _ _ /.
#[global] Instance set_difficulty : Setter difficulty := ltac:(build_setter eta difficulty).
Arguments set_difficulty _ _ /.
#[global] Instance set_comboCount : Setter comboCount := ltac:(build_setter eta comboCount).
Arguments set_comboCount _ _ /.
#[global] Instance set_comboMultiplier : Setter comboMultiplier := ltac:(build_setter eta comboMultiplier).
Arguments set_comboMultiplier _ _ /.
#[global] Instance set_lastComboTime : Setter lastComboTime := ltac:(build_setter eta lastComboTime).
Arguments set_lastComboTime _ _ /.
#[global] Instance set_activePowerUps : Setter activePowerUps := ltac:(build_setter eta activePowerUps).
Arguments set_activePowerUps _ _ /.
#[global] Instance set_lowFPSCount : Setter lowFPSCount := ltac:(build_setter eta lowFPSCount).
Arguments set_lowFPSCount _ _ /.
#[global] Instance set_eventListeners : Setter eventListeners := ltac:(build_setter eta eventListeners).
Arguments set_eventListeners _ _ /.
#[global] Instance set_player : Setter player := ltac:(build_setter eta player).
Arguments set_player _ _ /.
#[global] Instance set_touchController : Setter touchController := ltac:(build_setter eta touchController).
Arguments set_touchController _ _ /.
#[global] Instance set_fishes : Setter fishes := ltac:(build_setter eta fishes).
Arguments set_fishes _ _ /.

Definition eta_stats (s : Stats) : Stats :=
  mkStats (score s) (fishCaught s) (casts s) (accuracy s) (playTime s)
          (bestScore s).

#[global] Instance set_score : Setter score := ltac:(build_setter eta_stats score).
Arguments set_score _ _ /.
#[global] Instance set_fishCaught : Setter fishCaught := ltac:(build_setter eta_stats fishCaught).
Arguments set_fishCaught _ _ /.
#[global] Instance set_casts : Setter casts := ltac:(build_setter eta_stats casts).
Arguments set_casts _ _ /.
#[global] Instance set_accuracy : Setter accuracy := ltac:(build_setter eta_stats accuracy).
Arguments set_accuracy _ _ /.
#[global] Instance set_playTime : Setter playTime := ltac:(build_setter eta_stats playTime).
Arguments set_playTime _ _ /.
#[global] Instance set_bestScore : Setter bestScore := ltac:(build_setter eta_stats bestScore).
Arguments set_bestScore _ _ /.

(** What the touch controller reads from the game, its [gameState] object:
    the game has an [isPaused] property and no [currentMode]. *)
Definition view (g : t) : TouchController.GameStateView :=
  TouchController.mkView (isPaused g) None.

(** The touch controller of the game with [isEnabled] set. *)
Definition enable_touch (enabled : bool) (g : t) : t :=
  g <| touchController ::=
         option_map (fun c => c <| TouchController.isEnabled := enabled |>) |>.

(** *** Construction *)

(** The options of the pooled fish: [{x: -100, y: -100, isActive: false}];
    the constructor of [Fish] does not read [isActive]. *)
Definition pool_fish_options : Fish.Options :=
  Fish.mkOptions (Some (-100)) (Some (-100)) None None None None None None
                 None None None None None.

(** The callbacks that the constructor registers on the player. *)
Definition player_listeners : list (string * Callback) :=
  [("castStarted", Game_handlePlayerCast);
   ("fishCaught", Game_handleFishCaught);
   ("reelingComplete", Game_handleReelingComplete)].

(** [_createGameEntities()]: the player with the three handlers of the game
    registered, and the touch controller that drives it. *)
Definition _createPlayer (width height : R) : Player.t :=
  let p :=
    Player.new
      (Player.mkOptions (Some (width / 2)) (Some 50) None None None
         None None (Some (height * 0.3)) None None None None None
         None None None None) in
  let p := Player.on "castStarted" Game_handlePlayerCast p in
  let p := Player.on "fishCaught" Game_handleFishCaught p in
  Player.on "reelingComplete" Game_handleReelingComplete p.

Definition _createTouchController (timer : nat)
    (canvas : TouchController.Canvas) (player : Player.t)
    : TouchController.t :=
  let c :=
    TouchController.build timer TouchController.no_options canvas
      (Some player) (Some (TouchController.mkView false None)) in
  let c := TouchController.on "touchStart" 0%nat c in
  let c := TouchController.on "gesture" 1%nat c in
  TouchController.on "orientationChange" 2%nat c.

(** The body of the constructor, once the canvas is known to be there.
    [storedBestScore] is the number read from the local storage,
    [random id k] the [k]-th draw of the constructor of the fish [id], and
    [timer] the handle of the timer armed by the touch controller.  The pool
    holds the references [0] to [2 * maxFish - 1]. *)
Definition build (random : nat -> nat -> R) (timer : nat) (options : Options)
    (canvas : TouchController.Canvas) (storedBestScore : R) : t :=
  let width := or_number (opt_width options) 375 in
  let height := or_number (opt_height options) 667 in
  let maxFish := TouchController.or_nat (opt_maxFish options) 10 in
  let player :=
    if opt_skipDependencies options then None
    else Some (_createPlayer width height) in
  {| width := width;
     height := height;
     gameState := "menu";
     isRunning := false;
     isPaused := false;
     destroyed := false;
     targetFPS := or_number (opt_targetFPS options) 60;
     maxDeltaTime := 1000 / 30;
     frameCount := 0;
     currentFPS := 0;
     lastFrameTime := 0;
     fpsHistory := [];
     animationFrameId := None;
     stats := mkStats 0 0 0 0 0 storedBestScore;
     maxFish := maxFish;
     fishPool := List.seq 0 (maxFish * 2);
     activeFish := [];
     fishSpawnRate := 1.0;
     lastFishSpawn := 0;
     fishSpawnInterval := 2000;
     difficulty := "normal";
     comboCount := 0;
     comboMultiplier := 1.0;
     comboTimeout := 5000;
     lastComboTime := 0;
     activePowerUps := [];
     performanceMode := "normal";
     lowFPSThreshold := 45;
     lowFPSCount := 0;
     adaptiveQuality := true;
     eventListeners := [];
     player := player;
     touchController :=
       option_map (_createTouchController timer canvas) player;
     fishes := fun id => Fish.new (random id) pool_fish_options |}.

(** [new Game(options)]: a missing canvas element is a thrown error. *)
Definition new (random : nat -> nat -> R) (timer : nat) (options : Options)
    (canvas : option TouchController.Canvas) (storedBestScore : R)
    : Completion t :=
  match canvas with
  | None => Throw (Error "Canvas element not found")
  | Some canvas => Return (build random timer options canvas storedBestScore)
  end.

(** *** Fish management *)

Definition on_fish (id : Fish.FishId) (f : Fish.t -> Fish.t) (g : t) : t :=
  g <| fishes ::= fun st => Fish.upd st id (f (st id)) |>.

Definition _getFishFromPool (g : t) : option Fish.FishId * t :=
  match List.rev (fishPool g) with
  | fish :: rest => (Some fish, g <| fishPool := List.rev rest |>)
  | [] => (None, g)
  end.

(** [random1] chooses the side, [random2] the depth. *)
Definition _spawnFish (random1 random2 : R) (g : t) : t :=
  if (maxFish g <=? List.length (activeFish g))%nat then g
  else
    match _getFishFromPool g with
    | (None, g) => g
    | (Some fish, g) =>
        let side := if Rltb random1 0.5 then "left" else "right" in
        let x := if String.eqb side "left" then -50 else width g + 50 in
        let y := MathUtils.randomRange random2 (height g * 0.3) (height g - 50) in
        let g := on_fish fish (Fish.setPosition x y) g in
        let g := on_fish fish (fun f => f <| Fish.isActive := true |>) g in
        let g := on_fish fish Fish.reset g in
        g <| activeFish ::= fun l => (l ++ [fish])%list |>
    end.

Definition _returnFishToPool (fish : Fish.FishId) (g : t) : t :=
  let g := on_fish fish (fun f => f <| Fish.isActive := false |>) g in
  let g := on_fish fish (Fish.setPosition (-100) (-100)) g in
  let g :=
    match Player.indexOf fish (activeFish g) with
    | Some index => g <| activeFish ::= Player.splice1 index |>
    | None => g
    end in
  if (List.length (fishPool g) <? maxFish g * 2)%nat then
    g <| fishPool ::= fun l => (l ++ [fish])%list |>
  else g.

(** [activeFish.forEach(fish => fish.update(deltaTime))]; the [k]-th fish
    draws [random (2 * k)] and [random (2 * k + 1)]. *)
Fixpoint updateFish_loop (random : nat -> R) (deltaTime : R) (k : nat)
    (fish : list Fish.FishId) (st : Fish.Store) : Fish.Store :=
  match fish with
  | [] => st
  | id :: fish' =>
      updateFish_loop random deltaTime (S k) fish'
        (Fish.upd st id
           (Fish.update st id (random (2 * k)%nat) (random (2 * k + 1)%nat)
                        deltaTime (st id)))
  end.

Definition _updateFish (random : nat -> R) (deltaTime : R) (g : t) : t :=
  g <| fishes ::= updateFish_loop random deltaTime 0 (activeFish g) |>.

Definition _handleFishSpawning (random : nat -> R) (deltaTime : R) (g : t) : t :=
  let g := g <| lastFishSpawn ::= fun v => v + deltaTime |> in
  let spawnInterval := fishSpawnInterval g / fishSpawnRate g in
  if Rleb spawnInterval (lastFishSpawn g) then
    (_spawnFish (random 0%nat) (random 1%nat) g) <| lastFishSpawn := 0 |>
  else g.

(** The [for] loop of [_cleanupFish], from the index [i - 1] down to 0.  The
    index read is always inside the list: a pass removes at most one fish,
    at or before the index. *)
Fixpoint cleanup_loop (i : nat) (g : t) : t :=
  match i with
  | O => g
  | S i' =>
      match List.nth_error (activeFish g) i' with
      | Some fish =>
          let f := fishes g fish in
          if negb (Fish.isActive f)
             || Rltb (Fish.x f) (-100)
             || Rltb (width g + 100) (Fish.x f)
          then cleanup_loop i' (_returnFishToPool fish g)
          else cleanup_loop i' g
      | None => cleanup_loop i' g
      end
  end.

Definition _cleanupFish (g : t) : t :=
  cleanup_loop (List.length (activeFish g)) g.

(** *** Score and combo *)

Definition _updateScore (points : R) (g : t) : t :=
  let finalScore := MathUtils.Math_floor (points * comboMultiplier g) in
  g <| stats ::= fun s => s <| score ::= fun v => v + finalScore |> |>.

Definition _updateCombo (now : R) (g : t) : t :=
  let g := g <| comboCount ::= S |> in
  let g := g <| lastComboTime := now |> in
  let g := g <| comboMultiplier := 1.0 + (INR (comboCount g) - 1) * 0.1 |> in
  g <| comboMultiplier ::= fun m => Rmin m 3.0 |>.

Definition _updateGameMechanics (now : R) (deltaTime : R) (g : t) : t :=
  if (0 <? comboCount g)%nat && Rltb (comboTimeout g) (now - lastComboTime g)
  then g <| comboCount := 0%nat |> <| comboMultiplier := 1.0 |>
  else g.

Definition _updateDifficulty (g : t) : t :=
  let minutes := playTime (stats g) / 60000 in
  if Rltb 5 minutes then
    g <| difficulty := "hard" |> <| fishSpawnRate := 1.8 |>
  else if Rltb 2 minutes then
    g <| difficulty := "medium" |> <| fishSpawnRate := 1.4 |>
  else
    g <| difficulty := "normal" |> <| fishSpawnRate := 1.0 |>.

Definition _calculateAccuracy (g : t) : R :=
  if (0 <? casts (stats g))%nat
  then INR (fishCaught (stats g)) / INR (casts (stats g)) * 100
  else 0.

Definition _applyPowerUp (now : R) (powerUp : Player.PowerUp) (g : t) : t :=
  let powerUp :=
    Player.mkPowerUp (Player.type powerUp) (Player.effect powerUp)
                     (Player.duration powerUp) now in
  g <| activePowerUps ::= fun l => (l ++ [powerUp])%list |>.

Definition _updatePowerUps (now : R) (deltaTime : R) (g : t) : t :=
  let currentTime := now in
  g <| activePowerUps ::=
         List.filter (fun powerUp =>
           negb (Rleb (Player.duration powerUp)
                      (currentTime - Player.startTime powerUp))) |>.

Definition _updateLOD (g : t) : t :=
  fold_left
    (fun g fish =>
       let f := fishes g fish in
       let distance :=
         MathUtils.distance
           (Some (MathUtils.mkPoint (Fish.x f) (Fish.y f)))
           (Some (MathUtils.mkPoint (width g / 2) (height g / 2))) in
       on_fish fish (Fish.setLOD distance) g)
    (activeFish g) g.

Definition _adaptQuality (g : t) : t :=
  if (5 <? maxFish g)%nat then g <| maxFish ::= fun n => (n - 2)%nat |>
  else g.

Definition _optimizeForBattery (g : t) : t :=
  g <| targetFPS ::= fun v => Rmin v 30 |>
    <| maxFish ::= fun n => Nat.min n 6 |>.

(** *** Handlers of the player events *)

Definition _handlePlayerCast (g : t) : t :=
  g <| stats ::= fun s => s <| casts ::= S |> |>.

Definition _handleFishCaught (now : R) (fish : Fish.FishId) (score : R) (g : t) : t :=
  let g := g <| stats ::= fun s => s <| fishCaught ::= S |> |> in
  let g := _updateScore score g in
  let g := _updateCombo now g in
  _returnFishToPool fish g.

Definition _handleReelingComplete (g : t) : t :=
  g <| stats ::= fun s => s <| accuracy := _calculateAccuracy g |> |>.

(** A call made by the player.  The game pairs each of its handlers with
    one event; a call of an external callback does not change the game. *)
Definition dispatch (now : R) (g : t) (call : Callback * Player.Event) : t :=
  match call with
  | (Game_handlePlayerCast, Player.EvCastStarted _ _ _) => _handlePlayerCast g
  | (Game_handleFishCaught, Player.EvFishCaught fish score) =>
      _handleFishCaught now fish score g
  | (Game_handleReelingComplete, Player.EvReelingComplete _ _) =>
      _handleReelingComplete g
  | _ => g
  end.

(** The game after a method of its player has run: the player and the fish
    objects are the ones the method left, and the handlers called by its
    events have run. *)
Definition after_player (now : R) (o : Player.Out) (g : t) : t :=
  fold_left (dispatch now) (Player.calls o)
    (g <| player := Some (Player.player o) |> <| fishes := Player.fishes o |>).

(** [player.catchFish(fish)] for the player of the game. *)
Definition player_catchFish (now random : R) (fish : Fish.FishId) (g : t) : t :=
  match player g with
  | Some p => after_player now (Player.catchFish random (Some fish) p (fishes g)) g
  | None => g
  end.

(** The [forEach] of [_checkFishCollisions]: the indices 0 to [n - 1] of
    the list as it is when the index is reached. *)
Fixpoint collisions_loop (now : R) (random : nat -> R) (n k : nat) (g : t) : t :=
  match n with
  | O => g
  | S n' =>
      let g :=
        match List.nth_error (activeFish g) k, player g with
        | Some fish, Some p =>
            if Fish.isActive (fishes g fish)
               && Player.checkFishCollision (Some fish) p (fishes g)
            then player_catchFish now (random k) fish g
            else g
        | _, _ => g
        end in
      collisions_loop now random n' (S k) g
  end.

Definition _checkFishCollisions (now : R) (random : nat -> R) (g : t) : t :=
  match player g with
  | None => g
  | Some p =>
      if negb (Player.isCasting p) then g
      else collisions_loop now random (List.length (activeFish g)) 0 g
  end.

(** *** Update *)

(** [update(deltaTime)].  [random 0] feeds the update of the player,
    [random 1] the updates of the fish, [random 2] the catches and
    [random 3] the spawn. *)
Definition update (random : nat -> nat -> R) (now : R) (deltaTime : R)
    (g : t) : t :=
  if destroyed g then g
  else
    let g := g <| stats ::= fun s => s <| playTime ::= fun v => v + deltaTime |> |> in
    let g :=
      match player g with
      | Some p =>
          after_player now
            (Player.update (random 0%nat) now deltaTime p (fishes g)) g
      | None => g
      end in
    let g := _updateFish (random 1%nat) deltaTime g in
    let g := _updateGameMechanics now deltaTime g in
    let g := _updatePowerUps now deltaTime g in
    let g := _checkFishCollisions now (random 2%nat) g in
    let g := _handleFishSpawning (random 3%nat) deltaTime g in
    let g := _updateDifficulty g in
    let g := _updateLOD g in
    _cleanupFish g.

(** *** The loop and the state machine *)

Definition shift (l : list R) : list R := List.tl l.

Definition _updateFPS (deltaTime : R) (g : t) : t :=
  let g := g <| frameCount ::= S |> in
  let g := g <| fpsHistory ::= fun l => (l ++ [1000 / deltaTime])%list |> in
  let g :=
    if (60 <? List.length (fpsHistory g))%nat then g <| fpsHistory ::= shift |>
    else g in
  let g := g <| currentFPS :=
             fold_left Rplus (fpsHistory g) 0 / INR (List.length (fpsHistory g)) |> in
  if Rltb (currentFPS g) (lowFPSThreshold g) then
    let g := g <| lowFPSCount ::= S |> in
    if (60 <? lowFPSCount g)%nat && adaptiveQuality g then _adaptQuality g
    else g
  else g <| lowFPSCount := 0%nat |>.

(** One call of [_gameLoop(currentTime)]; [handle] is the handle returned
    by [requestAnimationFrame]. *)
Definition _gameLoop (random : nat -> nat -> R) (now : R) (handle : nat)
    (currentTime : R) (g : t) : t :=
  if negb (isRunning g) || destroyed g then g
  else
    let deltaTime := Rmin (currentTime - lastFrameTime g) (maxDeltaTime g) in
    let g := g <| lastFrameTime := currentTime |> in
    let g := _updateFPS deltaTime g in
    let g := if negb (isPaused g) then update random now deltaTime g else g in
    g <| animationFrameId := Some handle |>.

(** [performanceNow] is the value of [performance.now()]. *)
Definition start (random : nat -> nat -> R) (now : R) (handle : nat)
    (performanceNow : R) (g : t) : t :=
  if destroyed g || isRunning g then g
  else
    let g := g <| isRunning := true |>
               <| isPaused := false |>
               <| gameState := "playing" |>
               <| lastFrameTime := performanceNow |> in
    let g := enable_touch true g in
    _gameLoop random now handle performanceNow g.

Definition pause (g : t) : t :=
  if destroyed g || negb (isRunning g) || isPaused g then g
  else
    let g := g <| isPaused := true |> <| gameState := "paused" |> in
    enable_touch false g.

Definition resume (performanceNow : R) (g : t) : t :=
  if destroyed g || negb (isRunning g) || negb (isPaused g) then g
  else
    let g := g <| isPaused := false |>
               <| gameState := "playing" |>
               <| lastFrameTime := performanceNow |> in
    enable_touch true g.

Definition stop (g : t) : t :=
  if destroyed g || negb (isRunning g) then g
  else
    let g := g <| isRunning := false |>
               <| isPaused := false |>
               <| gameState := "stopped" |> in
    let g := g <| animationFrameId := None |> in
    enable_touch false g.

Definition setState (state : string) (g : t) : t := g <| gameState := state |>.

Definition on (event : string) (callback : nat) (g : t) : t :=
  g <| eventListeners ::= fun l => (l ++ [(event, callback)])%list |>.

Definition off (event : string) (callback : nat) (g : t) : t :=
  g <| eventListeners ::= Fish.remove_listener event callback |>.

(** *** Restart

    [activeFish.forEach(fish => this._returnFishToPool(fish))]: the callback
    splices the array that is being walked.  [forEach] visits the indices 0
    to [n - 1], [n] being the length at the start, and skips an index that
    the array no longer has. *)
Fixpoint resetFish_loop (n k : nat) (g : t) : t :=
  match n with
  | O => g
  | S n' =>
      let g :=
        match List.nth_error (activeFish g) k with
        | Some fish => _returnFishToPool fish g
        | None => g
        end in
      resetFish_loop n' (S k) g
  end.

Definition _resetGameState (now : R) (g : t) : t :=
  let g := g <| stats ::= fun s =>
             s <| score := 0 |> <| fishCaught := 0%nat |> <| casts := 0%nat |>
               <| accuracy := 0 |> <| playTime := 0 |> |> in
  let g := g <| comboCount := 0%nat |>
             <| comboMultiplier := 1.0 |>
             <| difficulty := "normal" |>
             <| fishSpawnRate := 1.0 |> in
  let g := resetFish_loop (List.length (activeFish g)) 0 g in
  let g := g <| activeFish := [] |> in
  let g :=
    match player g with
    | Some p => after_player now (Player.reset p (fishes g)) g
    | None => g
    end in
  g <| activePowerUps := [] |>.

Definition restart (random : nat -> nat -> R) (now : R) (handle : nat)
    (performanceNow : R) (g : t) : t :=
  let g := stop g in
  let g := _resetGameState now g in
  start random now handle performanceNow g.

(** *** Visibility, focus and blur

    [hidden] is [document.visibilityState === 'hidden']. *)
Definition _handleVisibilityChange (hidden : bool) (g : t) : t :=
  if hidden then
    if isRunning g && negb (isPaused g) then pause g else g
  else g.

Definition _handleWindowFocus (performanceNow : R) (g : t) : t :=
  if String.eqb (gameState g) "paused" && isRunning g
  then resume performanceNow g
  else g.

Definition _handleWindowBlur (g : t) : t :=
  if isRunning g && negb (isPaused g) then pause g else g.

(** *** Destroy *)

(** [random] feeds the escapes of the fish that the player releases. *)
Definition destroy (random : nat -> R) (g : t) : t :=
  let g := g <| destroyed := true |> in
  let g := stop g in
  let g :=
    match player g with
    | Some p =>
        let o := Player.destroy random p (fishes g) in
        g <| player := Some (Player.player o) |> <| fishes := Player.fishes o |>
    | None => g
    end in
  let g := g <| touchController ::= option_map TouchController.destroy |> in
  let g :=
    fold_left (fun g fish => on_fish fish Fish.destroy g)
              (activeFish g ++ fishPool g)%list g in
  let g := g <| activeFish := [] |> in
  let g := g <| fishPool := [] |> in
  g <| eventListeners := [] |>.

End Game.

(** ** Example states *)

Module Examples.

Local Open Scope R_scope.

(** A canvas of 375 x 667 pixels at the origin of the page. *)
Definition canvas : TouchController.Canvas :=
  TouchController.mkCanvas 375 0 0 375 667.

(** [new Game()] on that canvas, every draw of [Math.random()] being 0. *)
Definition fresh_game : Game.t :=
  Game.build (fun _ _ => 0) 0 Game.no_options canvas 0.

(** The player of the fresh game. *)
Definition fresh_player : Player.t := Game._createPlayer 375 667.

(** The player of the fresh game while casting, the hook at (100, 300). *)
Definition casting_player : Player.t :=
  fresh_player <| Player.isCasting := true |>
               <| Player.hookX := 100 |> <| Player.hookY := 300 |>.

(** A game in play: the fish 19 is active and swims at (100, 300), under the
    hook of the casting player; the other fish are in the pool. *)
Definition game_in_play : Game.t :=
  let g := fresh_game <| Game.player := Some casting_player |> in
  let g := g <| Game.fishPool := List.seq 0 19 |> in
  let g := g <| Game.activeFish := [19%nat] |> in
  Game.on_fish 19%nat (Fish.setPosition 100 300) g.

(** The touch controller of the fresh game. *)
Definition fresh_controller : TouchController.t :=
  Game._createTouchController 0 canvas fresh_player.

(** A touch at the client point (200, 300), in the lower part of the
    canvas. *)
Definition touch_in_reeling_zone : TouchController.Touch :=
  TouchController.mkTouch 1 200 300.

End Examples.

(** ** Views of the state

    The parts of the state that the properties below speak about. *)

Section Views.

Local Open Scope R_scope.


(** A fish after [escape()] is free again: not caught, and active. *)
Definition released (f : Fish.t) : Prop :=
  Fish.isCaught f = false /\ Fish.isActive f = true.

(** A player is not casting and reeling at once. *)
Definition exclusive (p : Player.t) : Prop :=
  Player.isCasting p && Player.isReeling p = false.

(** The part of the state that the line test of a tick reads and writes. *)
Definition line_state (p : Player.t) : bool * bool * bool * list Fish.FishId :=
  (Player.isCasting p, Player.isReeling p, Player.lineBroken p,
   Player.caughtFish p).

(** The fish store and the player right after a successful
    [player.catchFish(fish)], before the handlers of the game run. *)
Definition caught_store (fish : Fish.FishId) (st : Fish.Store) : Fish.Store :=
  Fish.upd st fish (Fish.catch (st fish)).

Definition catching_player (fish : Fish.FishId) (p : Player.t)
    (st : Fish.Store) : Player.t :=
  p <| Player.caughtFish ::= fun l => (l ++ [fish])%list |>
    <| Player.totalScore ::= fun v => v + Fish.getScore (caught_store fish st fish) |>
    <| Player.fishesCaught ::= S |>.

(** The state that [destroy()] leaves a player in. *)
Definition player_inert (p : Player.t) : Prop :=
  Player.destroyed p = true
  /\ Player.isActive p = false
  /\ Player.caughtFish p = []
  /\ Player.activePowerUps p = []
  /\ Player.powerUpEffects p = []
  /\ Player.eventListeners p = [].

(** The state that [destroy()] leaves a touch controller in. *)
Definition controller_inert (c : TouchController.t) : Prop :=
  TouchController.destroyed c = true
  /\ TouchController.isEnabled c = false
  /\ TouchController.mouseDown c = false
  /\ TouchController.mouseTouch c = None
  /\ TouchController.activeTouches c = []
  /\ TouchController.touchPool c = []
  /\ TouchController.eventListeners c = []
  /\ TouchController.customGestures c = []
  /\ TouchController.orientationTimer c = None.

(** The state that [destroy()] leaves a game in. *)
Definition game_inert (g : Game.t) : Prop :=
  Game.destroyed g = true
  /\ Game.activeFish g = []
  /\ Game.fishPool g = []
  /\ Game.eventListeners g = []
  /\ (forall p, Game.player g = Some p -> player_inert p)
  /\ (forall c, Game.touchController g = Some c -> controller_inert c).

(** A game holds a fish reference in one of its two lists; the lists are
    apart when neither holds a reference twice and they share none. *)
Definition holds_fish (g : Game.t) (id : Fish.FishId) : Prop :=
  In id (Game.activeFish g) \/ In id (Game.fishPool g).

Definition lists_apart (g : Game.t) : Prop :=
  NoDup (Game.activeFish g)
  /\ NoDup (Game.fishPool g)
  /\ (forall id, In id (Game.activeFish g) -> ~ In id (Game.fishPool g)).

(** A fish that the cleanup pass keeps: active, and not further than 100
    units beyond the left or the right edge. *)
Definition on_stage (g : Game.t) (id : Fish.FishId) : Prop :=
  Fish.isActive (Game.fishes g id) = true
  /\ -100 <= Fish.x (Game.fishes g id) <= Game.width g + 100.

End Views.

(** * Properties *)

(** ** MathUtils *)

Section MathUtilsFacts.

Import MathUtils.
Local Open Scope R_scope.

Lemma Rleb_true (a b : R) : Rleb a b = true <-> a <= b.
Proof. unfold Rleb. destruct (Rle_dec a b); split; intros; auto; discriminate. Qed.

Lemma Rleb_false (a b : R) : Rleb a b = false <-> b < a.
Proof.
  unfold Rleb. destruct (Rle_dec a b); split; intros; auto; try discriminate; lra.
Qed.

Lemma Rltb_true (a b : R) : Rltb a b = true <-> a < b.
Proof. unfold Rltb. destruct (Rlt_dec a b); split; intros; auto; discriminate. Qed.

Lemma Rltb_false (a b : R) : Rltb a b = false <-> b <= a.
Proof.
  unfold Rltb. destruct (Rlt_dec a b); split; intros; auto; try discriminate; lra.
Qed.

Lemma Reqb_true (a b : R) : Reqb a b = true <-> a = b.
Proof. unfold Reqb. destruct (Req_dec_T a b); split; intros; auto; discriminate. Qed.

Lemma Reqb_false (a b : R) : Reqb a b = false <-> a <> b.
Proof.
  unfold Reqb. destruct (Req_dec_T a b); split; intros; auto; try discriminate.
  contradiction.
Qed.

(** The comparison of a square root with a non-negative bound is the
    comparison of the squares. *)
Lemma sqrt_le_iff_square (d s : R) :
  0 <= d -> 0 <= s -> (sqrt d <= s <-> d <= s * s).
Proof.
  intros Hd Hs. split; intro Hle.
  - rewrite <- (sqrt_sqrt d Hd).
    apply Rmult_le_compat; auto using sqrt_pos.
  - rewrite <- (sqrt_square s Hs). apply sqrt_le_1_alt. exact Hle.
Qed.




(** The same pair evaluated in binary64, and a pair of circles of radius
    [0.5] on which rounding separates the two functions: the squared
    distance [1 + 2^-52] has the square root [1]. *)
Example fastCircleCollision_negative_radius_binary64 :
  let c : Circle float := mkCircle 0%float 0%float (-1)%float in
  fastCircleCollision (Some c) (Some c) = true
  /\ circleCollision (Some c) (Some c) = false.
Proof. split; vm_compute; reflexivity. Qed.

Example fastCircleCollision_rounding_binary64 :
  let c1 : Circle float := mkCircle 0%float 0%float 0.5%float in
  let c2 : Circle float := mkCircle 1%float 0x1p-26%float 0.5%float in
  fastCircleCollision (Some c1) (Some c2) = false
  /\ circleCollision (Some c1) (Some c2) = true.
Proof. split; vm_compute; reflexivity. Qed.

(** *** normalizeAngle *)

(** More fuel never changes a result. *)
Lemma while_negative_fuel_mono {N : Type} `{Arith N} (fuel : nat) :
  forall (angle a : N) (k : nat),
    while_negative fuel angle = Some a ->
    while_negative (fuel + k) angle = Some a.
Proof.
  induction fuel as [| fuel IH]; intros angle a k.
  - cbn. destruct (ltb angle zero) eqn:E; [discriminate |].
    intros Ha. destruct k; cbn; rewrite E; exact Ha.
  - cbn. destruct (ltb angle zero); [apply IH | auto].
Qed.

Lemma while_too_large_fuel_mono {N : Type} `{Arith N} (fuel : nat) :
  forall (angle a : N) (k : nat),
    while_too_large fuel angle = Some a ->
    while_too_large (fuel + k) angle = Some a.
Proof.
  induction fuel as [| fuel IH]; intros angle a k.
  - cbn. destruct (leb (mul two Math_PI) angle) eqn:E; [discriminate |].
    intros Ha. destruct k; cbn; rewrite E; exact Ha.
  - cbn. destruct (leb (mul two Math_PI) angle); [apply IH | auto].
Qed.

(** In exact arithmetic the first loop stops after at most [n] additions of
    [2 * PI] when [- n * (2 * PI) <= angle], and the second one after at most
    [n] subtractions when [angle < (n + 1) * (2 * PI)]. *)
Lemma while_negative_ideal (n : nat) :
  forall angle : R,
    - (INR n * (2 * PI)) <= angle ->
    exists a, while_negative n angle = Some a
              /\ 0 <= a /\ (angle < 0 -> a < 2 * PI) /\ (0 <= angle -> a = angle).
Proof.
  pose proof PI_RGT_0 as Hpi.
  induction n as [| n IH]; intros angle Hlow.
  - cbn in Hlow. exists angle. cbn.
    destruct (Rltb angle 0) eqn:E.
    + apply Rltb_true in E. lra.
    + apply Rltb_false in E. repeat split; auto; lra.
  - cbn [while_negative]. cbn.
    destruct (Rltb angle 0) eqn:E.
    + apply Rltb_true in E.
      rewrite S_INR in Hlow.
      destruct (IH (angle + 2 * PI)) as (a & Ha & Hpos & Hlt & Heq); [lra |].
      exists a. repeat split; auto; lra.
    + apply Rltb_false in E. exists angle. repeat split; auto; lra.
Qed.

Lemma while_too_large_ideal (n : nat) :
  forall angle : R,
    0 <= angle -> angle < (INR n + 1) * (2 * PI) ->
    exists a, while_too_large n angle = Some a /\ 0 <= a < 2 * PI.
Proof.
  pose proof PI_RGT_0 as Hpi.
  induction n as [| n IH]; intros angle Hpos Hup.
  - cbn in Hup. exists angle. cbn.
    destruct (Rleb (2 * PI) angle) eqn:E.
    + apply Rleb_true in E. lra.
    + split; [reflexivity | lra].
  - cbn [while_too_large]. cbn.
    destruct (Rleb (2 * PI) angle) eqn:E.
    + apply Rleb_true in E. rewrite S_INR in Hup.
      apply IH; lra.
    + apply Rleb_false in E. exists angle. split; [reflexivity | lra].
Qed.

(** In exact arithmetic [normalizeAngle] terminates on every angle, with a
    result in [[0, 2 * PI)]. *)
Theorem normalizeAngle_ideal (angle : R) :
  exists fuel a,
    normalizeAngle fuel angle = Some a /\ 0 <= a < 2 * PI.
Proof.
  pose proof PI_RGT_0 as Hpi.
  assert (H2pi : 0 < 2 * PI) by lra.
  destruct (INR_unbounded (Rabs angle / (2 * PI))) as [n Hn].
  assert (Hbound : Rabs angle < INR n * (2 * PI)).
  { apply (Rmult_lt_compat_r (2 * PI)) in Hn; [| exact H2pi].
    unfold Rdiv in Hn. rewrite Rmult_assoc, Rinv_l, Rmult_1_r in Hn; lra. }
  pose proof (Rabs_def2 _ _ Hbound) as [Hup Hlow].
  destruct (@while_negative_ideal n angle) as (a1 & Ha1 & Hpos1 & Hlt1 & Heq1);
    [lra |].
  assert (Ha1up : a1 < (INR n + 1) * (2 * PI)).
  { destruct (Rlt_dec angle 0) as [Hneg | Hnn].
    - specialize (Hlt1 Hneg). pose proof (pos_INR n). nra.
    - rewrite Heq1 by lra. lra. }
  destruct (@while_too_large_ideal n a1 Hpos1 Ha1up) as (a & Ha & Hrange).
  exists n, a. split; [| exact Hrange].
  unfold normalizeAngle. rewrite Ha1. exact Ha.
Qed.

(** The fuel that [Player.normalizeAngle] gives is enough: in exact
    arithmetic the wrapper returns the result of the two loops. *)
Lemma normalizeAngle_enough_fuel (angle : R) :
  exists a,
    normalizeAngle (Player.angle_fuel angle) angle = Some a
    /\ 0 <= a < 2 * PI
    /\ Player.normalizeAngle angle = a.
Proof.
  pose proof PI_RGT_0 as Hpi.
  assert (H2pi : 0 < 2 * PI) by lra.
  unfold Player.normalizeAngle, Player.angle_fuel.
  set (q := Rabs angle / (2 * PI)).
  assert (Hq : 0 <= q).
  { unfold q. apply Rmult_le_pos; [apply Rabs_pos |].
    left. apply Rinv_0_lt_compat. exact H2pi. }
  destruct (Zceil_bound q) as [_ Hceil].
  assert (Hz : (0 <= Zceil q)%Z) by (apply le_IZR; lra).
  set (n := S (Z.to_nat (Zceil q))).
  assert (Hn : INR n = IZR (Zceil q) + 1).
  { unfold n. rewrite S_INR, INR_IZR_INZ, Z2Nat.id by exact Hz. reflexivity. }
  assert (Hbound : Rabs angle < INR n * (2 * PI)).
  { replace (Rabs angle) with (q * (2 * PI))
      by (unfold q; field; lra).
    apply Rmult_lt_compat_r; lra. }
  pose proof (Rabs_def2 _ _ Hbound) as [Hup Hlow].
  destruct (@while_negative_ideal n angle) as (a1 & Ha1 & Hpos1 & Hlt1 & Heq1);
    [lra |].
  assert (Ha1up : a1 < (INR n + 1) * (2 * PI)).
  { destruct (Rlt_dec angle 0) as [Hneg | Hnn].
    - specialize (Hlt1 Hneg). pose proof (pos_INR n). nra.
    - rewrite Heq1 by lra. lra. }
  destruct (@while_too_large_ideal n a1 Hpos1 Ha1up) as (a & Ha & Hrange).
  exists a.
  assert (Hrun : normalizeAngle n angle = Some a).
  { unfold normalizeAngle. rewrite Ha1. exact Ha. }
  rewrite Hrun. auto.
Qed.

(** C7 on the running code: a JavaScript number is a binary64 float, and at
    [2^60] the subtraction of [2 * Math.PI] is absorbed by rounding.  The
    second loop of [normalizeAngle] therefore makes no progress: whatever the
    number of iterations allowed, it has not returned. *)
Theorem normalizeAngle_binary64_diverges (fuel : nat) :
  normalizeAngle (N := float) fuel 0x1p+60%float = None.
Proof.
  unfold normalizeAngle.
  assert (H1 : while_negative (N := float) fuel 0x1p+60%float
               = Some 0x1p+60%float).
  { destruct fuel; reflexivity. }
  rewrite H1. clear H1.
  induction fuel as [| fuel IH].
  - reflexivity.
  - change (while_too_large (N := float) (S fuel) 0x1p+60%float)
      with (if leb (mul two Math_PI) 0x1p+60%float
            then while_too_large (N := float) fuel
                   (sub 0x1p+60%float (mul two Math_PI))
            else Some 0x1p+60%float).
    replace (leb (mul two Math_PI) 0x1p+60%float) with true
      by (vm_compute; reflexivity).
    replace (sub 0x1p+60%float (mul two Math_PI)) with 0x1p+60%float
      by (vm_compute; reflexivity).
    exact IH.
Qed.

(** The same absorption for a negative angle of large magnitude: the first
    loop never leaves. *)
Example normalizeAngle_binary64_diverges_negative (fuel : nat) :
  normalizeAngle (N := float) fuel (-0x1p+60)%float = None.
Proof.
  unfold normalizeAngle.
  assert (H1 : while_negative (N := float) fuel (-0x1p+60)%float = None);
    [| rewrite H1; reflexivity].
  induction fuel as [| fuel IH].
  - reflexivity.
  - change (while_negative (N := float) (S fuel) (-0x1p+60)%float)
      with (if ltb (-0x1p+60)%float zero
            then while_negative (N := float) fuel
                   (add (-0x1p+60)%float (mul two Math_PI))
            else Some (-0x1p+60)%float).
    replace (ltb (-0x1p+60)%float zero) with true by (vm_compute; reflexivity).
    replace (add (-0x1p+60)%float (mul two Math_PI)) with (-0x1p+60)%float
      by (vm_compute; reflexivity).
    exact IH.
Qed.

(** On angles of ordinary size the binary64 code returns, e.g. on [7] and
    [-1]. *)
Example normalizeAngle_binary64_small :
  normalizeAngle (N := float) 2 7%float = Some (sub 7%float (mul two Math_PI))
  /\ normalizeAngle (N := float) 2 (-1)%float
     = Some (add (-1)%float (mul two Math_PI)).
Proof. split; vm_compute; reflexivity. Qed.

(** *** Missing inputs *)

(** The helpers that start with a null guard return their neutral value when
    an object argument is missing. *)
Lemma guarded_helpers_tolerate_null (p : option (Point R))
    (c : option (Circle R)) (r : option (Rect R)) (k : R) :
  distance (N := R) None p = 0 /\ distance (N := R) p None = 0
  /\ distanceSquared (N := R) None p = 0 /\ distanceSquared (N := R) p None = 0
  /\ magnitude None = 0 /\ normalize None = origin
  /\ addVectors None p = origin /\ addVectors p None = origin
  /\ subtractVectors None p = origin /\ subtractVectors p None = origin
  /\ multiplyVector None k = origin
  /\ angleBetween None p = 0 /\ angleBetween p None = 0
  /\ circleCollision (N := R) None c = false
  /\ circleCollision (N := R) c None = false
  /\ fastCircleCollision (N := R) None c = false
  /\ fastCircleCollision (N := R) c None = false
  /\ rectangleCollision None r = false /\ rectangleCollision r None = false
  /\ pointInCircle None c = false /\ pointInCircle p None = false
  /\ pointInRectangle None r = false /\ pointInRectangle p None = false
  /\ isInBounds None r = false /\ isInBounds p None = false.
Proof.
  destruct p, c, r; repeat split; reflexivity.
Qed.

(** C6 on the code: [randomPointInCircle], [applyGravity] and [applyFriction]
    have no such guard.  With a missing [center] (or [velocity]) the property
    read raises a [TypeError] instead of returning a zero vector. *)
Theorem unguarded_helpers_throw_on_null
    (random1 random2 radius gravity deltaTime friction : R) :
  randomPointInCircle random1 random2 None radius = Throw TypeError
  /\ applyGravity None gravity deltaTime = Throw TypeError
  /\ applyFriction None friction = Throw TypeError.
Proof. repeat split; reflexivity. Qed.

End MathUtilsFacts.

(** Evaluation of the comparisons of a closed numeric expression. *)
Ltac decide_comparison :=
  match goal with
  | |- context [Rltb ?a ?b] =>
      first [ replace (Rltb a b) with true by (symmetry; apply Rltb_true; lra)
            | replace (Rltb a b) with false by (symmetry; apply Rltb_false; lra) ]
  | |- context [Rleb ?a ?b] =>
      first [ replace (Rleb a b) with true by (symmetry; apply Rleb_true; lra)
            | replace (Rleb a b) with false by (symmetry; apply Rleb_false; lra) ]
  | |- context [Reqb ?a ?b] =>
      first [ replace (Reqb a b) with true by (symmetry; apply Reqb_true; lra)
            | replace (Reqb a b) with false by (symmetry; apply Reqb_false; lra) ]
  end.

Ltac evaluate := repeat (cbn; decide_comparison); cbn.

(** ** Fish: score *)

Section FishScore.

Import Fish FishStates.
Local Open Scope R_scope.



Lemma or_number_some (a d : R) : a <> 0 -> or_number (Some a) d = a.
Proof.
  intros Ha. unfold or_number.
  replace (Reqb a 0) with false by (symmetry; apply Reqb_false; exact Ha).
  reflexivity.
Qed.











End FishScore.

(** ** Player: the casting and reeling flags *)

Section PlayerFlags.

Import Player PlayerStates.
Local Open Scope R_scope.

Ltac split_ifs :=
  repeat match goal with
         | |- context [if ?c then _ else _] => destruct c eqn:?
         | |- context [match ?c with Some _ => _ | None => _ end] =>
             destruct c eqn:?
         end.

Lemma player_bind (o : Out) (k : Player.t -> Fish.Store -> Out) :
  player (o >>= k) = player (k (player o) (fishes o)).
Proof. reflexivity. Qed.


Lemma line_state_exclusive p q :
  line_state p = line_state q -> exclusive q -> exclusive p.
Proof.
  unfold line_state, exclusive. intros Heq. injection Heq as -> -> _ _. auto.
Qed.

Lemma line_state_moveHook deltaTime p :
  line_state (_moveHook deltaTime p) = line_state p.
Proof. unfold _moveHook. split_ifs; reflexivity. Qed.

Lemma line_state_updateLineLength p :
  line_state (_updateLineLength p) = line_state p.
Proof. reflexivity. Qed.

Lemma line_state_applyFishResistance deltaTime p :
  line_state (_applyFishResistance deltaTime p) = line_state p.
Proof. reflexivity. Qed.

Lemma line_state_updateLineTension p :
  line_state (_updateLineTension p) = line_state p.
Proof. unfold _updateLineTension. split_ifs; reflexivity. Qed.

Lemma line_state_expire currentTime l :
  forall p, line_state (snd (fst (expire_powerUps currentTime l p))) = line_state p.
Proof.
  induction l as [| powerUp l IH]; intros p; [reflexivity |].
  cbn [expire_powerUps].
  destruct (Rleb (duration powerUp) (currentTime - startTime powerUp)).
  - match goal with
    | |- context [expire_powerUps currentTime l ?q] =>
        specialize (IH q); destruct (expire_powerUps currentTime l q) as [[kept p'] c]
    end.
    cbn in *. rewrite IH. split_ifs; reflexivity.
  - specialize (IH p).
    destruct (expire_powerUps currentTime l p) as [[kept p'] c].
    cbn in *. exact IH.
Qed.

Lemma line_state_updatePowerUps now deltaTime p st :
  line_state (player (_updatePowerUps now deltaTime p st)) = line_state p.
Proof.
  unfold _updatePowerUps.
  pose proof (line_state_expire now (activePowerUps p) p) as H.
  destruct (expire_powerUps now (activePowerUps p) p) as [[kept p'] c].
  cbn in *. exact H.
Qed.


Lemma exclusive_breakLine random p st :
  line_state (player (_breakLine random p st)) = (false, false, true, []).
Proof. reflexivity. Qed.

Lemma exclusive_updateHookPhysics random deltaTime p st :
  exclusive p -> exclusive (player (_updateHookPhysics random deltaTime p st)).
Proof.
  intros Hp. unfold _updateHookPhysics.
  destruct (negb (isCasting p) && negb (isReeling p)); [exact Hp |].
  cbv zeta. rewrite player_bind.
  match goal with
  | |- context [Rltb ?a ?b] => destruct (Rltb a b)
  end.
  - reflexivity.
  - cbn [ret player fishes].
    match goal with
    | |- context [(0 <? ?n)%nat] => destruct (0 <? n)%nat
    end; cbn [ret player];
      apply line_state_exclusive with p; try exact Hp;
      rewrite ?line_state_applyFishResistance, line_state_updateLineTension,
        line_state_updateLineLength;
      apply line_state_moveHook.
Qed.

Lemma exclusive_updateReeling deltaTime p st :
  exclusive p -> exclusive (player (_updateReeling deltaTime p st)).
Proof.
  intros Hp. unfold _updateReeling.
  destruct (negb (isReeling p)); [exact Hp |].
  match goal with
  | |- context [Rleb ?a ?b] => destruct (Rleb a b)
  end.
  - reflexivity.
  - cbn [ret player]. eapply line_state_exclusive; [| exact Hp]. reflexivity.
Qed.

Lemma exclusive_update random now deltaTime p st :
  exclusive p -> exclusive (player (update random now deltaTime p st)).
Proof.
  intros Hp. unfold update.
  destruct (destroyed p); [exact Hp |].
  rewrite !player_bind.
  eapply line_state_exclusive; [apply line_state_updatePowerUps |].
  apply exclusive_updateReeling, exclusive_updateHookPhysics.
  exact Hp.
Qed.

Lemma exclusive_cast random power angle p st :
  exclusive p -> exclusive (player (cast random power angle p st)).
Proof.
  intros Hp. unfold cast.
  destruct (destroyed p); [exact Hp |].
  destruct (isCasting p); [exact Hp |].
  destruct (isReeling p) eqn:Hreel; [exact Hp |].
  cbn [orb]. unfold exclusive.
  match goal with
  | |- context [Rltb ?a ?b] => destruct (Rltb a b)
  end; cbn; exact Hreel.
Qed.

(** C2.  In every state that a player reaches through its public methods,
    [isCasting] and [isReeling] are not both true. *)
Theorem casting_and_reeling_exclusive (p : Player.t) :
  reachable p -> isCasting p && isReeling p = false.
Proof.
  change (reachable p -> exclusive p).
  induction 1 as [options | | | | | | | | | | | | | | | |].
  - unfold new, _applyEnvironmentEffects. split_ifs; reflexivity.
  - apply exclusive_cast. assumption.
  - unfold handleTouchCast.
    destruct (destroyed p || isCasting p || isReeling p); [assumption |].
    apply exclusive_cast. assumption.
  - unfold startReeling. split_ifs; [assumption | reflexivity].
  - unfold stopReeling. split_ifs; [assumption |].
    unfold exclusive. cbn. apply andb_false_r.
  - unfold handleTouchReel, startReeling. split_ifs; [assumption | reflexivity].
  - apply exclusive_update. assumption.
  - unfold catchFish. split_ifs; assumption.
  - unfold handleFishEscape. split_ifs; assumption.
  - unfold applyPowerUp. split_ifs; assumption.
  - assumption.
  - unfold setEnvironment, _applyEnvironmentEffects. split_ifs; assumption.
  - assumption.
  - reflexivity.
  - assumption.
  - assumption.
  - assumption.
Qed.

(** A player that has cast at half power and then started to reel. *)
Lemma casting_and_reeling_exclusive_witness :
  let p1 := player (cast 0 50 0 (new no_options) default_store) in
  let p2 := player (startReeling p1 default_store) in
  isCasting p2 && isReeling p2 = false.
Proof.
  cbv zeta. apply casting_and_reeling_exclusive.
  apply reach_startReeling, reach_cast, reach_new.
Defined.

End PlayerFlags.

(** ** Player: the breaking line *)

Section PlayerLine.

Import Player PlayerStates.
Local Open Scope R_scope.

Ltac split_ifs :=
  repeat match goal with
         | |- context [if ?c then _ else _] => destruct c eqn:?
         end.

Lemma escape_released random f : released (Fish.escape random f).
Proof.
  unfold released, Fish.escape, Fish._initializeMovement,
    Fish._applyBehaviorModifications.
  split_ifs; split; reflexivity.
Qed.



Lemma escape_each_other random fish :
  forall k st id, ~ In id fish -> escape_each random k fish st id = st id.
Proof.
  induction fish as [| a fish IH]; intros k st id Hin; [reflexivity |].
  cbn [escape_each]. rewrite IH by (intros H; apply Hin; right; exact H).
  unfold Fish.upd. destruct (Nat.eqb id a) eqn:E; [| reflexivity].
  apply Nat.eqb_eq in E. subst. exfalso. apply Hin. left. reflexivity.
Qed.






End PlayerLine.

(** ** Game: pool and active list *)

Section GamePool.

Import Game.
Local Open Scope nat_scope.

Lemma indexOf_In fish l i : Player.indexOf fish l = Some i -> In fish l.
Proof.
  revert i. induction l as [| a l IH]; intros i; cbn; [discriminate |].
  destruct (Nat.eqb a fish) eqn:E.
  - apply Nat.eqb_eq in E. auto.
  - destruct (Player.indexOf fish l); [| discriminate]. eauto.
Qed.

Lemma indexOf_not_In fish l : Player.indexOf fish l = None -> ~ In fish l.
Proof.
  induction l as [| a l IH]; cbn; [auto |].
  destruct (Nat.eqb a fish) eqn:E; [discriminate |].
  destruct (Player.indexOf fish l); [discriminate |].
  intros _ [-> | H]; [rewrite Nat.eqb_refl in E; discriminate |].
  exact (IH eq_refl H).
Qed.

Lemma indexOf_app_last fish l :
  ~ In fish l -> Player.indexOf fish (l ++ [fish]) = Some (List.length l).
Proof.
  induction l as [| a l IH]; intros Hn; cbn.
  - rewrite Nat.eqb_refl. reflexivity.
  - destruct (Nat.eqb a fish) eqn:E.
    + apply Nat.eqb_eq in E. subst. exfalso. apply Hn. left. reflexivity.
    + rewrite IH; [reflexivity |]. intros H. apply Hn. right. exact H.
Qed.

Lemma splice1_app_last (a : Fish.FishId) l :
  Player.splice1 (List.length l) (l ++ [a]) = l.
Proof.
  induction l as [| b l IH]; cbn; [reflexivity | rewrite IH; reflexivity].
Qed.

Lemma In_splice1 (x : Fish.FishId) i l : In x (Player.splice1 i l) -> In x l.
Proof.
  revert i. induction l as [| a l IH]; intros i; destruct i; cbn; auto.
  intros [-> | H]; eauto.
Qed.

Lemma splice1_indexOf_NoDup fish l i :
  NoDup l -> Player.indexOf fish l = Some i -> ~ In fish (Player.splice1 i l).
Proof.
  intros Hnd. revert i. induction Hnd as [| a l Ha Hnd IH]; intros i; cbn;
    [discriminate |].
  destruct (Nat.eqb a fish) eqn:E.
  - apply Nat.eqb_eq in E. subst. intros [= <-]. exact Ha.
  - destruct (Player.indexOf fish l) as [j |] eqn:Ej; [| discriminate].
    intros [= <-]. cbn. intros [-> | H].
    + rewrite Nat.eqb_refl in E. discriminate.
    + exact (IH j eq_refl H).
Qed.

(** What [_returnFishToPool] does to the two lists. *)
Lemma returnFishToPool_active fish g :
  activeFish (_returnFishToPool fish g)
  = match Player.indexOf fish (activeFish g) with
    | Some index => Player.splice1 index (activeFish g)
    | None => activeFish g
    end.
Proof.
  unfold _returnFishToPool, on_fish. cbn -[Nat.ltb Nat.mul].
  destruct (Player.indexOf fish (activeFish g)); cbn -[Nat.ltb Nat.mul];
    destruct (List.length (fishPool g) <? maxFish g * 2); reflexivity.
Qed.

Lemma returnFishToPool_pool fish g :
  fishPool (_returnFishToPool fish g)
  = if List.length (fishPool g) <? maxFish g * 2
    then fishPool g ++ [fish] else fishPool g.
Proof.
  unfold _returnFishToPool, on_fish. cbn -[Nat.ltb Nat.mul].
  destruct (Player.indexOf fish (activeFish g)); cbn -[Nat.ltb Nat.mul];
    destruct (List.length (fishPool g) <? maxFish g * 2); reflexivity.
Qed.

Lemma returnFishToPool_fish fish g :
  Fish.isActive (fishes (_returnFishToPool fish g) fish) = false
  /\ Fish.x (fishes (_returnFishToPool fish g) fish) = (-100)%R
  /\ Fish.y (fishes (_returnFishToPool fish g) fish) = (-100)%R
  /\ Fish.isCaught (fishes (_returnFishToPool fish g) fish)
     = Fish.isCaught (fishes g fish).
Proof.
  unfold _returnFishToPool, on_fish. cbn -[Nat.ltb Nat.mul].
  destruct (Player.indexOf fish (activeFish g)); cbn -[Nat.ltb Nat.mul];
    destruct (List.length (fishPool g) <? maxFish g * 2); cbn;
    unfold Fish.upd; rewrite !Nat.eqb_refl; cbn; auto.
Qed.

Lemma returnFishToPool_active_incl fish g x :
  In x (activeFish (_returnFishToPool fish g)) -> In x (activeFish g).
Proof.
  rewrite returnFishToPool_active.
  destruct (Player.indexOf fish (activeFish g)); [apply In_splice1 | auto].
Qed.

Lemma returnFishToPool_pool_incl fish g x :
  In x (fishPool g) -> In x (fishPool (_returnFishToPool fish g)).
Proof.
  rewrite returnFishToPool_pool.
  destruct (List.length (fishPool g) <? maxFish g * 2); [| auto].
  intros H. apply in_or_app. left. exact H.
Qed.

(** A cleanup pass only removes fish from the active list and only adds
    fish to the pool. *)
Lemma cleanup_loop_lists i :
  forall g x,
    (In x (activeFish (cleanup_loop i g)) -> In x (activeFish g))
    /\ (In x (fishPool g) -> In x (fishPool (cleanup_loop i g))).
Proof.
  induction i as [| i IH]; intros g x; cbn [cleanup_loop]; [auto |].
  destruct (nth_error (activeFish g) i) as [fish |]; [| apply IH].
  match goal with
  | |- context [if ?c then _ else _] => destruct c
  end; [| apply IH].
  destruct (IH (_returnFishToPool fish g) x) as [Ha Hp].
  split; intros H.
  - apply (returnFishToPool_active_incl fish g). auto.
  - apply Hp. apply returnFishToPool_pool_incl. exact H.
Qed.

(** C10.  When [_spawnFish()] appends a fish to [activeFish] (the active
    list is below [maxFish] and the pool is not empty, its last fish being
    taken), that fish has [isActive] false and the velocity (0, 0):
    [reset()] runs after [isActive = true].  The next [_cleanupFish()]
    takes it out of the active list again, and pushes it back on the pool
    when the pool is below its capacity [2 * maxFish]. *)
Theorem spawned_fish_is_inactive (random1 random2 : R) (g : Game.t)
    (pool : list Fish.FishId) (fish : Fish.FishId) :
  List.length (activeFish g) < maxFish g ->
  fishPool g = pool ++ [fish] ->
  ~ In fish (activeFish g) ->
  let g1 := _spawnFish random1 random2 g in
  activeFish g1 = activeFish g ++ [fish]
  /\ Fish.isActive (fishes g1 fish) = false
  /\ Fish.velocity (fishes g1 fish) = MathUtils.origin
  /\ ~ In fish (activeFish (_cleanupFish g1))
  /\ (List.length pool < maxFish g * 2 -> In fish (fishPool (_cleanupFish g1))).
Proof.
  intros Hlen Hpool Hnew g1.
  assert (Hg1 : activeFish g1 = activeFish g ++ [fish]
                /\ fishPool g1 = pool
                /\ maxFish g1 = maxFish g
                /\ Fish.isActive (fishes g1 fish) = false
                /\ Fish.velocity (fishes g1 fish) = MathUtils.origin).
  { subst g1. unfold _spawnFish.
    replace (maxFish g <=? List.length (activeFish g)) with false
      by (symmetry; apply Nat.leb_gt; exact Hlen).
    unfold _getFishFromPool. rewrite Hpool, rev_app_distr. cbn [rev app].
    unfold on_fish. cbn. rewrite rev_involutive.
    unfold Fish.upd. rewrite !Nat.eqb_refl. cbn. auto. }
  destruct Hg1 as (Hact & Hp & Hmax & Hia & Hvel).
  split; [exact Hact |]. split; [exact Hia |]. split; [exact Hvel |].
  assert (Hstep : _cleanupFish g1
                  = cleanup_loop (List.length (activeFish g))
                      (_returnFishToPool fish g1)).
  { unfold _cleanupFish. rewrite Hact, length_app. cbn [List.length].
    rewrite Nat.add_1_r. cbn [cleanup_loop].
    rewrite Hact, nth_error_app2, Nat.sub_diag by apply Nat.le_refl.
    cbn [nth_error]. rewrite Hia. reflexivity. }
  rewrite Hstep.
  set (g2 := _returnFishToPool fish g1).
  assert (Hact2 : activeFish g2 = activeFish g).
  { subst g2. rewrite returnFishToPool_active, Hact.
    rewrite indexOf_app_last by exact Hnew. apply splice1_app_last. }
  split.
  - intros Hin.
    apply (proj1 (cleanup_loop_lists (List.length (activeFish g)) g2 fish)) in Hin.
    rewrite Hact2 in Hin. exact (Hnew Hin).
  - intros Hcap.
    apply (proj2 (cleanup_loop_lists (List.length (activeFish g)) g2 fish)).
    subst g2. rewrite returnFishToPool_pool, Hp, Hmax.
    rewrite (proj2 (Nat.ltb_lt _ _) Hcap).
    apply in_or_app. right. left. reflexivity.
Qed.

Lemma spawned_fish_is_inactive_witness :
  Fish.isActive
    (fishes (_spawnFish 0 0 Examples.fresh_game) 19) = false
  /\ ~ In 19 (activeFish (_cleanupFish (_spawnFish 0 0 Examples.fresh_game)))
  /\ In 19 (fishPool (_cleanupFish (_spawnFish 0 0 Examples.fresh_game))).
Proof.
  assert (Hlen : List.length (activeFish Examples.fresh_game)
                 < maxFish Examples.fresh_game) by (cbn; lia).
  assert (Hpool : fishPool Examples.fresh_game = List.seq 0 19 ++ [19])
    by reflexivity.
  assert (Hnew : ~ In 19 (activeFish Examples.fresh_game))
    by (cbn; tauto).
  pose proof (@spawned_fish_is_inactive 0%R 0%R Examples.fresh_game
                (List.seq 0 19) 19 Hlen Hpool Hnew)
    as (_ & Hia & _ & Hout & Hin).
  split; [exact Hia |]. split; [exact Hout |].
  apply Hin. cbn. lia.
Defined.

End GamePool.

(** ** Game: a catch *)

Section GameCatch.

Import Game.
Local Open Scope R_scope.

(** With the handlers registered by the constructor of the game, a
    successful catch calls [_handleFishCaught] once, and nothing else. *)
Lemma player_catchFish_handled (now random : R) (fish : Fish.FishId)
    (g : Game.t) (p : Player.t) :
  player g = Some p ->
  Player.destroyed p = false ->
  Player.eventListeners p = player_listeners ->
  Fish.isCaught (fishes g fish) = false ->
  Player.includes fish (Player.caughtFish p) = false ->
  random <= Player.hookEffectiveness p
            * Player.fishActivity (Player.weatherEffects p) * 0.8 ->
  player_catchFish now random fish g
  = _handleFishCaught now fish
      (Fish.getScore (caught_store fish (fishes g) fish))
      (g <| player := Some (catching_player fish p (fishes g)) |>
         <| fishes := caught_store fish (fishes g) |>).
Proof.
  intros Hp Hd Hl Hc Hi Hr.
  unfold player_catchFish. rewrite Hp. unfold Player.catchFish.
  rewrite Hd, Hc, Hi. cbn [orb].
  replace (Rltb (Player.hookEffectiveness p
                 * Player.fishActivity (Player.weatherEffects p) * 0.8) random)
    with false by (symmetry; apply Rltb_false; exact Hr).
  unfold after_player, Player.emit, Player._emit.
  cbn [Player.calls Player.player Player.fishes].
  replace (Player.eventListeners _) with player_listeners
    by (rewrite <- Hl; reflexivity).
  reflexivity.
Qed.

Lemma handleFishCaught_facts (now : R) (fish : Fish.FishId) (points : R)
    (g : Game.t) :
  let g' := _handleFishCaught now fish points g in
  activeFish g'
  = match Player.indexOf fish (activeFish g) with
    | Some index => Player.splice1 index (activeFish g)
    | None => activeFish g
    end
  /\ fishPool g'
     = (if (List.length (fishPool g) <? maxFish g * 2)%nat
        then fishPool g ++ [fish] else fishPool g)%list
  /\ Fish.isActive (fishes g' fish) = false
  /\ Fish.isCaught (fishes g' fish) = Fish.isCaught (fishes g fish)
  /\ player g' = player g
  /\ fishCaught (stats g') = S (fishCaught (stats g))
  /\ score (stats g')
     = score (stats g) + MathUtils.Math_floor (points * comboMultiplier g).
Proof.
  intros g'. subst g'. unfold _handleFishCaught.
  match goal with
  | |- context [_returnFishToPool fish ?h] => set (g3 := h)
  end.
  assert (H3 : activeFish g3 = activeFish g /\ fishPool g3 = fishPool g
               /\ maxFish g3 = maxFish g /\ fishes g3 = fishes g
               /\ player g3 = player g
               /\ fishCaught (stats g3) = S (fishCaught (stats g))
               /\ score (stats g3)
                  = score (stats g)
                    + MathUtils.Math_floor (points * comboMultiplier g)).
  { subst g3. unfold _updateCombo, _updateScore. cbn. repeat split. }
  destruct H3 as (Ha & Hpl & Hm & Hf & Hp & Hfc & Hsc).
  clearbody g3.
  rewrite returnFishToPool_active, returnFishToPool_pool, Ha, Hpl, Hm.
  destruct (returnFishToPool_fish fish g3) as (Hia & _ & _ & Hic).
  rewrite Hia, Hic, Hf.
  assert (Hrest : player (_returnFishToPool fish g3) = player g3
                  /\ stats (_returnFishToPool fish g3) = stats g3).
  { unfold _returnFishToPool, on_fish. cbn -[Nat.ltb Nat.mul].
    destruct (Player.indexOf fish (activeFish g3)); cbn -[Nat.ltb Nat.mul];
      destruct (List.length (fishPool g3) <? maxFish g3 * 2)%nat; split;
      reflexivity. }
  destruct Hrest as [Hp' Hs']. rewrite Hp', Hs', Hp, Hfc, Hsc.
  repeat split.
Qed.

(** C4, as amended.  When [catchFish] succeeds on the player of a game (the
    handlers of the game being the ones its constructor registered), the
    player keeps the fish in its caught list and its score and fish count
    rise at once, the statistics of the game rise at once, and the handler
    of the game takes the fish out of play at that very moment: it leaves
    [activeFish], is marked inactive, and goes back on the pool when the pool
    is below its capacity. *)
Theorem caught_fish_leaves_play (now random : R) (fish : Fish.FishId)
    (g : Game.t) (p : Player.t) :
  player g = Some p ->
  Player.destroyed p = false ->
  Player.eventListeners p = player_listeners ->
  Fish.isCaught (fishes g fish) = false ->
  Player.includes fish (Player.caughtFish p) = false ->
  random <= Player.hookEffectiveness p
            * Player.fishActivity (Player.weatherEffects p) * 0.8 ->
  NoDup (activeFish g) ->
  let g' := player_catchFish now random fish g in
  ~ In fish (activeFish g')
  /\ Fish.isActive (fishes g' fish) = false
  /\ Fish.isCaught (fishes g' fish) = true
  /\ ((List.length (fishPool g) < maxFish g * 2)%nat -> In fish (fishPool g'))
  /\ fishCaught (stats g') = S (fishCaught (stats g))
  /\ score (stats g')
     = score (stats g)
       + MathUtils.Math_floor
           (Fish.getScore (Fish.catch (fishes g fish)) * comboMultiplier g)
  /\ exists p',
       player g' = Some p'
       /\ In fish (Player.caughtFish p')
       /\ Player.fishesCaught p' = S (Player.fishesCaught p)
       /\ Player.totalScore p'
          = Player.totalScore p + Fish.getScore (Fish.catch (fishes g fish)).
Proof.
  intros Hp Hd Hl Hc Hi Hr Hnd g'. subst g'.
  rewrite (player_catchFish_handled now fish g Hp Hd Hl Hc Hi Hr).
  match goal with
  | |- context [_handleFishCaught now fish ?pts ?h] =>
      destruct (handleFishCaught_facts now fish pts h)
        as (Ha & Hpl & Hia & Hic & Hpy & Hfc & Hsc)
  end.
  assert (Hself : caught_store fish (fishes g) fish = Fish.catch (fishes g fish)).
  { unfold caught_store, Fish.upd. rewrite Nat.eqb_refl. reflexivity. }
  rewrite Ha, Hpl, Hia, Hic, Hpy, Hfc, Hsc. cbn -[Nat.ltb Nat.mul].
  rewrite Hself.
  split.
  { destruct (Player.indexOf fish (activeFish g)) as [i |] eqn:Ei.
    - apply splice1_indexOf_NoDup; assumption.
    - apply indexOf_not_In. exact Ei. }
  split; [reflexivity |]. split; [reflexivity |].
  split.
  { intros Hcap. rewrite (proj2 (Nat.ltb_lt _ _) Hcap).
    apply in_or_app. right. left. reflexivity. }
  split; [reflexivity |]. split; [reflexivity |].
  eexists. split; [reflexivity |]. cbn.
  split; [apply in_or_app; right; left; reflexivity |].
  split; [reflexivity | rewrite Hself; reflexivity].
Qed.

(** The example game: the constructor has registered the handlers, the fish
    19 is free, and a draw of 0 makes the catch succeed. *)
Lemma game_in_play_ready :
  player Examples.game_in_play = Some Examples.casting_player
  /\ Player.destroyed Examples.casting_player = false
  /\ Player.eventListeners Examples.casting_player = player_listeners
  /\ Fish.isCaught (fishes Examples.game_in_play 19%nat) = false
  /\ Player.includes 19%nat (Player.caughtFish Examples.casting_player) = false
  /\ 0 <= Player.hookEffectiveness Examples.casting_player
          * Player.fishActivity
              (Player.weatherEffects Examples.casting_player) * 0.8
  /\ NoDup (activeFish Examples.game_in_play).
Proof.
  split; [reflexivity |]. split; [reflexivity |]. split; [reflexivity |].
  split; [reflexivity |]. split; [reflexivity |].
  split.
  - unfold Examples.casting_player, Examples.fresh_player, _createPlayer,
      Player.new, Player._applyEnvironmentEffects. cbn. lra.
  - cbn. repeat constructor. cbn. tauto.
Qed.

Lemma caught_fish_leaves_play_witness :
  ~ In 19%nat (activeFish (player_catchFish 0 0 19%nat Examples.game_in_play))
  /\ In 19%nat (fishPool (player_catchFish 0 0 19%nat Examples.game_in_play)).
Proof.
  destruct game_in_play_ready as (Hp & Hd & Hl & Hc & Hi & Hr & Hnd).
  pose proof (@caught_fish_leaves_play 0 0 19%nat Examples.game_in_play
                Examples.casting_player Hp Hd Hl Hc Hi Hr Hnd)
    as (Hout & _ & _ & Hpool & _).
  split; [exact Hout |]. apply Hpool. cbn. lia.
Defined.

(** C4, as stated, fails on the example game.  During the collision pass
    the hook of the casting player lies on the active fish 19 and the catch
    succeeds: when the pass returns, the fish is in the caught list of the
    player, who is still casting (no reeling has completed, no fish has
    escaped), and the fish is no longer in [activeFish]. *)
Lemma caught_fish_removed_at_once :
  let g' := _checkFishCollisions 0 (fun _ => 0) Examples.game_in_play in
  In 19%nat (activeFish Examples.game_in_play)
  /\ (exists p', player g' = Some p'
                 /\ In 19%nat (Player.caughtFish p')
                 /\ Player.isCasting p' = true)
  /\ ~ In 19%nat (activeFish g')
  /\ In 19%nat (fishPool g').
Proof.
  destruct game_in_play_ready as (Hp & Hd & Hl & Hc & Hi & Hr & Hnd).
  assert (Hhit : Fish.isActive (fishes Examples.game_in_play 19%nat)
                 && Player.checkFishCollision (Some 19%nat)
                      Examples.casting_player (fishes Examples.game_in_play)
                 = true).
  { unfold Player.checkFishCollision. rewrite Hc.
    unfold Fish.checkCollision, MathUtils.rectangleCollision, Fish.getBounds.
    unfold Examples.game_in_play, Examples.fresh_game, Game.build, on_fish,
      Fish.upd, Fish.setPosition, Fish.new, Fish._initializeMovement,
      Fish._applyBehaviorModifications, Examples.casting_player,
      Examples.fresh_player, _createPlayer, Player.new,
      Player._applyEnvironmentEffects, Player.on.
    evaluate. reflexivity. }
  assert (Hpass : _checkFishCollisions 0 (fun _ => 0) Examples.game_in_play
                  = player_catchFish 0 0 19%nat Examples.game_in_play).
  { unfold _checkFishCollisions. rewrite Hp.
    change (Player.isCasting Examples.casting_player) with true.
    cbn [negb].
    change (List.length (activeFish Examples.game_in_play)) with 1%nat.
    cbn [collisions_loop].
    change (nth_error (activeFish Examples.game_in_play) 0)
      with (Some 19%nat).
    cbv iota beta. rewrite Hp. cbv iota beta.
    match goal with
    | |- (if ?c then _ else _) = _ =>
        replace c with true by (symmetry; exact Hhit)
    end.
    reflexivity. }
  intros g'. subst g'. rewrite Hpass.
  rewrite (player_catchFish_handled 0 19%nat Examples.game_in_play
             Hp Hd Hl Hc Hi Hr).
  match goal with
  | |- context [_handleFishCaught 0 19%nat ?pts ?h] =>
      destruct (handleFishCaught_facts 0 19%nat pts h)
        as (Ha & Hpl & _ & _ & Hpy & _)
  end.
  rewrite Ha, Hpl, Hpy.
  split; [left; reflexivity |].
  split.
  { eexists. split; [reflexivity |].
    split; [cbn; left; reflexivity | reflexivity]. }
  split.
  - cbn. tauto.
  - cbn. tauto.
Qed.

End GameCatch.

(** ** TouchController: taps *)

Section TouchTap.

Import TouchController.
Local Open Scope R_scope.




End TouchTap.

(** ** Lifecycle: destroy *)

Section Lifecycle.

Local Open Scope R_scope.

(** *** Fish *)

Lemma fish_destroy_destroyed f : Fish.destroyed (Fish.destroy f) = true.
Proof. unfold Fish.destroy. cbn. reflexivity. Qed.

Lemma fish_destroy_twice f : Fish.destroy (Fish.destroy f) = Fish.destroy f.
Proof. unfold Fish.destroy. cbn. reflexivity. Qed.

Lemma fish_update_destroyed st self random1 random2 deltaTime f :
  Fish.destroyed f = true ->
  Fish.update st self random1 random2 deltaTime f = f.
Proof. unfold Fish.update. intros ->. reflexivity. Qed.

Lemma fish_reset_destroyed f : Fish.destroyed (Fish.reset f) = false.
Proof. unfold Fish.reset. cbn. reflexivity. Qed.

(** *** Player *)

Lemma player_destroy_inert random p st :
  player_inert (Player.player (Player.destroy random p st)).
Proof.
  unfold player_inert, Player.destroy. cbn. repeat split.
Qed.

Lemma player_destroy_fixed random p st :
  player_inert p -> Player.destroy random p st = Player.ret p st.
Proof.
  unfold player_inert. destruct p. cbn.
  intros (-> & -> & -> & -> & -> & ->). reflexivity.
Qed.

Lemma player_guards p :
  Player.destroyed p = true ->
  forall st,
    (forall random power angle,
        Player.cast random power angle p st = Player.ret p st)
    /\ (forall random startTouch endTouch,
           Player.handleTouchCast random startTouch endTouch p st
           = Player.ret p st)
    /\ Player.startReeling p st = Player.ret p st
    /\ Player.handleTouchReel p st = Player.ret p st
    /\ Player.stopReeling p st = Player.ret p st
    /\ (forall random now deltaTime,
           Player.update random now deltaTime p st = Player.ret p st)
    /\ (forall random fish,
           Player.catchFish random fish p st = Player.ret p st)
    /\ (forall now powerUp,
           Player.applyPowerUp now powerUp p st = Player.ret p st).
Proof.
  intros Hd st.
  unfold Player.handleTouchReel, Player.cast, Player.handleTouchCast,
    Player.startReeling, Player.stopReeling, Player.update,
    Player.catchFish, Player.applyPowerUp.
  rewrite Hd. cbn [orb].
  split; [reflexivity |]. split; [reflexivity |]. split; [reflexivity |].
  split; [reflexivity |]. split; [reflexivity |]. split; [reflexivity |].
  split.
  - intros random fish. destruct fish; reflexivity.
  - intros now powerUp. destruct powerUp; reflexivity.
Qed.

(** *** TouchController *)

Lemma returnTouchToPool_flags touch c :
  let c' := TouchController._returnTouchToPool touch c in
  TouchController.destroyed c' = TouchController.destroyed c
  /\ TouchController.isEnabled c' = TouchController.isEnabled c
  /\ TouchController.mouseDown c' = TouchController.mouseDown c
  /\ TouchController.mouseTouch c' = TouchController.mouseTouch c.
Proof.
  unfold TouchController._returnTouchToPool.
  destruct (_ <? _)%nat; cbn; auto.
Qed.

Lemma returnTouches_flags (l : list (TouchController.TouchKey * TouchController.TouchObj)) :
  forall c,
    let c' := fold_left
                (fun c kv => TouchController._returnTouchToPool (snd kv) c) l c in
    TouchController.destroyed c' = TouchController.destroyed c
    /\ TouchController.isEnabled c' = TouchController.isEnabled c
    /\ TouchController.mouseDown c' = TouchController.mouseDown c
    /\ TouchController.mouseTouch c' = TouchController.mouseTouch c.
Proof.
  induction l as [| kv l IH]; intros c; cbn [fold_left]; [auto |].
  destruct (IH (TouchController._returnTouchToPool (snd kv) c))
    as (H1 & H2 & H3 & H4).
  destruct (returnTouchToPool_flags (snd kv) c) as (K1 & K2 & K3 & K4).
  cbv zeta in *. rewrite H1, H2, H3, H4. auto.
Qed.

Lemma controller_destroy_inert c : controller_inert (TouchController.destroy c).
Proof.
  unfold controller_inert, TouchController.destroy,
    TouchController._clearAllTimers.
  cbv zeta.
  match goal with
  | |- context [fold_left ?f ?l ?c0] =>
      destruct (returnTouches_flags l c0) as (H1 & H2 & H3 & H4);
      cbv zeta in H1, H2, H3, H4;
      set (F := fold_left f l c0) in *
  end.
  cbn. rewrite H1, H2, H3, H4. clear. cbn.
  destruct (TouchController.mouseTouch c) as [touch |].
  - cbn.
    match goal with
    | |- context [TouchController._returnTouchToPool ?t ?c0] =>
        destruct (returnTouchToPool_flags t c0) as (K1 & K2 & K3 & _)
    end.
    cbv zeta in K1, K2, K3. rewrite K1, K2, K3. cbn. repeat split.
  - cbn. repeat split.
Qed.

Lemma controller_destroy_fixed c :
  controller_inert c -> TouchController.destroy c = c.
Proof.
  unfold controller_inert. destruct c. cbn.
  intros (-> & -> & -> & -> & -> & -> & -> & -> & ->). reflexivity.
Qed.

Lemma controller_guards c :
  TouchController.destroyed c = true ->
  (forall now timer gameState canvas changedTouches,
      TouchController._handleTouchStart now timer gameState canvas
        changedTouches c = c)
  /\ (forall now gameState changedTouches,
         TouchController._handleTouchMove now gameState changedTouches c = c)
  /\ (forall now random changedTouches player st,
         TouchController._handleTouchEnd now random changedTouches c player st
         = TouchController.mkOut c player st [])
  /\ (forall changedTouches,
         TouchController._handleTouchCancel changedTouches c = c).
Proof.
  intros Hd.
  unfold TouchController._handleTouchStart, TouchController._handleTouchMove,
    TouchController._handleTouchEnd, TouchController._handleTouchCancel.
  rewrite Hd. cbn. repeat split.
Qed.

(** *** Game *)

Lemma destroy_fish_fields (l : list Fish.FishId) :
  forall g,
    let g' := fold_left (fun g fish => Game.on_fish fish Fish.destroy g) l g in
    Game.destroyed g' = Game.destroyed g
    /\ Game.player g' = Game.player g
    /\ Game.touchController g' = Game.touchController g.
Proof.
  induction l as [| fish l IH]; intros g; cbn [fold_left]; [auto |].
  destruct (IH (Game.on_fish fish Fish.destroy g)) as (H1 & H2 & H3).
  cbv zeta in *. rewrite H1, H2, H3. cbn. auto.
Qed.

Lemma game_destroy_inert random g : game_inert (Game.destroy random g).
Proof.
  unfold game_inert, Game.destroy. cbv zeta.
  match goal with
  | |- context [fold_left ?f ?l ?g0] =>
      destruct (destroy_fish_fields l g0) as (H1 & H2 & H3);
      cbv zeta in H1, H2, H3;
      set (F := fold_left f l g0) in *
  end.
  clearbody F. cbn. rewrite H1, H2, H3. clear.
  assert (Hstop : Game.stop (g <| Game.destroyed := true |>)
                  = g <| Game.destroyed := true |>) by reflexivity.
  rewrite Hstop. cbn.
  split; [destruct (Game.player g); reflexivity |].
  split; [reflexivity |]. split; [reflexivity |]. split; [reflexivity |].
  split.
  - intros p. destruct (Game.player g) as [q |]; cbn; [| discriminate].
    intros [= <-]. unfold player_inert. cbn. repeat split.
  - intros c. destruct (Game.player g) as [q |]; cbn;
      (destruct (Game.touchController g) as [d |]; cbn; [| discriminate]);
      intros [= <-]; apply controller_destroy_inert.
Qed.

Lemma game_destroy_fixed random g :
  game_inert g -> Game.destroy random g = g.
Proof.
  unfold game_inert. destruct g as [? ? ? ? ? ? ? ? ? ? ? ? ? ? ? ? ? ? ? ? ? ? ? ? ? ? ? ? ? ? ? pl tc st].
  cbn. intros (-> & -> & -> & -> & Hp & Hc).
  unfold Game.destroy. cbn -[Player.destroy TouchController.destroy].
  destruct pl as [p |]; cbn -[Player.destroy TouchController.destroy].
  - rewrite (player_destroy_fixed random st (Hp p eq_refl)).
    destruct tc as [c |]; cbn -[TouchController.destroy]; [| reflexivity].
    rewrite (controller_destroy_fixed (Hc c eq_refl)). reflexivity.
  - destruct tc as [c |]; cbn -[TouchController.destroy]; [| reflexivity].
    rewrite (controller_destroy_fixed (Hc c eq_refl)). reflexivity.
Qed.

Lemma game_guards g :
  Game.destroyed g = true ->
  (forall random now handle performanceNow,
      Game.start random now handle performanceNow g = g)
  /\ Game.pause g = g
  /\ (forall performanceNow, Game.resume performanceNow g = g)
  /\ Game.stop g = g
  /\ (forall random now deltaTime, Game.update random now deltaTime g = g)
  /\ (forall random now handle currentTime,
         Game._gameLoop random now handle currentTime g = g).
Proof.
  intros Hd.
  unfold Game.start, Game.pause, Game.resume, Game.stop, Game.update,
    Game._gameLoop.
  rewrite Hd, orb_true_r. cbn. repeat split.
Qed.

(** C9, as amended.  For a fish, a player, a touch controller and a game,
    a second [destroy()] returns normally and leaves the component exactly
    as the first one left it.  After [destroy()], the methods that test the
    [destroyed] flag on entry return at once, without a change of state,
    without a call of a listener and without an error:
    - Fish: [update];
    - Player: [cast], [handleTouchCast], [startReeling], [handleTouchReel],
      [stopReeling], [update], [catchFish], [applyPowerUp];
    - TouchController: the handlers of touch start, move, end and cancel;
    - Game: [start], [pause], [resume], [stop], [update] and the loop. *)
Theorem destroy_twice_and_guarded_calls :
  (forall f : Fish.t,
      let d := Fish.destroy f in
      Fish.destroy d = d
      /\ (forall st self random1 random2 deltaTime,
             Fish.update st self random1 random2 deltaTime d = d))
  /\ (forall random (p : Player.t) st,
         let d := Player.player (Player.destroy random p st) in
         forall st',
           (forall random', Player.destroy random' d st' = Player.ret d st')
           /\ (forall random' power angle,
                  Player.cast random' power angle d st' = Player.ret d st')
           /\ (forall random' startTouch endTouch,
                  Player.handleTouchCast random' startTouch endTouch d st'
                  = Player.ret d st')
           /\ Player.startReeling d st' = Player.ret d st'
           /\ Player.handleTouchReel d st' = Player.ret d st'
           /\ Player.stopReeling d st' = Player.ret d st'
           /\ (forall random' now deltaTime,
                  Player.update random' now deltaTime d st' = Player.ret d st')
           /\ (forall random' fish,
                  Player.catchFish random' fish d st' = Player.ret d st')
           /\ (forall now powerUp,
                  Player.applyPowerUp now powerUp d st' = Player.ret d st'))
  /\ (forall c : TouchController.t,
         let d := TouchController.destroy c in
         TouchController.destroy d = d
         /\ (forall now timer gameState canvas changedTouches,
                TouchController._handleTouchStart now timer gameState canvas
                  changedTouches d = d)
         /\ (forall now gameState changedTouches,
                TouchController._handleTouchMove now gameState changedTouches d
                = d)
         /\ (forall now random changedTouches player st,
                TouchController._handleTouchEnd now random changedTouches d
                  player st
                = TouchController.mkOut d player st [])
         /\ (forall changedTouches,
                TouchController._handleTouchCancel changedTouches d = d))
  /\ (forall random (g : Game.t),
         let d := Game.destroy random g in
         (forall random', Game.destroy random' d = d)
         /\ (forall random' now handle performanceNow,
                Game.start random' now handle performanceNow d = d)
         /\ Game.pause d = d
         /\ (forall performanceNow, Game.resume performanceNow d = d)
         /\ Game.stop d = d
         /\ (forall random' now deltaTime,
                Game.update random' now deltaTime d = d)
         /\ (forall random' now handle currentTime,
                Game._gameLoop random' now handle currentTime d = d)).
Proof.
  split; [| split; [| split]].
  - intros f d. split; [apply fish_destroy_twice |].
    intros. apply fish_update_destroyed, fish_destroy_destroyed.
  - intros random p st d st'.
    pose proof (player_destroy_inert random p st) as Hi. fold d in Hi.
    split; [intros random'; apply player_destroy_fixed; exact Hi |].
    apply player_guards. apply Hi.
  - intros c d.
    pose proof (controller_destroy_inert c) as Hi. fold d in Hi.
    split; [apply controller_destroy_fixed; exact Hi |].
    apply controller_guards. apply Hi.
  - intros random g d.
    pose proof (game_destroy_inert random g) as Hi. fold d in Hi.
    split; [intros random'; apply game_destroy_fixed; exact Hi |].
    apply game_guards. apply Hi.
Qed.

(** C9, as stated, fails.  On the destroyed controller of the fresh game
    [setGestureThreshold(0)] throws; and [reset()] on a destroyed fish from
    the pool clears its [destroyed] flag. *)
Lemma destroyed_components_still_react :
  TouchController.setGestureThreshold 0
    (TouchController.destroy Examples.fresh_controller)
  = Throw (Error "Gesture threshold must be positive")
  /\ Fish.destroyed (Fish.destroy (Game.fishes Examples.fresh_game 0%nat)) = true
  /\ Fish.destroyed
       (Fish.reset (Fish.destroy (Game.fishes Examples.fresh_game 0%nat)))
     = false.
Proof.
  split; [| split; [apply fish_destroy_destroyed | apply fish_reset_destroyed]].
  unfold TouchController.setGestureThreshold.
  replace (Rleb 0 0) with true by (symmetry; apply Rleb_true; lra).
  reflexivity.
Qed.

End Lifecycle.

(** ** MathUtils: the laws of the helpers

    The statements of this section are about the helpers in exact
    arithmetic. *)

Section MathUtilsLaws.

Import MathUtils.
Local Open Scope R_scope.

Lemma sum_sqr_nonneg (a b : R) : 0 <= a * a + b * b.
Proof. apply Rplus_le_le_0_compat; apply Rle_0_sqr. Qed.

Lemma sqrt_sum_sqr_zero (a b : R) : sqrt (a * a + b * b) = 0 -> a = 0 /\ b = 0.
Proof.
  intros H. apply sqrt_eq_0 in H; [| apply sum_sqr_nonneg].
  pose proof (Rle_0_sqr a) as Ha. pose proof (Rle_0_sqr b) as Hb.
  unfold Rsqr in *.
  split; apply Rsqr_0_uniq; unfold Rsqr; lra.
Qed.

Lemma magnitude_multiplyVector (v : Point R) (scalar : R) :
  magnitude (Some (multiplyVector (Some v) scalar))
  = Rabs scalar * magnitude (Some v).
Proof.
  unfold multiplyVector, magnitude. cbn.
  replace (x v * scalar * (x v * scalar) + y v * scalar * (y v * scalar))
    with ((scalar * scalar) * (x v * x v + y v * y v)) by ring.
  rewrite sqrt_mult_alt by apply Rle_0_sqr.
  f_equal. change (scalar * scalar) with (Rsqr scalar). apply sqrt_Rsqr_abs.
Qed.

Lemma magnitude_normalize (v : Point R) :
  magnitude (Some v) <> 0 -> magnitude (Some (normalize (Some v))) = 1.
Proof.
  destruct v as [a b]. unfold normalize, magnitude. cbn.
  set (m := sqrt (a * a + b * b)). intros E.
  replace (Reqb m 0) with false by (symmetry; apply Reqb_false; exact E).
  cbn.
  replace (a / m * (a / m) + b / m * (b / m))
    with ((a * a + b * b) / (m * m)) by (field; exact E).
  assert (Hmm : m * m = a * a + b * b)
    by apply sqrt_sqrt, sum_sqr_nonneg.
  rewrite Hmm. unfold Rdiv. rewrite Rinv_r; [apply sqrt_1 |].
  intros H0. apply E. unfold m. rewrite H0. apply sqrt_0.
Qed.

Lemma MathUtils_clamp_range (value min max : R) :
  min <= max ->
  min <= clamp value min max <= max
  /\ (min <= value <= max -> clamp value min max = value).
Proof.
  intros Hle. unfold clamp, Rmin, Rmax.
  destruct (Rle_dec value min); destruct (Rle_dec _ max); repeat split; lra.
Qed.

(** X1.  [normalize] and [magnitude] decompose a vector: scaling the
    normalized vector by the magnitude gives the vector back.  The
    normalized vector has length 1 unless the vector is the zero vector,
    which is normalized to [{x: 0, y: 0}] without a division. *)
Theorem normalize_decomposes (v : Point R) :
  multiplyVector (Some (normalize (Some v))) (magnitude (Some v)) = v
  /\ (magnitude (Some v) <> 0 -> magnitude (Some (normalize (Some v))) = 1)
  /\ (magnitude (Some v) = 0 -> normalize (Some v) = origin).
Proof.
  split; [| split; [apply magnitude_normalize |]].
  - destruct v as [a b]. unfold multiplyVector, normalize, magnitude. cbn.
    set (m := sqrt (a * a + b * b)).
    destruct (Reqb m 0) eqn:E.
    + apply Reqb_true in E.
      destruct (sqrt_sum_sqr_zero a b E) as [-> ->]. cbn. f_equal; lra.
    + apply Reqb_false in E. cbn. f_equal; field; exact E.
  - intros E. unfold normalize.
    replace (Reqb (magnitude (Some v)) 0) with true
      by (symmetry; apply Reqb_true; exact E).
    reflexivity.
Qed.

(** X2.  [distance] is a metric on points: it is non-negative and symmetric,
    it is 0 exactly between equal points, it obeys the triangle inequality,
    and [distanceSquared] is its square. *)
Theorem distance_metric (p q r : Point R) :
  0 <= distance (Some p) (Some q)
  /\ distance (Some p) (Some q) = distance (Some q) (Some p)
  /\ (distance (Some p) (Some q) = 0 <-> p = q)
  /\ distance (Some p) (Some r)
     <= distance (Some p) (Some q) + distance (Some q) (Some r)
  /\ distanceSquared (Some p) (Some q)
     = distance (Some p) (Some q) * distance (Some p) (Some q).
Proof.
  destruct p as [px py], q as [qx qy], r as [rx ry].
  unfold distance, distanceSquared. cbn.
  split; [apply sqrt_pos |].
  split; [f_equal; ring |].
  split.
  { split.
    - intros H. apply sqrt_sum_sqr_zero in H. destruct H. f_equal; lra.
    - intros [= -> ->].
      replace ((qx - qx) * (qx - qx) + (qy - qy) * (qy - qy)) with 0 by ring.
      apply sqrt_0. }
  split; [| symmetry; apply sqrt_sqrt, sum_sqr_nonneg].
  set (a := qx - px). set (b := qy - py). set (c := rx - qx). set (d := ry - qy).
  replace (rx - px) with (a + c) by (unfold a, c; ring).
  replace (ry - py) with (b + d) by (unfold b, d; ring).
  set (u := sqrt (a * a + b * b)). set (w := sqrt (c * c + d * d)).
  assert (Hu : 0 <= u) by apply sqrt_pos.
  assert (Hw : 0 <= w) by apply sqrt_pos.
  assert (Hu2 : u * u = a * a + b * b) by apply sqrt_sqrt, sum_sqr_nonneg.
  assert (Hw2 : w * w = c * c + d * d) by apply sqrt_sqrt, sum_sqr_nonneg.
  apply sqrt_le_iff_square; [apply sum_sqr_nonneg | lra |].
  assert (Hcs : a * c + b * d <= u * w).
  { destruct (Rle_dec (a * c + b * d) 0) as [Hneg | Hpos].
    - apply Rle_trans with 0; [exact Hneg | apply Rmult_le_pos; assumption].
    - apply Rnot_le_lt in Hpos.
      apply Rsqr_incr_0_var; [| apply Rmult_le_pos; assumption].
      unfold Rsqr.
      replace (u * w * (u * w)) with ((u * u) * (w * w)) by ring.
      rewrite Hu2, Hw2.
      pose proof (Rle_0_sqr (a * d - b * c)) as Hsq. unfold Rsqr in Hsq.
      lra. }
  lra.
Qed.

(** X3.  With a draw of [Math.random()] in [[0, 1)] and [min < max],
    [randomRange] is in [[min, max)]; with integer bounds [min <= max],
    [randomInt] is an integer between [min] and [max], both included. *)
Theorem random_helpers_range (random : R) (min max : R) (imin imax : Z) :
  0 <= random < 1 ->
  min < max ->
  (imin <= imax)%Z ->
  min <= randomRange random min max < max
  /\ exists k : Z,
       randomInt random (IZR imin) (IZR imax) = IZR k
       /\ (imin <= k <= imax)%Z.
Proof.
  intros Hr Hlt Hi. split.
  - unfold randomRange. nra.
  - unfold randomInt, Math_floor.
    set (w := random * (IZR imax - IZR imin + 1)).
    assert (Hspan : 1 <= IZR imax - IZR imin + 1).
    { apply IZR_le in Hi. lra. }
    assert (Hw : 0 <= w < IZR imax - IZR imin + 1) by (unfold w; nra).
    exists (Zfloor w + imin)%Z. split; [rewrite plus_IZR; reflexivity |].
    destruct (Zfloor_bound w) as [Hlo Hhi].
    assert (H0 : (0 <= Zfloor w)%Z).
    { apply Z.lt_succ_r. apply lt_IZR. rewrite succ_IZR. lra. }
    assert (H1 : (Zfloor w < imax - imin + 1)%Z).
    { apply lt_IZR. rewrite plus_IZR, minus_IZR. lra. }
    lia.
Qed.

Lemma random_helpers_range_witness :
  2 <= randomRange (1 / 2) 2 4 < 4
  /\ exists k : Z, randomInt (1 / 2) (IZR 1) (IZR 6) = IZR k /\ (1 <= k <= 6)%Z.
Proof. apply random_helpers_range; [lra | lra | lia]. Defined.

(** X4.  For a center that is there, a non-negative radius and a second
    draw of [Math.random()] in [[0, 1)], [randomPointInCircle] returns a
    point of the disc: its distance to the center is at most the radius. *)
Theorem randomPointInCircle_in_disc (random1 random2 : R) (center : Point R)
    (radius : R) :
  0 <= random2 < 1 ->
  0 <= radius ->
  exists p,
    randomPointInCircle random1 random2 (Some center) radius = Return p
    /\ distance (Some center) (Some p) <= radius
    /\ pointInCircle (Some p) (Some (mkCircle (x center) (y center) radius))
       = true.
Proof.
  intros Hr Hrad. unfold randomPointInCircle. cbv zeta.
  eexists. split; [reflexivity |].
  set (angle := random1 * 2 * PI). set (d := sqrt random2 * radius).
  assert (Hs : 0 <= sqrt random2 <= 1).
  { split; [apply sqrt_pos |]. rewrite <- sqrt_1. apply sqrt_le_1_alt. lra. }
  assert (Hd : 0 <= d <= radius) by (unfold d; nra).
  assert (Hdist : forall a b, sqrt ((a + cos angle * d - a) * (a + cos angle * d - a)
                          + (b + sin angle * d - b) * (b + sin angle * d - b)) = d).
  { intros a b.
    replace ((a + cos angle * d - a) * (a + cos angle * d - a)
             + (b + sin angle * d - b) * (b + sin angle * d - b))
      with ((sin angle * sin angle + cos angle * cos angle) * (d * d)) by ring.
    pose proof (sin2_cos2 angle) as Hsc. unfold Rsqr in Hsc. rewrite Hsc.
    rewrite Rmult_1_l. apply sqrt_square. lra. }
  split.
  - unfold distance. cbn. rewrite Hdist. lra.
  - unfold pointInCircle, distance, centre. cbn. apply Rleb_true.
    replace ((x center - (x center + cos angle * d)) * (x center - (x center + cos angle * d))
             + (y center - (y center + sin angle * d)) * (y center - (y center + sin angle * d)))
      with ((x center + cos angle * d - x center) * (x center + cos angle * d - x center)
            + (y center + sin angle * d - y center) * (y center + sin angle * d - y center))
      by ring.
    rewrite Hdist. lra.
Qed.

Lemma randomPointInCircle_in_disc_witness :
  exists p,
    randomPointInCircle (1 / 4) (1 / 4) (Some (mkPoint 10 20)) 5 = Return p
    /\ distance (Some (mkPoint 10 20)) (Some p) <= 5
    /\ pointInCircle (Some p) (Some (mkCircle (x (mkPoint 10 20)) (y (mkPoint 10 20)) 5))
       = true.
Proof. apply randomPointInCircle_in_disc; lra. Defined.

(** X5.  [rectangleCollision] is symmetric and strict: a rectangle of
    positive size overlaps itself, and two rectangles that only share an
    edge do not collide, although [pointInRectangle] counts the points of
    the edges as inside. *)
Theorem rectangle_tests (r1 r2 : Rect R) :
  0 < width r1 ->
  0 < height r1 ->
  rectangleCollision (Some r1) (Some r2) = rectangleCollision (Some r2) (Some r1)
  /\ rectangleCollision (Some r1) (Some r1) = true
  /\ (rx r2 = rx r1 + width r1 ->
      rectangleCollision (Some r1) (Some r2) = false)
  /\ pointInRectangle (Some (mkPoint (rx r1 + width r1) (ry r1))) (Some r1) = true
  /\ pointInRectangle (Some (mkPoint (rx r1) (ry r1 + height r1))) (Some r1) = true.
Proof.
  intros Hw Hh. unfold rectangleCollision, pointInRectangle. cbn.
  split.
  { destruct (Rltb (rx r1) (rx r2 + width r2)),
             (Rltb (rx r2) (rx r1 + width r1)),
             (Rltb (ry r1) (ry r2 + height r2)),
             (Rltb (ry r2) (ry r1 + height r1)); reflexivity. }
  split.
  { replace (Rltb (rx r1) (rx r1 + width r1)) with true
      by (symmetry; apply Rltb_true; lra).
    replace (Rltb (ry r1) (ry r1 + height r1)) with true
      by (symmetry; apply Rltb_true; lra).
    reflexivity. }
  split.
  { intros ->.
    replace (Rltb (rx r1 + width r1) (rx r1 + width r1)) with false
      by (symmetry; apply Rltb_false; lra).
    rewrite andb_false_r. reflexivity. }
  split.
  - repeat (match goal with
            | |- context [Rleb ?a ?b] =>
                replace (Rleb a b) with true by (symmetry; apply Rleb_true; lra)
            end). reflexivity.
  - repeat (match goal with
            | |- context [Rleb ?a ?b] =>
                replace (Rleb a b) with true by (symmetry; apply Rleb_true; lra)
            end). reflexivity.
Qed.

Lemma rectangle_tests_witness :
  rectangleCollision (Some (mkRect 0 0 10 10)) (Some (mkRect 10 0 10 10)) = false
  /\ pointInRectangle (Some (mkPoint 10 0)) (Some (mkRect 0 0 10 10)) = true.
Proof.
  assert (Hw : 0 < width (mkRect 0 0 10 10)) by (cbn; lra).
  assert (Hh : 0 < height (mkRect 0 0 10 10)) by (cbn; lra).
  destruct (@rectangle_tests (mkRect 0 0 10 10) (mkRect 10 0 10 10) Hw Hh)
    as (_ & _ & Hedge & Hpoint & _).
  split.
  - apply Hedge. cbn. lra.
  - cbn in Hpoint. replace 10 with (0 + 10) at 1 by lra. exact Hpoint.
Defined.

End MathUtilsLaws.

Section NormalizeAngleTurns.

Import MathUtils.
Local Open Scope R_scope.

Lemma while_negative_turns (fuel : nat) :
  forall angle a : R,
    while_negative fuel angle = Some a ->
    exists k : Z, a = angle + IZR k * (2 * PI).
Proof.
  induction fuel as [| fuel IH]; intros angle a; cbn.
  - destruct (Rltb angle 0); [discriminate |].
    intros [= <-]. exists 0%Z. lra.
  - destruct (Rltb angle 0).
    + intros Ha. destruct (IH _ _ Ha) as [k Hk].
      exists (k + 1)%Z. rewrite plus_IZR. lra.
    + intros [= <-]. exists 0%Z. lra.
Qed.

Lemma while_too_large_turns (fuel : nat) :
  forall angle a : R,
    while_too_large fuel angle = Some a ->
    exists k : Z, a = angle + IZR k * (2 * PI).
Proof.
  induction fuel as [| fuel IH]; intros angle a; cbn.
  - destruct (Rleb (2 * PI) angle); [discriminate |].
    intros [= <-]. exists 0%Z. lra.
  - destruct (Rleb (2 * PI) angle).
    + intros Ha. destruct (IH _ _ Ha) as [k Hk].
      exists (k - 1)%Z. rewrite minus_IZR. lra.
    + intros [= <-]. exists 0%Z. lra.
Qed.

Lemma normalizeAngle_fuel_mono (fuel k : nat) (angle a : R) :
  normalizeAngle fuel angle = Some a ->
  normalizeAngle (fuel + k) angle = Some a.
Proof.
  unfold normalizeAngle.
  destruct (while_negative fuel angle) as [a1 |] eqn:E1; [| discriminate].
  intros E2.
  rewrite (while_negative_fuel_mono fuel angle k E1).
  apply while_too_large_fuel_mono. exact E2.
Qed.

(** X6.  In exact arithmetic [normalizeAngle] returns, after the
    iterations that the size of the angle calls for, the angle of
    [[0, 2 * PI)] that differs from its argument by a whole number of turns;
    an angle that already is in that interval is returned as it is. *)
Theorem normalizeAngle_whole_turns (angle : R) :
  exists (a : R) (k : Z),
    (forall fuel, (Player.angle_fuel angle <= fuel)%nat ->
                  normalizeAngle fuel angle = Some a)
    /\ 0 <= a < 2 * PI
    /\ a = angle + IZR k * (2 * PI)
    /\ (0 <= angle < 2 * PI -> a = angle).
Proof.
  destruct (normalizeAngle_enough_fuel angle) as (a & Hrun & Hrange & _).
  assert (Hturns : exists k : Z, a = angle + IZR k * (2 * PI)).
  { unfold normalizeAngle in Hrun.
    destruct (while_negative (Player.angle_fuel angle) angle) as [a1 |] eqn:E1;
      [| discriminate].
    destruct (while_negative_turns _ _ E1) as [k1 Hk1].
    destruct (while_too_large_turns _ _ Hrun) as [k2 Hk2].
    exists (k1 + k2)%Z. rewrite plus_IZR. lra. }
  destruct Hturns as [k Hk].
  exists a, k. split; [| split; [exact Hrange | split; [exact Hk |]]].
  - intros fuel Hfuel.
    replace fuel with (Player.angle_fuel angle + (fuel - Player.angle_fuel angle))%nat
      by lia.
    apply normalizeAngle_fuel_mono. exact Hrun.
  - intros [Hlo Hhi].
    assert (Hsame : normalizeAngle (Player.angle_fuel angle) angle = Some angle).
    { unfold normalizeAngle, Player.angle_fuel. cbn.
      replace (Rltb angle 0) with false by (symmetry; apply Rltb_false; lra).
      replace (Rleb (2 * PI) angle) with false
        by (symmetry; apply Rleb_false; lra).
      reflexivity. }
    rewrite Hsame in Hrun. congruence.
Qed.

End NormalizeAngleTurns.

(** ** Fish: movement, animation and behaviours *)

Section FishLaws.

Import Fish FishStates.
Local Open Scope R_scope.

Ltac split_ifs :=
  repeat match goal with
         | |- context [if ?c then _ else _] => destruct c eqn:?
         end.

(** X7.  When the scaled fish fits between the bounds,
    [_handleBoundsCollision] leaves it entirely inside them; a bounce keeps
    the size of each velocity component and turns it inwards. *)
Theorem handleBoundsCollision_inside (f : Fish.t) :
  let halfWidth := width f * scale f / 2 in
  let halfHeight := height f * scale f / 2 in
  bounds_left (bounds f) + 2 * halfWidth <= bounds_right (bounds f) ->
  bounds_top (bounds f) + 2 * halfHeight <= bounds_bottom (bounds f) ->
  let f' := _handleBoundsCollision f in
  bounds_left (bounds f) <= x f' - halfWidth
  /\ x f' + halfWidth <= bounds_right (bounds f)
  /\ bounds_top (bounds f) <= y f' - halfHeight
  /\ y f' + halfHeight <= bounds_bottom (bounds f)
  /\ Rabs (MathUtils.x (velocity f')) = Rabs (MathUtils.x (velocity f))
  /\ Rabs (MathUtils.y (velocity f')) = Rabs (MathUtils.y (velocity f))
  /\ (x f - halfWidth < bounds_left (bounds f) ->
      0 <= MathUtils.x (velocity f'))
  /\ (bounds_bottom (bounds f) < y f + halfHeight ->
      bounds_top (bounds f) <= y f - halfHeight ->
      MathUtils.y (velocity f') <= 0).
Proof.
  intros halfWidth halfHeight Hw Hh. unfold _handleBoundsCollision.
  fold halfWidth halfHeight. cbv zeta.
  destruct (Rltb (x f - halfWidth) (bounds_left (bounds f))) eqn:E1;
    [| destruct (Rltb (bounds_right (bounds f)) (x f + halfWidth)) eqn:E2];
    cbn;
    (destruct (Rltb (y f - halfHeight) (bounds_top (bounds f))) eqn:E3;
     [| destruct (Rltb (bounds_bottom (bounds f)) (y f + halfHeight)) eqn:E4]);
    cbn;
    repeat match goal with
           | H : Rltb _ _ = true |- _ => apply Rltb_true in H
           | H : Rltb _ _ = false |- _ => apply Rltb_false in H
           end;
    rewrite ?Rabs_Ropp, ?Rabs_Rabsolu;
    repeat split; try lra; try reflexivity;
    intros; try lra; try apply Rabs_pos;
    try (pose proof (Rabs_pos (MathUtils.y (velocity f))); lra).
Qed.

Lemma handleBoundsCollision_inside_witness :
  let f := (new (fun _ => 0) no_options) <| x := -5 |> in
  let f' := _handleBoundsCollision f in
  bounds_left (bounds f) <= x f' - width f * scale f / 2
  /\ x f' + width f * scale f / 2 <= bounds_right (bounds f).
Proof.
  cbv zeta.
  assert (Hw : bounds_left (bounds ((new (fun _ => 0) no_options) <| x := -5 |>))
               + 2 * (width ((new (fun _ => 0) no_options) <| x := -5 |>)
                      * scale ((new (fun _ => 0) no_options) <| x := -5 |>) / 2)
               <= bounds_right (bounds ((new (fun _ => 0) no_options) <| x := -5 |>))).
  { unfold new, _initializeMovement, _applyBehaviorModifications. evaluate. lra. }
  assert (Hh : bounds_top (bounds ((new (fun _ => 0) no_options) <| x := -5 |>))
               + 2 * (height ((new (fun _ => 0) no_options) <| x := -5 |>)
                      * scale ((new (fun _ => 0) no_options) <| x := -5 |>) / 2)
               <= bounds_bottom (bounds ((new (fun _ => 0) no_options) <| x := -5 |>))).
  { unfold new, _initializeMovement, _applyBehaviorModifications. evaluate. lra. }
  destruct (@handleBoundsCollision_inside _ Hw Hh) as (H1 & H2 & _).
  split; [exact H1 | exact H2].
Defined.

End FishLaws.

Section FishAnimation.

Import Fish FishStates.
Local Open Scope R_scope.

Ltac split_ifs :=
  repeat match goal with
         | |- context [if ?c then _ else _] => destruct c eqn:?
         end.

(** [a % b] for [0 <= a] and [0 < b] *)
Lemma remainder_range (a b : R) :
  0 <= a -> 0 < b -> 0 <= MathUtils.remainder a b < b.
Proof.
  intros Ha Hb. unfold MathUtils.remainder, MathUtils.Math_trunc.
  assert (Hq : 0 <= a / b).
  { apply Rmult_le_pos; [exact Ha | left; apply Rinv_0_lt_compat; exact Hb]. }
  replace (Rleb 0 (a / b)) with true by (symmetry; apply Rleb_true; exact Hq).
  destruct (Zfloor_bound (a / b)) as [Hlo Hhi].
  assert (Hab : a = a / b * b) by (field; lra).
  split; nra.
Qed.

Lemma frame_unchanged_behaviorModifications f :
  (frameCount (_applyBehaviorModifications f),
   currentFrame (_applyBehaviorModifications f))
  = (frameCount f, currentFrame f).
Proof. unfold _applyBehaviorModifications. split_ifs; reflexivity. Qed.

Lemma frame_unchanged_initializeMovement random f :
  (frameCount (_initializeMovement random f),
   currentFrame (_initializeMovement random f))
  = (frameCount f, currentFrame f).
Proof.
  unfold _initializeMovement. rewrite frame_unchanged_behaviorModifications.
  reflexivity.
Qed.

Lemma frame_unchanged_avoidance f :
  (frameCount (_applyAvoidanceBehavior f),
   currentFrame (_applyAvoidanceBehavior f))
  = (frameCount f, currentFrame f).
Proof.
  unfold _applyAvoidanceBehavior.
  generalize (threats f) as l. intros l. revert f.
  induction l as [| threat l IH]; intros f; [reflexivity |].
  cbn [fold_left]. rewrite IH. split_ifs; reflexivity.
Qed.

Lemma frame_unchanged_schooling st self f :
  (frameCount (_applySchoolingBehavior st self f),
   currentFrame (_applySchoolingBehavior st self f))
  = (frameCount f, currentFrame f).
Proof.
  unfold _applySchoolingBehavior.
  destruct (schoolmates f); [reflexivity |]. split_ifs; reflexivity.
Qed.

Lemma frame_unchanged_updateMovement st self random1 random2 deltaTime f :
  (frameCount (_updateMovement st self random1 random2 deltaTime f),
   currentFrame (_updateMovement st self random1 random2 deltaTime f))
  = (frameCount f, currentFrame f).
Proof.
  unfold _updateMovement.
  destruct (negb (isActive f) || isCaught f); [reflexivity |].
  match goal with
  | |- context [_updateBehaviorMovement _ _ _ _ _ ?h] =>
      assert (Hh : (frameCount h, currentFrame h) = (frameCount f, currentFrame f));
      [unfold _handleBoundsCollision; split_ifs; reflexivity |];
      rewrite <- Hh; generalize h as k; intros k
  end.
  unfold _updateBehaviorMovement, _applyErraticBehavior.
  split_ifs;
    rewrite ?frame_unchanged_schooling, ?frame_unchanged_avoidance; reflexivity.
Qed.

Lemma frame_updateAnimation deltaTime f :
  frameCount (_updateAnimation deltaTime f) = frameCount f
  /\ (0 < frameCount f ->
      0 <= currentFrame f < frameCount f ->
      0 <= currentFrame (_updateAnimation deltaTime f) < frameCount f).
Proof.
  unfold _updateAnimation.
  destruct (animationPaused f || Rltb 2 (lodLevel f)); [auto |].
  cbn. destruct (Rleb _ _); cbn; [| auto].
  split; [reflexivity |]. intros Hc Hf. apply remainder_range; lra.
Qed.

(** X8.  The animation frame of a fish is always a frame of its sheet: in
    every state reached from the constructor through the methods of the
    fish, when [frameCount] is positive, [0 <= currentFrame < frameCount]. *)
Theorem currentFrame_in_range (f : Fish.t) :
  reachable f ->
  0 < frameCount f ->
  0 <= currentFrame f < frameCount f.
Proof.
  intros Hreach.
  assert (Hgen : forall g h,
             (frameCount g, currentFrame g) = (frameCount h, currentFrame h) ->
             (0 < frameCount h -> 0 <= currentFrame h < frameCount h) ->
             0 < frameCount g -> 0 <= currentFrame g < frameCount g).
  { intros g h [= -> ->]. auto. }
  induction Hreach
    as [random options
       | st self random1 random2 deltaTime f Hreach IH
       | speed f Hreach IH | f Hreach IH | f Hreach IH
       | x' y' f Hreach IH | vx vy f Hreach IH | f Hreach IH
       | random f Hreach IH | behavior' f Hreach IH
       | schoolmates' f Hreach IH | threat f Hreach IH
       | distance f Hreach IH | f Hreach IH | enabled f Hreach IH
       | viewport f Hreach IH | event callback f Hreach IH
       | event callback f Hreach IH | f Hreach IH].
  - unfold new.
    match goal with
    | |- context [_initializeMovement ?r ?f] =>
        pose proof (frame_unchanged_initializeMovement r f) as Hi;
        generalize dependent (_initializeMovement r f)
    end.
    intros g [= -> ->]. cbn. lra.
  - unfold update. destruct (destroyed f); [exact IH |].
    destruct (frame_updateAnimation deltaTime f) as [Hc Hf].
    apply Hgen with (h := _updateAnimation deltaTime f);
      [apply frame_unchanged_updateMovement |].
    rewrite Hc. intros Hpos. apply Hf; auto.
  - apply Hgen with (h := f); [reflexivity | exact IH].
  - apply Hgen with (h := f); [reflexivity | exact IH].
  - apply Hgen with (h := f); [reflexivity | exact IH].
  - apply Hgen with (h := f); [reflexivity | exact IH].
  - apply Hgen with (h := f); [reflexivity | exact IH].
  - apply Hgen with (h := f); [reflexivity | exact IH].
  - apply Hgen with (h := f); [| exact IH].
    unfold escape. rewrite frame_unchanged_initializeMovement. reflexivity.
  - apply Hgen with (h := f); [| exact IH].
    unfold setBehavior. rewrite frame_unchanged_behaviorModifications.
    reflexivity.
  - apply Hgen with (h := f); [| exact IH].
    unfold addToSchool, setBehavior.
    rewrite frame_unchanged_behaviorModifications. reflexivity.
  - apply Hgen with (h := f); [| exact IH].
    unfold addThreat, setBehavior.
    rewrite frame_unchanged_behaviorModifications. reflexivity.
  - apply Hgen with (h := f); [| exact IH].
    unfold setLOD. split_ifs; reflexivity.
  - cbn. intros Hpos. lra.
  - apply Hgen with (h := f); [| exact IH].
    unfold setMobileMode. split_ifs; reflexivity.
  - apply Hgen with (h := f); [| exact IH].
    unfold adaptToViewport, setMobileMode. split_ifs; reflexivity.
  - apply Hgen with (h := f); [reflexivity | exact IH].
  - apply Hgen with (h := f); [reflexivity | exact IH].
  - apply Hgen with (h := f); [reflexivity | exact IH].
Qed.

(** A fresh fish after one tick of 200 ms: the frame has advanced. *)
Lemma currentFrame_in_range_witness :
  let f := update (fun _ => new (fun _ => 0) no_options) 0%nat 0 0 200
             (new (fun _ => 0) no_options) in
  0 <= currentFrame f < frameCount f.
Proof.
  cbv zeta. apply currentFrame_in_range.
  - apply reach_update, reach_new.
  - match goal with
    | |- 0 < frameCount (update ?st ?s ?r1 ?r2 ?d ?f) =>
        pose proof (frame_unchanged_updateMovement st s r1 r2 d
                      (_updateAnimation d f)) as [= Hc _];
        pose proof (proj1 (frame_updateAnimation d f)) as Hc';
        assert (Hd : destroyed f = false)
    end.
    { unfold new, _initializeMovement, _applyBehaviorModifications. evaluate.
      reflexivity. }
    unfold update. rewrite Hd, Hc, Hc'.
    unfold new, _initializeMovement, _applyBehaviorModifications. evaluate. lra.
Defined.

End FishAnimation.

Section FishBehaviour.

Import Fish FishStates.
Local Open Scope R_scope.

Ltac split_ifs :=
  repeat match goal with
         | |- context [if ?c then _ else _] => destruct c eqn:?
         end.

(** X9.  A fish that is caught, or that is not active, is not moved by
    [update]: its position, velocity, rotation and direction stay as they
    are, whatever the elapsed time.  In particular a fish stays where it
    was caught. *)
Theorem update_keeps_idle_fish (st : Store) (self : FishId)
    (random1 random2 deltaTime : R) (f : Fish.t) :
  isActive f = false \/ isCaught f = true ->
  let f' := update st self random1 random2 deltaTime f in
  x f' = x f /\ y f' = y f /\ velocity f' = velocity f
  /\ rotation f' = rotation f /\ direction f' = direction f
  /\ isActive f' = isActive f /\ isCaught f' = isCaught f.
Proof.
  intros Hidle. unfold update. cbv zeta.
  destruct (destroyed f); [repeat split |].
  assert (Ha : isActive (_updateAnimation deltaTime f) = isActive f
               /\ isCaught (_updateAnimation deltaTime f) = isCaught f
               /\ x (_updateAnimation deltaTime f) = x f
               /\ y (_updateAnimation deltaTime f) = y f
               /\ velocity (_updateAnimation deltaTime f) = velocity f
               /\ rotation (_updateAnimation deltaTime f) = rotation f
               /\ direction (_updateAnimation deltaTime f) = direction f).
  { unfold _updateAnimation. split_ifs; repeat split. }
  destruct Ha as (Ha1 & Ha2 & Ha3 & Ha4 & Ha5 & Ha6 & Ha7).
  unfold _updateMovement. rewrite Ha1, Ha2.
  replace (negb (isActive f) || isCaught f) with true
    by (destruct Hidle as [-> | ->]; [reflexivity | symmetry; apply orb_true_r]).
  repeat split; assumption.
Qed.

Lemma update_keeps_idle_fish_witness :
  let f := catch (new (fun _ => 0) no_options) in
  let f' := update (fun _ => f) 0%nat 0 0 16 f in
  x f' = x f /\ y f' = y f /\ velocity f' = velocity f.
Proof.
  cbv zeta.
  destruct (@update_keeps_idle_fish
              (fun _ => catch (new (fun _ => 0) no_options)) 0%nat 0 0 16
              (catch (new (fun _ => 0) no_options)))
    as (Hx & Hy & Hv & _).
  - right. reflexivity.
  - repeat split; assumption.
Defined.

Lemma speed_setBehavior_aggressive f :
  speed (setBehavior "aggressive" f) = speed f * 1.5
  /\ animationSpeed (setBehavior "aggressive" f) = animationSpeed f * 0.8
  /\ behavior (setBehavior "aggressive" f) = "aggressive"%string.
Proof. unfold setBehavior, _applyBehaviorModifications. cbn. repeat split. Qed.

(** X10.  The behaviour modifications are applied on top of the current
    values every time: [n] calls of [setBehavior('aggressive')] multiply the
    speed by [1.5 ^ n] and the frame time by [0.8 ^ n], and every
    [escape()] of an aggressive fish multiplies its speed by 1.5 again,
    while the velocity it sets off with has the length of the speed before
    that. *)
Theorem aggressive_speed_compounds (n : nat) (random : R) (f : Fish.t) :
  speed (Nat.iter n (setBehavior "aggressive") f) = speed f * 1.5 ^ n
  /\ animationSpeed (Nat.iter n (setBehavior "aggressive") f)
     = animationSpeed f * 0.8 ^ n
  /\ (behavior f = "aggressive"%string ->
      speed (escape random f) = speed f * 1.5
      /\ MathUtils.magnitude (Some (velocity (escape random f)))
         = Rabs (speed f)).
Proof.
  split; [| split].
  - induction n as [| n IH]; [cbn; lra |].
    rewrite Nat.iter_succ, (proj1 (speed_setBehavior_aggressive _)), IH.
    cbn [pow]. ring.
  - induction n as [| n IH]; [cbn; lra |].
    rewrite Nat.iter_succ, (proj1 (proj2 (speed_setBehavior_aggressive _))), IH.
    cbn [pow]. ring.
  - intros Hb. unfold escape, _initializeMovement, _applyBehaviorModifications.
    cbn. rewrite Hb. cbn. split; [reflexivity |].
    unfold MathUtils.velocityFromAngle, MathUtils.magnitude. cbn.
    set (a := MathUtils.randomRange random 0 (2 * PI)).
    replace (cos a * speed f * (cos a * speed f)
             + sin a * speed f * (sin a * speed f))
      with ((sin a * sin a + cos a * cos a) * (speed f * speed f)) by ring.
    pose proof (sin2_cos2 a) as Hsc. unfold Rsqr in Hsc. rewrite Hsc.
    rewrite Rmult_1_l. change (speed f * speed f) with (Rsqr (speed f)).
    apply sqrt_Rsqr_abs.
Qed.

Lemma avoidance_step_cap (f : Fish.t) (l : list (MathUtils.Circle R)) :
  0 <= speed f ->
  MathUtils.magnitude (Some (velocity f)) <= speed f * 2 ->
  let f' :=
    fold_left
      (fun f threat =>
         let distance :=
           MathUtils.distance (Some (position f))
                              (Some (MathUtils.centre threat)) in
         if Rltb distance (MathUtils.radius threat) then
           let avoidanceDirection :=
             MathUtils.Math_atan2 (y f - MathUtils.cy threat)
                                  (x f - MathUtils.cx threat) in
           let avoidanceForce :=
             (MathUtils.radius threat - distance) / MathUtils.radius threat in
           let vx := MathUtils.x (velocity f)
                     + cos avoidanceDirection * avoidanceForce * speed f in
           let vy := MathUtils.y (velocity f)
                     + sin avoidanceDirection * avoidanceForce * speed f in
           let f := f <| velocity := MathUtils.mkPoint vx vy |> in
           let currentSpeed := MathUtils.magnitude (Some (velocity f)) in
           if Rltb (speed f * 2) currentSpeed then
             f <| velocity :=
                    MathUtils.multiplyVector
                      (Some (MathUtils.normalize (Some (velocity f))))
                      (speed f * 2) |>
           else f
         else f)
      l f in
  speed f' = speed f
  /\ MathUtils.magnitude (Some (velocity f')) <= speed f * 2.
Proof.
  revert f. induction l as [| threat l IH]; intros f Hs Hm; cbn [fold_left].
  - cbv zeta. auto.
  - cbv zeta.
    match goal with
    | |- context [fold_left ?step l ?g] =>
        assert (Hg : speed g = speed f
                     /\ MathUtils.magnitude (Some (velocity g)) <= speed f * 2)
    end.
    { destruct (Rltb _ (MathUtils.radius threat)); [| auto].
      cbn -[MathUtils.multiplyVector MathUtils.normalize MathUtils.magnitude].
      destruct (Rltb (speed f * 2) _) eqn:E;
        cbn -[MathUtils.multiplyVector MathUtils.normalize MathUtils.magnitude].
      - split; [reflexivity |].
        apply Rltb_true in E.
        rewrite magnitude_multiplyVector, magnitude_normalize.
        + rewrite Rabs_pos_eq; lra.
        + lra.
      - split; [reflexivity |]. apply Rltb_false in E. exact E. }
    destruct Hg as [Hg1 Hg2].
    match goal with
    | |- context [fold_left ?step l ?g] =>
        destruct (IH g) as [H1 H2]; [rewrite Hg1; exact Hs | rewrite Hg1; exact Hg2 |]
    end.
    cbv zeta in H1, H2. rewrite H1, Hg1 in *. split; [reflexivity | exact H2].
Qed.

(** X11.  The avoidance behaviour caps the speed: for a fish of
    non-negative [speed] whose velocity is not longer than twice that
    speed, the velocity after [_applyAvoidanceBehavior] is not longer than
    twice the speed either, however many threats push the fish. *)
Theorem avoidance_speed_cap (f : Fish.t) :
  0 <= speed f ->
  MathUtils.magnitude (Some (velocity f)) <= speed f * 2 ->
  speed (_applyAvoidanceBehavior f) = speed f
  /\ MathUtils.magnitude (Some (velocity (_applyAvoidanceBehavior f)))
     <= speed f * 2.
Proof.
  intros Hs Hm. unfold _applyAvoidanceBehavior.
  apply (avoidance_step_cap f (threats f) Hs Hm).
Qed.

(** A caught fish with a threat at the origin. *)
Lemma avoidance_speed_cap_witness :
  let f := addThreat (MathUtils.mkCircle 0 0 50)
             (catch (new (fun _ => 0) no_options)) in
  MathUtils.magnitude (Some (velocity (_applyAvoidanceBehavior f)))
  <= speed f * 2.
Proof.
  cbv zeta. apply avoidance_speed_cap.
  - unfold addThreat, setBehavior, _applyBehaviorModifications, catch, new,
      _initializeMovement.
    evaluate. lra.
  - unfold addThreat, setBehavior, _applyBehaviorModifications, catch, new,
      _initializeMovement, MathUtils.magnitude.
    evaluate.
    replace (0 * 0 + 0 * 0) with 0 by lra. rewrite sqrt_0. lra.
Defined.

End FishBehaviour.

(** ** Player: casting, catching, power-ups *)

Section PlayerLaws.

Import Player PlayerStates.
Local Open Scope R_scope.

Ltac split_ifs :=
  repeat match goal with
         | |- context [if ?c then _ else _] => destruct c eqn:?
         end.

Lemma Player_normalizeAngle_range (angle : R) :
  0 <= normalizeAngle angle < 2 * PI.
Proof.
  destruct (normalizeAngle_enough_fuel angle) as (a & _ & Hrange & ->).
  exact Hrange.
Qed.

Lemma magnitude_polar (r a : R) :
  MathUtils.magnitude (Some (MathUtils.mkPoint (r * cos a) (r * sin a)))
  = Rabs r.
Proof.
  unfold MathUtils.magnitude. cbn.
  replace (r * cos a * (r * cos a) + r * sin a * (r * sin a))
    with ((sin a * sin a + cos a * cos a) * (r * r)) by ring.
  pose proof (sin2_cos2 a) as Hsc. unfold Rsqr in Hsc. rewrite Hsc.
  rewrite Rmult_1_l. change (r * r) with (Rsqr r). apply sqrt_Rsqr_abs.
Qed.

(** X12.  [cast(power, angle)] on a player that is neither destroyed nor
    casting nor reeling starts a cast: [isCasting] is set, [lineBroken] is
    cleared, the cast is counted, the power is clamped to
    [[0, maxCastingPower]], the angle is brought to [[0, 2 * PI)], also
    after the wind has moved it, the hook leaves with the speed
    [castingPower], and the fish are left alone. *)
Theorem cast_starts (random power angle : R) (p : Player.t) (st : Fish.Store) :
  destroyed p = false ->
  isCasting p = false ->
  isReeling p = false ->
  0 <= maxCastingPower p ->
  let o := cast random power angle p st in
  let p' := player o in
  isCasting p' = true
  /\ isReeling p' = false
  /\ lineBroken p' = false
  /\ castCount p' = S (castCount p)
  /\ 0 <= castingPower p' <= maxCastingPower p
  /\ (0 <= power <= maxCastingPower p -> castingPower p' = power)
  /\ 0 <= castingAngle p' < 2 * PI
  /\ MathUtils.magnitude (Some (hookVelocity p')) = castingPower p'
  /\ fishes o = st
  /\ calls o = _emit (EvCastStarted (castingPower p') (castingAngle p')
                                    (castCount p')) p.
Proof.
  intros Hd Hc Hr Hmax. unfold cast. rewrite Hd, Hc, Hr. cbn [orb].
  cbv zeta.
  destruct (@MathUtils_clamp_range power 0 (maxCastingPower p) Hmax)
    as (Hclamp & Hid).
  destruct (Rltb 0 (windForce (weatherEffects _))) eqn:Ew;
    cbn -[normalizeAngle MathUtils.clamp MathUtils.magnitude];
    rewrite ?Hr;
    (repeat split;
     [ apply Hclamp | apply Hclamp | exact Hid
     | apply Player_normalizeAngle_range | apply Player_normalizeAngle_range
     | rewrite magnitude_polar; apply Rabs_pos_eq; apply Hclamp ]).
Qed.

(** A fresh player casts with power 5 at the angle 1. *)
Lemma cast_starts_witness :
  let o := cast 0 5 1 (new no_options) default_store in
  isCasting (player o) = true
  /\ castCount (player o) = S (castCount (new no_options))
  /\ 0 <= castingAngle (player o) < 2 * PI
  /\ castingPower (player o) = 5.
Proof.
  cbv zeta.
  assert (Hd : destroyed (new no_options) = false)
    by (unfold new, _applyEnvironmentEffects; evaluate; reflexivity).
  assert (Hc : isCasting (new no_options) = false)
    by (unfold new, _applyEnvironmentEffects; evaluate; reflexivity).
  assert (Hr : isReeling (new no_options) = false)
    by (unfold new, _applyEnvironmentEffects; evaluate; reflexivity).
  assert (Hmax : maxCastingPower (new no_options) = 10)
    by (unfold new, _applyEnvironmentEffects; evaluate; reflexivity).
  assert (Hm : 0 <= maxCastingPower (new no_options)) by (rewrite Hmax; lra).
  destruct (@cast_starts 0 5 1 (new no_options) default_store Hd Hc Hr Hm)
    as (H1 & _ & _ & H4 & _ & H6 & H7 & _).
  split; [exact H1 |]. split; [exact H4 |]. split; [exact H7 |].
  apply H6. rewrite Hmax. lra.
Defined.

End PlayerLaws.

Section PlayerCaught.

Import Player PlayerStates.
Local Open Scope R_scope.

Ltac split_ifs :=
  repeat match goal with
         | |- context [if ?c then _ else _] => destruct c eqn:?
         end.

Lemma caughtFish_line_state p q :
  line_state p = line_state q -> caughtFish p = caughtFish q.
Proof. unfold line_state. intros [= _ _ _ H]. exact H. Qed.

Lemma caughtFish_updateHookPhysics random deltaTime p st :
  let p' := player (_updateHookPhysics random deltaTime p st) in
  caughtFish p' = caughtFish p \/ caughtFish p' = [].
Proof.
  cbv zeta. unfold _updateHookPhysics.
  destruct (negb (isCasting p) && negb (isReeling p)); [left; reflexivity |].
  cbv zeta. rewrite player_bind.
  match goal with
  | |- context [Rltb ?a ?b] => destruct (Rltb a b)
  end.
  - right. reflexivity.
  - left. cbn [ret player fishes].
    match goal with
    | |- context [(0 <? ?n)%nat] => destruct (0 <? n)%nat
    end; cbn [ret player];
      apply caughtFish_line_state;
      rewrite ?line_state_applyFishResistance, line_state_updateLineTension,
        line_state_updateLineLength;
      apply line_state_moveHook.
Qed.

Lemma caughtFish_updateReeling deltaTime p st :
  let p' := player (_updateReeling deltaTime p st) in
  caughtFish p' = caughtFish p \/ caughtFish p' = [].
Proof.
  cbv zeta. unfold _updateReeling.
  destruct (negb (isReeling p)); [left; reflexivity |].
  match goal with
  | |- context [Rleb ?a ?b] => destruct (Rleb a b)
  end.
  - right. reflexivity.
  - left. reflexivity.
Qed.

Lemma caughtFish_update random now deltaTime p st :
  let p' := player (update random now deltaTime p st) in
  caughtFish p' = caughtFish p \/ caughtFish p' = [].
Proof.
  cbv zeta. unfold update.
  destruct (destroyed p); [left; reflexivity |].
  rewrite !player_bind.
  rewrite (caughtFish_line_state (line_state_updatePowerUps _ _ _ _)).
  match goal with
  | |- context [_updateReeling deltaTime (player ?o1) (fishes ?o1)] =>
      destruct (caughtFish_updateReeling deltaTime (player o1) (fishes o1))
        as [H2 | H2]; cbv zeta in H2; rewrite H2; [| right; reflexivity]
  end.
  match goal with
  | |- context [_updateHookPhysics random deltaTime ?q st] =>
      destruct (caughtFish_updateHookPhysics random deltaTime q st)
        as [H1 | H1]; cbv zeta in H1; rewrite H1; [left | right]; reflexivity
  end.
Qed.

Lemma includes_In id l : includes id l = true <-> In id l.
Proof.
  unfold includes. rewrite existsb_exists. split.
  - intros (a & Ha & E). apply Nat.eqb_eq in E. subst. exact Ha.
  - intros H. exists id. split; [exact H | apply Nat.eqb_refl].
Qed.

Lemma NoDup_app_last (id : Fish.FishId) (l : list Fish.FishId) :
  NoDup l -> ~ In id l -> NoDup (l ++ [id]).
Proof.
  intros Hl Hid. induction Hl as [| a l Ha Hl IH]; cbn.
  - constructor; [intros [] | constructor].
  - constructor.
    + rewrite in_app_iff. intros [H | [H | []]]; [exact (Ha H) |].
      apply Hid. left. symmetry. exact H.
    + apply IH. intros H. apply Hid. right. exact H.
Qed.

Lemma NoDup_splice1 (i : nat) (l : list Fish.FishId) :
  NoDup l -> NoDup (splice1 i l).
Proof.
  intros Hl. revert i. induction Hl as [| a l Ha Hl IH]; intros i.
  - destruct i; constructor.
  - destruct i; cbn; [exact Hl |].
    constructor; [| apply IH]. intros H. apply Ha. eapply In_splice1, H.
Qed.

(** X13.  The caught list of a player never holds a fish twice: in every
    state reached from the constructor through the public methods, called
    with any arguments and any fish objects, [caughtFish] has no
    duplicate. *)
Theorem caughtFish_NoDup (p : Player.t) :
  reachable p -> NoDup (caughtFish p).
Proof.
  induction 1
    as [options
       | random power angle st p Hreach IH
       | random startTouch endTouch st p Hreach IH
       | st p Hreach IH | st p Hreach IH | st p Hreach IH
       | random now deltaTime st p Hreach IH
       | random fish st p Hreach IH
       | random1 random2 fish escapeChance st p Hreach IH
       | now powerUp st p Hreach IH
       | hookType' p Hreach IH | environment' p Hreach IH
       | weather' p Hreach IH | st p Hreach IH
       | event callback p Hreach IH | event callback p Hreach IH
       | random st p Hreach IH].
  - unfold new, _applyEnvironmentEffects. split_ifs; constructor.
  - unfold cast. split_ifs; exact IH.
  - unfold handleTouchCast, cast. split_ifs; exact IH.
  - unfold startReeling. split_ifs; exact IH.
  - unfold stopReeling. split_ifs; exact IH.
  - unfold handleTouchReel, startReeling. split_ifs; exact IH.
  - destruct (caughtFish_update random now deltaTime p st) as [H | H];
      cbv zeta in H; rewrite H; [exact IH | constructor].
  - unfold catchFish. destruct fish as [id |]; [| exact IH].
    destruct (destroyed p); [exact IH |].
    destruct (Fish.isCaught (st id)); [exact IH |].
    destruct (includes id (caughtFish p)) eqn:E; [exact IH |].
    cbn [orb]. cbv zeta.
    destruct (Rltb _ random); [exact IH |].
    cbn. apply NoDup_app_last; [exact IH |].
    intros Hin. apply includes_In in Hin. congruence.
  - unfold handleFishEscape.
    destruct (Rltb random1 _); [| exact IH].
    destruct (indexOf fish (caughtFish p)); [| exact IH].
    cbn. apply NoDup_splice1. exact IH.
  - unfold applyPowerUp. destruct powerUp as [powerUp |]; [| exact IH].
    destruct (destroyed p); [exact IH |].
    cbv zeta.
    destruct (effect_maxLineLength (effect powerUp));
      destruct (effect_reelingSpeed (effect powerUp));
      destruct (effect_castingPower (effect powerUp)); exact IH.
  - exact IH.
  - unfold setEnvironment, _applyEnvironmentEffects. split_ifs; exact IH.
  - exact IH.
  - constructor.
  - exact IH.
  - exact IH.
  - constructor.
Qed.

(** A player that has cast and caught the fish 3. *)
Lemma caughtFish_NoDup_witness :
  let p1 := player (cast 0 5 1 (new no_options) default_store) in
  let p2 := player (catchFish 0 (Some 3%nat) p1 default_store) in
  NoDup (caughtFish p2).
Proof.
  cbv zeta. apply caughtFish_NoDup.
  apply reach_catchFish, reach_cast, reach_new.
Defined.

End PlayerCaught.

Section PlayerLineBound.

Import Player PlayerStates.
Local Open Scope R_scope.

Ltac split_ifs :=
  repeat match goal with
         | |- context [if ?c then _ else _] => destruct c eqn:?
         end.






End PlayerLineBound.

Section PlayerScore.

Import Player PlayerStates.
Local Open Scope R_scope.

Ltac split_ifs :=
  repeat match goal with
         | |- context [if ?c then _ else _] => destruct c eqn:?
         end.

Lemma upd_same (st : Fish.Store) (id : Fish.FishId) (f : Fish.t) :
  Fish.upd st id f id = f.
Proof. unfold Fish.upd. rewrite Nat.eqb_refl. reflexivity. Qed.

(** X15.  A fish is counted when it is caught and counted again when the
    reeling completes: after a successful [catchFish] on a player with an
    empty caught list, [totalScore] and [fishesCaught] have risen by the
    score of the fish and by 1, and [_completeReeling] then adds the same
    score and 1 once more before it empties the caught list. *)
Theorem reeled_fish_counted_twice (random : R) (fish : Fish.FishId)
    (p : Player.t) (st : Fish.Store) :
  destroyed p = false ->
  Fish.isCaught (st fish) = false ->
  caughtFish p = [] ->
  random <= hookEffectiveness p * fishActivity (weatherEffects p) * 0.8 ->
  let score := Fish.getScore (Fish.catch (st fish)) in
  let o1 := catchFish random (Some fish) p st in
  let o2 := _completeReeling (player o1) (fishes o1) in
  caughtFish (player o1) = [fish]
  /\ fishesCaught (player o1) = S (fishesCaught p)
  /\ totalScore (player o1) = totalScore p + score
  /\ caughtFish (player o2) = []
  /\ fishesCaught (player o2) = S (S (fishesCaught p))
  /\ totalScore (player o2) = totalScore p + score + score.
Proof.
  intros Hd Hc Hl Hr. cbv zeta. unfold catchFish.
  rewrite Hd, Hc, Hl. cbn [includes existsb orb].
  replace (Rltb (hookEffectiveness p * fishActivity (weatherEffects p) * 0.8)
                random)
    with false by (symmetry; apply Rltb_false; exact Hr).
  unfold _completeReeling. cbn. rewrite Hl. cbn. rewrite !upd_same.
  repeat split; try reflexivity. f_equal. lia.
Qed.

Lemma reeled_fish_counted_twice_witness :
  let p := new no_options in
  let o1 := catchFish 0 (Some 3%nat) p default_store in
  let o2 := _completeReeling (player o1) (fishes o1) in
  fishesCaught (player o1) = S (fishesCaught p)
  /\ fishesCaught (player o2) = S (S (fishesCaught p)).
Proof.
  cbv zeta.
  assert (Hd : destroyed (new no_options) = false)
    by (unfold new, _applyEnvironmentEffects; evaluate; reflexivity).
  assert (Hc : Fish.isCaught (default_store 3%nat) = false)
    by (unfold default_store, Fish.new, Fish._initializeMovement,
          Fish._applyBehaviorModifications; evaluate; reflexivity).
  assert (Hl : caughtFish (new no_options) = [])
    by (unfold new, _applyEnvironmentEffects; evaluate; reflexivity).
  assert (Hr : 0 <= hookEffectiveness (new no_options)
                    * fishActivity (weatherEffects (new no_options)) * 0.8)
    by (unfold new, _applyEnvironmentEffects; evaluate; lra).
  destruct (@reeled_fish_counted_twice 0 3%nat (new no_options) default_store
              Hd Hc Hl Hr) as (_ & H1 & _ & _ & H2 & _).
  split; [exact H1 | exact H2].
Defined.

Lemma splice1_indexOf_removes id l i :
  NoDup l -> indexOf id l = Some i ->
  ~ In id (splice1 i l) /\ S (List.length (splice1 i l)) = List.length l.
Proof.
  intros Hl. revert i. induction Hl as [| a l Ha Hl IH]; intros i; cbn;
    [discriminate |].
  destruct (Nat.eqb a id) eqn:E.
  - apply Nat.eqb_eq in E. subst. intros [= <-]. cbn. auto.
  - destruct (indexOf id l) as [j |]; [| discriminate].
    intros [= <-]. cbn. destruct (IH j eq_refl) as [Hn Hlen].
    split; [| lia].
    intros [H | H]; [| exact (Hn H)].
    apply Nat.eqb_neq in E. contradiction.
Qed.

(** X16.  [handleFishEscape] on a fish of the caught list, when the draw
    falls below the escape chance (0.1 when none is given), takes the fish
    out of the list, releases it, lowers [fishesCaught] by one and keeps
    [totalScore] from going below 0; for a fish that is not in the list, or
    when the draw is not below the chance, nothing changes and no listener
    is called. *)
Theorem handleFishEscape_removes (random1 random2 : R) (fish : Fish.FishId)
    (escapeChance : option R) (p : Player.t) (st : Fish.Store) :
  NoDup (caughtFish p) ->
  let chance := match escapeChance with Some c => c | None => 0.1 end in
  let o := handleFishEscape random1 random2 fish escapeChance p st in
  (random1 < chance -> In fish (caughtFish p) ->
     ~ In fish (caughtFish (player o))
     /\ S (List.length (caughtFish (player o))) = List.length (caughtFish p)
     /\ fishesCaught (player o) = Nat.pred (fishesCaught p)
     /\ 0 <= totalScore (player o)
     /\ Fish.isCaught (fishes o fish) = false
     /\ Fish.isActive (fishes o fish) = true)
  /\ (chance <= random1 \/ ~ In fish (caughtFish p) -> o = ret p st).
Proof.
  intros Hnd. cbv zeta. unfold handleFishEscape. split.
  - intros Hr Hin.
    replace (Rltb random1 match escapeChance with Some c => c | None => 0.1 end)
      with true by (symmetry; apply Rltb_true; exact Hr).
    destruct (indexOf fish (caughtFish p)) as [i |] eqn:Ei;
      [| exfalso; exact (indexOf_not_In _ _ Ei Hin)].
    destruct (splice1_indexOf_removes fish Hnd Ei) as [Hn Hlen].
    cbn. rewrite upd_same.
    split; [exact Hn |]. split; [exact Hlen |]. split; [reflexivity |].
    split; [apply Rmax_l |].
    destruct (escape_released random2 (st fish)) as [H1 H2]. auto.
  - intros [Hr | Hnin].
    + replace (Rltb random1 match escapeChance with Some c => c | None => 0.1 end)
        with false by (symmetry; apply Rltb_false; exact Hr).
      reflexivity.
    + destruct (Rltb random1 _); [| reflexivity].
      destruct (indexOf fish (caughtFish p)) as [i |] eqn:Ei; [| reflexivity].
      exfalso. exact (Hnin (indexOf_In _ _ Ei)).
Qed.

(** The fish 3, caught by a fresh player, escapes. *)
Lemma handleFishEscape_removes_witness :
  let p := player (catchFish 0 (Some 3%nat) (new no_options) default_store) in
  let o := handleFishEscape 0 0 3%nat None p default_store in
  ~ In 3%nat (caughtFish (player o)).
Proof.
  cbv zeta.
  assert (Hl : caughtFish
                 (player (catchFish 0 (Some 3%nat) (new no_options)
                            default_store)) = [3%nat]).
  { unfold catchFish, new, _applyEnvironmentEffects, default_store, Fish.new,
      Fish._initializeMovement, Fish._applyBehaviorModifications.
    evaluate. reflexivity. }
  assert (Hnd : NoDup (caughtFish
                  (player (catchFish 0 (Some 3%nat) (new no_options)
                             default_store)))).
  { rewrite Hl. repeat constructor. intros []. }
  apply (proj1 (@handleFishEscape_removes 0 0 3%nat None _ default_store Hnd)).
  - lra.
  - rewrite Hl. left. reflexivity.
Defined.

End PlayerScore.

Section PlayerPowerUps.

Import Player PlayerStates.
Local Open Scope R_scope.

Lemma lookup_delete_effect key l :
  lookup_effect key (delete_effect key l) = None.
Proof.
  unfold delete_effect. induction l as [| [k e] l IH]; [reflexivity |].
  cbn. destruct (String.eqb k key) eqn:E; cbn; [exact IH |].
  rewrite E. exact IH.
Qed.

(** X17.  A power-up is undone by fixed defaults, not by the values it
    replaced: [applyPowerUp] writes the [maxLineLength] and the
    [castingPower] of the effect into the player; until the duration has
    elapsed [_updatePowerUps] keeps them; once it has, the power-up and its
    entry in [powerUpEffects] are removed and [maxLineLength] becomes 300,
    whatever it was before the power-up, while [maxCastingPower] keeps the
    value of the power-up. *)
Theorem powerUp_expiry_defaults (now later deltaTime : R) (powerUp : PowerUp)
    (v c : R) (p : Player.t) (st : Fish.Store) :
  destroyed p = false ->
  activePowerUps p = [] ->
  effect_maxLineLength (effect powerUp) = Some v ->
  v <> 0 ->
  effect_castingPower (effect powerUp) = Some c ->
  let o1 := applyPowerUp now (Some powerUp) p st in
  let o2 := _updatePowerUps later deltaTime (player o1) (fishes o1) in
  maxLineLength (player o1) = v
  /\ maxCastingPower (player o1) = c
  /\ (later - now < duration powerUp ->
      maxLineLength (player o2) = v
      /\ List.length (activePowerUps (player o2)) = 1%nat)
  /\ (duration powerUp <= later - now ->
      activePowerUps (player o2) = []
      /\ lookup_effect (type powerUp) (powerUpEffects (player o2)) = None
      /\ maxLineLength (player o2) = 300
      /\ maxCastingPower (player o2) = c).
Proof.
  intros Hd Ha Hv Hv0 Hc. cbv zeta. unfold applyPowerUp, _updatePowerUps.
  rewrite Hd, Hv, Hc. cbv zeta.
  destruct (effect_reelingSpeed (effect powerUp)) as [w |] eqn:Hw;
    cbn; rewrite Ha; cbn;
    (split; [reflexivity |]); (split; [reflexivity |]);
    (split;
     [ intros Hlt;
       replace (Rleb (duration powerUp) (later - now)) with false
         by (symmetry; apply Rleb_false; exact Hlt);
       cbn; split; reflexivity
     | intros Hge;
       replace (Rleb (duration powerUp) (later - now)) with true
         by (symmetry; apply Rleb_true; exact Hge);
       rewrite Hv, ?Hw; cbn;
       replace (Reqb v 0) with false by (symmetry; apply Reqb_false; exact Hv0);
       cbn; try destruct (Reqb w 0); cbn;
       (split; [reflexivity |]); (split; [apply lookup_delete_effect |]);
       split; reflexivity ]).
Qed.

(** A line power-up of 10 s on a fresh player in shallow water, whose own
    limit is 240. *)
Lemma powerUp_expiry_defaults_witness :
  let powerUp := mkPowerUp "line" (mkEffect (Some 500) None (Some 20)) 10000 0 in
  let p := new no_options in
  let o1 := applyPowerUp 1000 (Some powerUp) p default_store in
  let o2 := _updatePowerUps 11000 16 (player o1) (fishes o1) in
  maxLineLength p = 240
  /\ maxLineLength (player o1) = 500
  /\ maxLineLength (player o2) = 300
  /\ maxCastingPower (player o2) = 20.
Proof.
  cbv zeta.
  assert (Hd : destroyed (new no_options) = false)
    by (unfold new, _applyEnvironmentEffects; evaluate; reflexivity).
  assert (Ha : activePowerUps (new no_options) = [])
    by (unfold new, _applyEnvironmentEffects; evaluate; reflexivity).
  assert (Hv0 : 500 <> 0) by lra.
  destruct (@powerUp_expiry_defaults 1000 11000 16
              (mkPowerUp "line" (mkEffect (Some 500) None (Some 20)) 10000 0)
              500 20 (new no_options) default_store Hd Ha eq_refl Hv0 eq_refl)
    as (H1 & _ & _ & H2).
  destruct H2 as (_ & _ & H3 & H4); [cbn; lra |].
  split; [| split; [exact H1 | split; [exact H3 | exact H4]]].
  unfold new, _applyEnvironmentEffects. evaluate. lra.
Defined.

End PlayerPowerUps.

Section PlayerStatistics.

Import Player PlayerStates.
Local Open Scope R_scope.

(** X18.  [getStatistics()] and [calculateSkill()] never return a value:
    each begins by calling the other, so whatever the depth of the call
    stack, the chain of calls is still descending when the stack is
    exhausted.  This holds for every player, fresh or not. *)
Theorem getStatistics_never_returns (depth : nat) (p : Player.t) :
  getStatistics depth p = None /\ calculateSkill depth p = None.
Proof.
  induction depth as [| depth [IHs IHk]]; [split; reflexivity |].
  split; cbn [getStatistics calculateSkill].
  - rewrite IHk. reflexivity.
  - rewrite IHs. reflexivity.
Qed.

End PlayerStatistics.

(** ** Game: combo, frame rate, pause and restart *)

Section GameLaws.

Import Game.
Local Open Scope R_scope.

Ltac split_ifs :=
  repeat match goal with
         | |- context [if ?c then _ else _] => destruct c eqn:?
         end.

(** X19.  Every catch adds 0.1 to the combo multiplier, which starts at 1 for
    the first catch and is capped at 3, the cap being reached with the 21st
    catch of a combo; once more than [comboTimeout] has passed since the
    last catch, [_updateGameMechanics] ends the combo and puts the
    multiplier back to 1. *)
Theorem combo_multiplier (now later deltaTime : R) (g : Game.t) :
  let g' := _updateCombo now g in
  comboCount g' = S (comboCount g)
  /\ lastComboTime g' = now
  /\ comboMultiplier g' = Rmin (1 + INR (comboCount g) * 0.1) 3
  /\ 1 <= comboMultiplier g' <= 3
  /\ ((20 <= comboCount g)%nat -> comboMultiplier g' = 3)
  /\ (comboTimeout g < later - now ->
      comboCount (_updateGameMechanics later deltaTime g') = 0%nat
      /\ comboMultiplier (_updateGameMechanics later deltaTime g') = 1)
  /\ (later - now <= comboTimeout g ->
      _updateGameMechanics later deltaTime g' = g').
Proof.
  cbv zeta. unfold _updateCombo. cbv zeta. cbn [comboCount lastComboTime].
  pose proof (pos_INR (comboCount g)) as Hpos.
  assert (Hm : 1.0 + (INR (S (comboCount g)) - 1) * 0.1
               = 1 + INR (comboCount g) * 0.1) by (rewrite S_INR; lra).
  split; [reflexivity |]. split; [reflexivity |].
  split; [cbn -[INR]; rewrite Hm; f_equal; lra |].
  split.
  { cbn -[INR]. rewrite Hm. unfold Rmin.
    destruct (Rle_dec _ _); lra. }
  split.
  { intros H20. cbn -[INR]. rewrite Hm.
    apply le_INR in H20. cbn [INR] in H20.
    replace (INR 20) with 20 in H20 by (cbn; lra).
    unfold Rmin. destruct (Rle_dec _ _); lra. }
  unfold _updateGameMechanics. cbn -[INR Nat.ltb].
  split.
  - intros Hlt.
    replace (Rltb (comboTimeout g) (later - now)) with true
      by (symmetry; apply Rltb_true; exact Hlt).
    cbn. split; [reflexivity | lra].
  - intros Hle.
    replace (Rltb (comboTimeout g) (later - now)) with false
      by (symmetry; apply Rltb_false; exact Hle).
    rewrite andb_false_r. reflexivity.
Qed.

Lemma fold_shift_length (l : list R) :
  List.length (shift l) = Nat.pred (List.length l).
Proof. destruct l; reflexivity. Qed.

(** X20.  [_updateFPS] counts the frame and keeps a window of at most 60
    samples: a history of at most 60 samples grows by one until it holds
    60 and stays at 60 from then on.  The adaptive quality it may trigger
    never takes [maxFish] below 4. *)
Theorem updateFPS_window (deltaTime : R) (g : Game.t) :
  (List.length (fpsHistory g) <= 60)%nat ->
  let g' := _updateFPS deltaTime g in
  frameCount g' = S (frameCount g)
  /\ List.length (fpsHistory g')
     = Nat.min (S (List.length (fpsHistory g))) 60
  /\ ((4 <= maxFish g)%nat -> (4 <= maxFish g' <= maxFish g)%nat)
  /\ (adaptiveQuality g = false -> maxFish g' = maxFish g).
Proof.
  intros Hlen. cbv zeta. unfold _updateFPS, _adaptQuality. cbv zeta.
  cbn -[Nat.ltb Nat.min INR].
  rewrite length_app. cbn [List.length].
  split_ifs; cbn -[Nat.ltb Nat.min INR] in *;
    rewrite ?fold_shift_length, ?length_app; cbn [List.length];
    repeat match goal with
           | H : (_ <? _)%nat = true |- _ => apply Nat.ltb_lt in H
           | H : (_ <? _)%nat = false |- _ => apply Nat.ltb_ge in H
           | H : _ && _ = true |- _ => apply andb_true_iff in H; destruct H
           end;
    repeat split; try lia; try reflexivity; intros; try lia; try congruence.
Qed.

Lemma updateFPS_window_witness :
  let g' := _updateFPS 16 Examples.fresh_game in
  frameCount g' = S (frameCount Examples.fresh_game)
  /\ List.length (fpsHistory g')
     = Nat.min (S (List.length (fpsHistory Examples.fresh_game))) 60.
Proof.
  cbv zeta.
  assert (H : (List.length (fpsHistory Examples.fresh_game) <= 60)%nat).
  { unfold Examples.fresh_game, build. cbn. lia. }
  destruct (@updateFPS_window 16 Examples.fresh_game H) as (H1 & H2 & _).
  split; [exact H1 | exact H2].
Defined.

End GameLaws.

Section GamePause.

Import Game.
Local Open Scope R_scope.

Lemma enable_touch_twice (a b : bool) (g : Game.t) :
  enable_touch a (enable_touch b g) = enable_touch a g.
Proof.
  unfold enable_touch. destruct g. cbn.
  destruct touchController0 as [c |]; [| reflexivity].
  destruct c. reflexivity.
Qed.

(** X21.  On a running game that is neither paused nor destroyed,
    [pause()] sets [isPaused], the state [paused] and disables the touch
    controller, and a second [pause()] changes nothing; [resume()] then
    gives back the game as it was before the pause, with the state
    [playing], the touch controller enabled and the frame clock restarted.
    Losing the focus, or the page becoming hidden, pauses in the same way;
    getting the focus back resumes every paused game, also one that was
    paused by [pause()]; the page becoming visible again does not. *)
Theorem pause_resume_round_trip (performanceNow : R) (g : Game.t) :
  destroyed g = false ->
  isRunning g = true ->
  isPaused g = false ->
  let h := pause g in
  isPaused h = true
  /\ gameState h = "paused"%string
  /\ (forall c, touchController h = Some c -> TouchController.isEnabled c = false)
  /\ pause h = h
  /\ resume performanceNow h
     = enable_touch true
         (g <| gameState := "playing"%string |>
            <| lastFrameTime := performanceNow |>)
  /\ _handleWindowBlur g = h
  /\ _handleVisibilityChange true g = h
  /\ _handleWindowFocus performanceNow h = resume performanceNow h
  /\ _handleVisibilityChange false h = h.
Proof.
  intros Hd Hr Hp. cbv zeta.
  unfold _handleWindowBlur, _handleVisibilityChange, _handleWindowFocus.
  rewrite Hr, Hp. cbn [negb andb].
  unfold pause. rewrite Hd, Hr, Hp. cbn [negb orb].
  split; [reflexivity |]. split; [reflexivity |].
  split.
  { intros c. unfold enable_touch. cbn.
    destruct (touchController g) as [d |]; cbn; [| discriminate].
    intros [= <-]. reflexivity. }
  split.
  { unfold enable_touch. cbn. rewrite Hd, Hr. reflexivity. }
  assert (Hres : resume performanceNow
                   (enable_touch false
                      (g <| isPaused := true |> <| gameState := "paused"%string |>))
                 = enable_touch true
                     (g <| gameState := "playing"%string |>
                        <| lastFrameTime := performanceNow |>)).
  { unfold resume. unfold enable_touch at 1 2 3. cbn. rewrite Hd, Hr.
    cbn [negb orb].
    unfold enable_touch. destruct g. cbn in *. subst.
    destruct touchController0 as [c |]; [| reflexivity].
    destruct c. reflexivity. }
  split; [exact Hres |].
  split; [reflexivity |]. split; [reflexivity |].
  split; [| reflexivity].
  unfold enable_touch at 1 2. cbn. rewrite Hr. reflexivity.
Qed.

(** The fresh game with [isRunning] set, paused and resumed. *)
Lemma pause_resume_round_trip_witness :
  let g := Examples.fresh_game <| isRunning := true |> in
  isPaused (pause g) = true
  /\ gameState (pause g) = "paused"%string
  /\ pause (pause g) = pause g.
Proof.
  cbv zeta.
  assert (Hd : destroyed (Examples.fresh_game <| isRunning := true |>) = false)
    by reflexivity.
  assert (Hr : isRunning (Examples.fresh_game <| isRunning := true |>) = true)
    by reflexivity.
  assert (Hp : isPaused (Examples.fresh_game <| isRunning := true |>) = false)
    by reflexivity.
  destruct (@pause_resume_round_trip 100 _ Hd Hr Hp) as (H1 & H2 & _ & H4 & _).
  split; [exact H1 | split; [exact H2 | exact H4]].
Defined.

End GamePause.

Section GameFishLists.

Import Game.
Local Open Scope nat_scope.

Lemma NoDup_snoc_inv (id : Fish.FishId) (l : list Fish.FishId) :
  NoDup (l ++ [id]) -> NoDup l /\ ~ In id l.
Proof.
  intros H. split; [apply (NoDup_app_remove_r _ _ H) |].
  apply NoDup_remove_2 in H. rewrite app_nil_r in H. exact H.
Qed.

Lemma getFishFromPool_last g :
  match _getFishFromPool g with
  | (Some fish, g') =>
      fishPool g = fishPool g' ++ [fish]
      /\ activeFish g' = activeFish g /\ maxFish g' = maxFish g
  | (None, g') => fishPool g = [] /\ g' = g
  end.
Proof.
  unfold _getFishFromPool.
  destruct (rev (fishPool g)) as [| fish rest] eqn:E.
  - split; [| reflexivity].
    apply (f_equal (@rev _)) in E. rewrite rev_involutive in E. exact E.
  - cbn. split; [| split; reflexivity].
    apply (f_equal (@rev _)) in E. rewrite rev_involutive in E. exact E.
Qed.

Lemma spawnFish_lists random1 random2 g :
  let s := _spawnFish random1 random2 g in
  maxFish s = maxFish g
  /\ ((activeFish s = activeFish g /\ fishPool s = fishPool g)
      \/ (List.length (activeFish g) < maxFish g
          /\ exists fish,
               fishPool g = fishPool s ++ [fish]
               /\ activeFish s = activeFish g ++ [fish])).
Proof.
  cbv zeta. unfold _spawnFish.
  destruct (maxFish g <=? List.length (activeFish g)) eqn:E; [auto |].
  apply Nat.leb_gt in E.
  pose proof (getFishFromPool_last g) as H.
  destruct (_getFishFromPool g) as [[fish |] g'].
  - destruct H as (Hp & Ha & Hm). cbn. split; [exact Hm |].
    right. split; [exact E |]. exists fish. rewrite Ha. auto.
  - destruct H as [_ ->]. auto.
Qed.

Lemma returnFishToPool_apart fish g :
  In fish (activeFish g) ->
  lists_apart g ->
  lists_apart (_returnFishToPool fish g)
  /\ (forall id, holds_fish (_returnFishToPool fish g) id -> holds_fish g id).
Proof.
  intros Hin (Ha & Hp & Hd). unfold lists_apart, holds_fish.
  rewrite returnFishToPool_active, returnFishToPool_pool.
  destruct (Player.indexOf fish (activeFish g)) as [i |] eqn:Ei;
    [| exfalso; exact (indexOf_not_In _ _ Ei Hin)].
  pose proof (splice1_indexOf_NoDup fish Ha Ei) as Hgone.
  destruct (List.length (fishPool g) <? maxFish g * 2).
  - split; [split; [| split] |].
    + apply NoDup_splice1. exact Ha.
    + apply NoDup_app_last; [exact Hp | apply Hd; exact Hin].
    + intros id Hid. rewrite in_app_iff. intros [H | [<- | []]].
      * exact (Hd id (In_splice1 _ _ _ Hid) H).
      * exact (Hgone Hid).
    + intros id [H | H]; [left; exact (In_splice1 _ _ _ H) |].
      apply in_app_iff in H. destruct H as [H | [<- | []]]; [right | left]; auto.
  - split; [split; [| split] |].
    + apply NoDup_splice1. exact Ha.
    + exact Hp.
    + intros id Hid. exact (Hd id (In_splice1 _ _ _ Hid)).
    + intros id [H | H]; [left; exact (In_splice1 _ _ _ H) | right; exact H].
Qed.

Lemma cleanup_loop_apart i :
  forall g,
    lists_apart g ->
    lists_apart (cleanup_loop i g)
    /\ (forall id, holds_fish (cleanup_loop i g) id -> holds_fish g id).
Proof.
  induction i as [| i IH]; intros g Hg; cbn [cleanup_loop]; [auto |].
  destruct (nth_error (activeFish g) i) as [fish |] eqn:En; [| apply IH, Hg].
  match goal with
  | |- context [if ?c then _ else _] => destruct c
  end; [| apply IH, Hg].
  destruct (@returnFishToPool_apart fish g (nth_error_In _ _ En) Hg) as [H1 H2].
  destruct (IH _ H1) as [H3 H4]. split; [exact H3 | auto].
Qed.

(** X22.  Spawning and returning fish keeps the books of the pool: when
    [activeFish] and [fishPool] hold no reference twice and share none,
    the same is true after [_spawnFish], after [_returnFishToPool] of an
    active fish and after [_cleanupFish].  [_spawnFish] only moves the last
    reference of the pool to the end of the active list, and only while
    the active list is below [maxFish]; the other two bring in no
    reference that was in neither list. *)
Theorem fish_lists_stay_apart (random1 random2 : R) (fish : Fish.FishId)
    (g : Game.t) :
  lists_apart g ->
  let s := _spawnFish random1 random2 g in
  lists_apart s
  /\ (forall id, holds_fish s id <-> holds_fish g id)
  /\ List.length (activeFish s)
     <= Nat.max (List.length (activeFish g)) (maxFish g)
  /\ (In fish (activeFish g) ->
      lists_apart (_returnFishToPool fish g)
      /\ forall id, holds_fish (_returnFishToPool fish g) id -> holds_fish g id)
  /\ lists_apart (_cleanupFish g)
  /\ (forall id, holds_fish (_cleanupFish g) id -> holds_fish g id).
Proof.
  intros Hg. cbv zeta.
  split; [| split; [| split; [| split; [| apply cleanup_loop_apart, Hg]]]].
  - destruct Hg as (Ha & Hp & Hd). unfold lists_apart.
    destruct (spawnFish_lists random1 random2 g) as [_ [[Hsa Hsp] | [_ Hm]]];
      cbv zeta in *.
    + rewrite Hsa, Hsp. auto.
    + destruct Hm as (f & Hsp & Hsa). rewrite Hsa.
      rewrite Hsp in Hp. destruct (NoDup_snoc_inv _ _ Hp) as [Hp' Hf].
      assert (Hfa : ~ In f (activeFish g)).
      { intros H. apply (Hd f H). rewrite Hsp. apply in_or_app. right.
        left. reflexivity. }
      split; [apply NoDup_app_last; assumption |]. split; [exact Hp' |].
      intros id Hid. apply in_app_iff in Hid.
      destruct Hid as [Hid | [<- | []]]; [| exact Hf].
      intros H. apply (Hd id Hid). rewrite Hsp. apply in_or_app. left. exact H.
  - intros id. unfold holds_fish.
    destruct (spawnFish_lists random1 random2 g) as [_ [[Hsa Hsp] | [_ Hm]]];
      cbv zeta in *.
    + rewrite Hsa, Hsp. reflexivity.
    + destruct Hm as (f & Hsp & Hsa). rewrite Hsa, Hsp, !in_app_iff. cbn.
      tauto.
  - destruct (spawnFish_lists random1 random2 g) as [_ [[Hsa Hsp] | [Hlt Hm]]];
      cbv zeta in *.
    + rewrite Hsa. lia.
    + destruct Hm as (f & Hsp & Hsa). rewrite Hsa, length_app. cbn. lia.
  - intros Hin. apply returnFishToPool_apart; assumption.
Qed.

(** The fresh game: an empty active list, the references 0 to 19 in the
    pool. *)
Lemma fish_lists_stay_apart_witness :
  lists_apart (_spawnFish 0 0 Examples.fresh_game)
  /\ List.length (activeFish (_spawnFish 0 0 Examples.fresh_game))
     <= Nat.max (List.length (activeFish Examples.fresh_game))
                (maxFish Examples.fresh_game).
Proof.
  assert (Hg : lists_apart Examples.fresh_game).
  { unfold lists_apart. split; [constructor |].
    split; [apply seq_NoDup | intros id []]. }
  destruct (@fish_lists_stay_apart 0 0 0 Examples.fresh_game Hg)
    as (H1 & _ & H3 & _).
  split; [exact H1 | exact H3].
Defined.

End GameFishLists.

Section GameCleanup.

Import Game.
Local Open Scope nat_scope.

Lemma indexOf_nth_error (fish : Fish.FishId) (l : list Fish.FishId) :
  forall i, NoDup l -> nth_error l i = Some fish ->
            Player.indexOf fish l = Some i.
Proof.
  induction l as [| a l IH]; intros i Hl Hn; [destruct i; discriminate |].
  inversion Hl as [| ? ? Ha Hl']; subst.
  destruct i; cbn in *.
  - injection Hn as ->. rewrite Nat.eqb_refl. reflexivity.
  - destruct (Nat.eqb a fish) eqn:E.
    + apply Nat.eqb_eq in E. subst. exfalso. apply Ha.
      eapply nth_error_In, Hn.
    + rewrite (IH i Hl' Hn). reflexivity.
Qed.

Lemma skipn_splice1 (l : list Fish.FishId) :
  forall i, skipn i (Player.splice1 i l) = skipn (S i) l.
Proof.
  induction l as [| a l IH]; intros i; [destruct i; reflexivity |].
  destruct i; cbn; [reflexivity |]. apply IH.
Qed.

Lemma length_splice1 (l : list Fish.FishId) :
  forall i, i < List.length l ->
            S (List.length (Player.splice1 i l)) = List.length l.
Proof.
  induction l as [| a l IH]; intros i Hi; cbn in *; [lia |].
  destruct i; cbn; [reflexivity |]. rewrite IH; [reflexivity | lia].
Qed.

Lemma skipn_nth_error (fish : Fish.FishId) (l : list Fish.FishId) :
  forall i, nth_error l i = Some fish -> skipn i l = fish :: skipn (S i) l.
Proof.
  induction l as [| a l IH]; intros i Hn; [destruct i; discriminate |].
  destruct i; cbn in *; [injection Hn as ->; reflexivity |].
  apply IH. exact Hn.
Qed.

Lemma NoDup_after_index (fish : Fish.FishId) (l : list Fish.FishId) :
  forall i, NoDup l -> nth_error l i = Some fish ->
            ~ In fish (skipn (S i) l).
Proof.
  induction l as [| a l IH]; intros i Hl Hn; [destruct i; discriminate |].
  inversion Hl as [| ? ? Ha Hl']; subst.
  destruct i; cbn in *.
  - injection Hn as ->. exact Ha.
  - apply IH; assumption.
Qed.

Lemma returnFishToPool_other fish g id :
  id <> fish ->
  fishes (_returnFishToPool fish g) id = fishes g id
  /\ width (_returnFishToPool fish g) = width g.
Proof.
  intros Hne. unfold _returnFishToPool, on_fish. cbn -[Nat.ltb Nat.mul].
  destruct (Player.indexOf fish (activeFish g)); cbn -[Nat.ltb Nat.mul];
    destruct (List.length (fishPool g) <? maxFish g * 2); cbn;
    unfold Fish.upd; apply Nat.eqb_neq in Hne; rewrite !Hne; auto.
Qed.

Lemma cleanup_loop_on_stage i :
  forall g,
    NoDup (activeFish g) ->
    i <= List.length (activeFish g) ->
    (forall id, In id (skipn i (activeFish g)) -> on_stage g id) ->
    forall id, In id (activeFish (cleanup_loop i g)) ->
               on_stage (cleanup_loop i g) id.
Proof.
  induction i as [| i IH]; intros g Hnd Hlen Hdone; cbn [cleanup_loop];
    [exact Hdone |].
  destruct (nth_error (activeFish g) i) as [fish |] eqn:En;
    [| apply nth_error_None in En; lia].
  match goal with
  | |- context [if ?c then _ else _] => destruct c eqn:Ec
  end.
  - apply IH.
    + rewrite returnFishToPool_active.
      destruct (Player.indexOf fish (activeFish g));
        [apply NoDup_splice1 |]; exact Hnd.
    + rewrite returnFishToPool_active, (indexOf_nth_error _ Hnd En).
      pose proof (length_splice1 (activeFish g) (i := i)) as Hl. lia.
    + intros id. rewrite returnFishToPool_active, (indexOf_nth_error _ Hnd En).
      rewrite skipn_splice1. intros Hid.
      assert (Hne : id <> fish).
      { intros ->. exact (NoDup_after_index _ Hnd En Hid). }
      destruct (returnFishToPool_other g Hne) as [Hf Hw].
      unfold on_stage. rewrite Hf, Hw. apply Hdone. exact Hid.
  - apply IH; [exact Hnd | lia |].
    intros id. rewrite (skipn_nth_error _ _ En). intros [<- | Hid];
      [| apply Hdone; exact Hid].
    apply orb_false_iff in Ec. destruct Ec as [Ec E3].
    apply orb_false_iff in Ec. destruct Ec as [E1 E2].
    apply negb_false_iff in E1.
    apply Rltb_false in E2. apply Rltb_false in E3.
    unfold on_stage. split; [exact E1 |]. split; assumption.
Qed.

(** X23.  After [_cleanupFish] every fish that is left in the active list
    (one that holds no fish twice) is active and not further than 100
    units beyond the left or the right edge of the game: the backward walk
    misses no fish although it splices the list it walks. *)
Theorem cleanupFish_leaves_fish_on_stage (g : Game.t) (id : Fish.FishId) :
  NoDup (activeFish g) ->
  In id (activeFish (_cleanupFish g)) ->
  on_stage (_cleanupFish g) id /\ In id (activeFish g).
Proof.
  intros Hnd Hin. split.
  - unfold _cleanupFish in *.
    apply cleanup_loop_on_stage; [exact Hnd | lia | | exact Hin].
    intros x. rewrite skipn_all. intros [].
  - unfold _cleanupFish in Hin.
    exact (proj1 (cleanup_loop_lists _ g id) Hin).
Qed.

(** The game in play: the fish 19 swims at (100, 300). *)
Lemma cleanupFish_leaves_fish_on_stage_witness :
  on_stage (_cleanupFish Examples.game_in_play) 19.
Proof.
  assert (Hnd : NoDup (activeFish Examples.game_in_play)).
  { unfold Examples.game_in_play. cbn. repeat constructor. intros []. }
  assert (Hin : In 19 (activeFish (_cleanupFish Examples.game_in_play))).
  { unfold _cleanupFish, Examples.game_in_play, Examples.fresh_game, build,
      Fish.new, Fish._initializeMovement, Fish._applyBehaviorModifications.
    evaluate. left. reflexivity. }
  exact (proj1 (@cleanupFish_leaves_fish_on_stage _ 19 Hnd Hin)).
Defined.

End GameCleanup.

Section GameRestart.

Import Game.
Local Open Scope nat_scope.

Lemma returnFishToPool_player fish g :
  player (_returnFishToPool fish g) = player g
  /\ maxFish (_returnFishToPool fish g) = maxFish g.
Proof.
  unfold _returnFishToPool, on_fish. cbn -[Nat.ltb Nat.mul].
  destruct (Player.indexOf fish (activeFish g)); cbn -[Nat.ltb Nat.mul];
    destruct (List.length (fishPool g) <? maxFish g * 2); auto.
Qed.

Lemma indexOf_cons_other (b fish : Fish.FishId) (r : list Fish.FishId) :
  b <> fish ->
  Player.indexOf fish (b :: r)
  = match Player.indexOf fish r with
    | Some j => Some (S j)
    | None => None
    end.
Proof.
  intros Hne. cbn. apply Nat.eqb_neq in Hne. rewrite Hne. reflexivity.
Qed.

(** Once the walk is past the index 0, the fish at the head of the list is
    never handed to [_returnFishToPool]. *)
Lemma resetFish_loop_keeps_head n :
  forall k g b r,
    1 <= k ->
    activeFish g = b :: r ->
    NoDup (b :: r) ->
    ~ In b (fishPool g) ->
    let g' := resetFish_loop n k g in
    (exists r', activeFish g' = b :: r')
    /\ ~ In b (fishPool g')
    /\ fishes g' b = fishes g b
    /\ player g' = player g
    /\ (forall x, In x (fishPool g) -> In x (fishPool g')).
Proof.
  induction n as [| n IH]; intros k g b r Hk Ha Hnd Hp; cbn [resetFish_loop].
  - cbv zeta. split; [exists r; exact Ha | auto].
  - cbv zeta. rewrite Ha.
    destruct (nth_error (b :: r) k) as [fish |] eqn:En.
    + assert (Hne : b <> fish).
      { destruct k as [| k]; [lia |]. cbn in En.
        inversion Hnd as [| ? ? Hb _]; subst.
        intros <-. apply Hb. eapply nth_error_In, En. }
      assert (Hin : In fish r).
      { destruct k as [| k]; [lia |]. cbn in En. eapply nth_error_In, En. }
      assert (Ha' : exists r', activeFish (_returnFishToPool fish g) = b :: r'
                               /\ NoDup (b :: r')).
      { rewrite returnFishToPool_active, Ha, (indexOf_cons_other r Hne).
        inversion Hnd as [| ? ? Hb Hr]; subst.
        destruct (Player.indexOf fish r) as [j |] eqn:Ej.
        - exists (Player.splice1 j r). split; [reflexivity |].
          constructor; [| apply NoDup_splice1; exact Hr].
          intros H. apply Hb. eapply In_splice1, H.
        - exists r. split; [reflexivity | exact Hnd]. }
      destruct Ha' as (r' & Ha' & Hnd').
      assert (Hp' : ~ In b (fishPool (_returnFishToPool fish g))).
      { rewrite returnFishToPool_pool.
        destruct (List.length (fishPool g) <? maxFish g * 2); [| exact Hp].
        rewrite in_app_iff. intros [H | [H | []]]; [exact (Hp H) |].
        exact (Hne (eq_sym H)). }
      destruct (IH (S k) (_returnFishToPool fish g) b r'
                  ltac:(lia) Ha' Hnd' Hp')
        as (Hr & Hq & Hf & Hpl & Hincl).
      cbv zeta in *.
      split; [exact Hr |]. split; [exact Hq |].
      split; [rewrite Hf; apply (@returnFishToPool_other fish g b Hne) |].
      split; [rewrite Hpl; apply returnFishToPool_player |].
      intros x Hx. apply Hincl, returnFishToPool_pool_incl, Hx.
    + destruct (IH (S k) g b r ltac:(lia) Ha Hnd Hp) as (Hr & Hq & Hf & Hpl & Hi).
      cbv zeta in *. auto.
Qed.

Lemma dispatch_reset_calls now (l : list (Callback * Player.Event)) :
  (forall call, In call l -> snd call = Player.EvPlayerReset) ->
  forall g, fold_left (dispatch now) l g = g.
Proof.
  induction l as [| [c e] l IH]; intros Hl g; [reflexivity |].
  cbn [fold_left].
  assert (He : e = Player.EvPlayerReset) by (apply (Hl (c, e)); left; reflexivity).
  subst e.
  replace (dispatch now g (c, Player.EvPlayerReset)) with g
    by (destruct c; reflexivity).
  apply IH. intros call H. apply Hl. right. exact H.
Qed.

Lemma after_player_reset now p st g :
  after_player now (Player.reset p st) g
  = g <| player := Some (Player.player (Player.reset p st)) |>
      <| fishes := st |>.
Proof.
  unfold after_player. rewrite dispatch_reset_calls; [reflexivity |].
  intros call. unfold Player.reset, Player.emit, Player._emit. cbn.
  rewrite in_map_iff. intros (x & <- & _). reflexivity.
Qed.

Lemma resetFish_loop_from_start (g : Game.t) (a b : Fish.FishId)
    (rest : list Fish.FishId) :
  activeFish g = a :: b :: rest ->
  NoDup (activeFish g) ->
  ~ In b (fishPool g) ->
  let g' := resetFish_loop (List.length (activeFish g)) 0 g in
  ~ In b (fishPool g')
  /\ fishes g' b = fishes g b
  /\ player g' = player g
  /\ (List.length (fishPool g) < maxFish g * 2 -> In a (fishPool g')).
Proof.
  intros Ha Hnd Hp. cbv zeta.
  remember (S (List.length rest)) as n eqn:Hn.
  assert (Hlen : List.length (activeFish g) = S n)
    by (rewrite Ha, Hn; reflexivity).
  rewrite Hlen. cbn [resetFish_loop]. rewrite Ha. cbn [nth_error].
  subst n.
  set (g1 := _returnFishToPool a g).
  rewrite Ha in Hnd. inversion Hnd as [| ? ? Hab Hnd']; subst.
  assert (Hne : a <> b) by (intros ->; apply Hab; left; reflexivity).
  assert (H1a : activeFish g1 = b :: rest).
  { subst g1. rewrite returnFishToPool_active, Ha. cbn.
    rewrite Nat.eqb_refl. reflexivity. }
  assert (H1p : ~ In b (fishPool g1)).
  { subst g1. rewrite returnFishToPool_pool.
    destruct (List.length (fishPool g) <? maxFish g * 2); [| exact Hp].
    rewrite in_app_iff. intros [H | [H | []]]; [exact (Hp H) | exact (Hne H)]. }
  assert (H1f : fishes g1 b = fishes g b).
  { subst g1. apply (@returnFishToPool_other a g b). auto. }
  assert (H1in : List.length (fishPool g) < maxFish g * 2 -> In a (fishPool g1)).
  { intros Hroom. subst g1. rewrite returnFishToPool_pool.
    apply Nat.ltb_lt in Hroom. rewrite Hroom. apply in_or_app. right.
    left. reflexivity. }
  destruct (@resetFish_loop_keeps_head (S (List.length rest)) 1 g1 b rest
              (le_n 1) H1a Hnd' H1p)
    as (_ & H2p & H2f & H2pl & H2incl).
  cbv zeta in H2p, H2f, H2pl, H2incl.
  split; [exact H2p |]. split; [rewrite H2f; exact H1f |].
  split; [rewrite H2pl; apply returnFishToPool_player |].
  intros Hroom. apply H2incl, H1in, Hroom.
Qed.

(** X24.  [_resetGameState] walks [activeFish] with [forEach] while
    [_returnFishToPool] splices it, so the walk skips the fish that moves
    into the place of the one just removed.  With two or more different
    fish in play, the first one goes back to the pool (when the pool has
    room), and the second one is dropped: it is in neither list afterwards
    and its object has not been touched. *)
Theorem resetGameState_drops_fish (now : R) (g : Game.t)
    (a b : Fish.FishId) (rest : list Fish.FishId) :
  activeFish g = a :: b :: rest ->
  NoDup (activeFish g) ->
  ~ In b (fishPool g) ->
  let g' := _resetGameState now g in
  activeFish g' = []
  /\ ~ In b (fishPool g')
  /\ fishes g' b = fishes g b
  /\ (List.length (fishPool g) < maxFish g * 2 -> In a (fishPool g')).
Proof.
  intros Ha Hnd Hp. cbv zeta. unfold _resetGameState. cbv zeta.
  match goal with
  | |- context [resetFish_loop _ 0 ?h] => set (g0 := h) in *
  end.
  destruct (@resetFish_loop_from_start g0 a b rest Ha Hnd Hp)
    as (H2p & H2f & H2pl & H2in).
  cbv zeta in H2p, H2f, H2pl, H2in.
  change (fishes g0 b) with (fishes g b) in H2f.
  change (fishPool g0) with (fishPool g) in H2in.
  change (maxFish g0) with (maxFish g) in H2in.
  set (g2 := resetFish_loop (List.length (activeFish g0)) 0 g0) in *.
  clearbody g2. clear H2pl. clear g0.
  cbn -[after_player].
  destruct (player g2) as [p |]; [rewrite after_player_reset |]; cbn;
    (split; [reflexivity |]); (split; [exact H2p |]);
    (split; [exact H2f |]); exact H2in.
Qed.

(** The game in play with the fish 17, 18 and 19 active. *)
Lemma resetGameState_drops_fish_witness :
  let g := Examples.game_in_play <| fishPool := List.seq 0 17 |>
                                 <| activeFish := [17; 18; 19] |> in
  activeFish (_resetGameState 0 g) = []
  /\ ~ In 18 (fishPool (_resetGameState 0 g))
  /\ In 17 (fishPool (_resetGameState 0 g)).
Proof.
  cbv zeta.
  assert (Hnd : NoDup (activeFish
                  (Examples.game_in_play <| fishPool := List.seq 0 17 |>
                                         <| activeFish := [17; 18; 19] |>))).
  { cbn. repeat constructor; cbn; intuition lia. }
  assert (Hp : ~ In 18 (fishPool
                  (Examples.game_in_play <| fishPool := List.seq 0 17 |>
                                         <| activeFish := [17; 18; 19] |>))).
  { cbn -[List.seq]. rewrite in_seq. lia. }
  assert (Ha : activeFish
                 (Examples.game_in_play <| fishPool := List.seq 0 17 |>
                                        <| activeFish := [17; 18; 19] |>)
               = [17; 18; 19]) by reflexivity.
  destruct (@resetGameState_drops_fish 0 _ 17 18 [19] Ha Hnd Hp)
    as (H1 & H2 & _ & H4).
  split; [exact H1 | split; [exact H2 | apply H4]].
  cbn. lia.
Defined.

End GameRestart.

Section GameDestroyLoop.

Import Game.
Local Open Scope R_scope.

Lemma destroy_fish_loop_fields (l : list Fish.FishId) :
  forall g,
    let g' := fold_left (fun g fish => on_fish fish Fish.destroy g) l g in
    isRunning g' = isRunning g
    /\ isPaused g' = isPaused g
    /\ gameState g' = gameState g
    /\ animationFrameId g' = animationFrameId g.
Proof.
  induction l as [| fish l IH]; intros g; cbn [fold_left]; [cbv zeta; auto |].
  destruct (IH (on_fish fish Fish.destroy g)) as (H1 & H2 & H3 & H4).
  cbv zeta in *. rewrite H1, H2, H3, H4. cbn. auto.
Qed.

(** X25.  [destroy()] does not stop the loop of a running game: it sets
    [destroyed] before it calls [stop()], which then returns at its guard.
    [isRunning], [isPaused], [gameState] and the pending
    [animationFrameId] are left as they were, whereas [stop()] on the same
    game, when it is running and not destroyed, clears [isRunning] and the
    frame request. *)
Theorem destroy_leaves_loop_flags (random : nat -> R) (g : Game.t) :
  let d := destroy random g in
  isRunning d = isRunning g
  /\ isPaused d = isPaused g
  /\ gameState d = gameState g
  /\ animationFrameId d = animationFrameId g
  /\ (destroyed g = false -> isRunning g = true ->
      isRunning (stop g) = false
      /\ animationFrameId (stop g) = None
      /\ gameState (stop g) = "stopped"%string).
Proof.
  cbv zeta. unfold destroy. cbv zeta.
  match goal with
  | |- context [fold_left ?f ?l ?g0] =>
      destruct (destroy_fish_loop_fields l g0) as (H1 & H2 & H3 & H4);
      cbv zeta in H1, H2, H3, H4;
      set (F := fold_left f l g0) in *
  end.
  clearbody F. cbn. rewrite H1, H2, H3, H4. clear.
  assert (Hstop : stop (g <| destroyed := true |>) = g <| destroyed := true |>)
    by reflexivity.
  rewrite Hstop. cbn.
  destruct (player g); cbn;
    (split; [reflexivity |]); (split; [reflexivity |]);
    (split; [reflexivity |]); (split; [reflexivity |]);
    intros Hd Hr; unfold stop; rewrite Hd, Hr; cbn; repeat split.
Qed.

End GameDestroyLoop.

(** ** TouchController: zones, touches and gestures *)

Section TouchLaws.

Import TouchController.
Local Open Scope R_scope.

Ltac split_ifs :=
  repeat match goal with
         | |- context [if ?c then _ else _] => destruct c eqn:?
         end.

Ltac reflect_comparisons :=
  repeat match goal with
         | H : Rleb _ _ = true |- _ => apply Rleb_true in H
         | H : Rleb _ _ = false |- _ => apply Rleb_false in H
         | H : Rltb _ _ = true |- _ => apply Rltb_true in H
         | H : Rltb _ _ = false |- _ => apply Rltb_false in H
         end.

(** X26.  The casting zone and the reeling zone that the constructor lays
    out tile the canvas: on a canvas of non-negative height a point is in
    the game area exactly when it is in one of the two zones, the casting
    zone being the upper 40 % and the reeling zone the rest; the zones
    only share the line between them. *)
Theorem zones_tile_canvas (timer : nat) (options : Options) (canvas : Canvas)
    (player : option Player.t) (gameState : option GameStateView) (x y : R) :
  0 <= rect_height canvas ->
  let c := build timer options canvas player gameState in
  isInCastingZone x y c || isInReelingZone x y c = _isInGameArea canvas x y
  /\ (isInCastingZone x y c = true ->
      0 <= y <= rect_height canvas * 0.4)
  /\ (isInCastingZone x y c = true -> isInReelingZone x y c = true ->
      y = rect_height canvas * 0.4).
Proof.
  intros Hh. cbv zeta.
  unfold isInCastingZone, isInReelingZone, _isInGameArea, in_zone, build,
    _handleOrientationChange, _initializeTouchZones.
  cbn.
  split; [| split];
    repeat match goal with
           | |- context [Rleb ?a ?b] => destruct (Rleb a b) eqn:?
           end;
    reflect_comparisons; cbn; intros;
    try reflexivity; try discriminate; try lra; exfalso; lra.
Qed.

Lemma zones_tile_canvas_witness :
  isInCastingZone 200 300 Examples.fresh_controller
  || isInReelingZone 200 300 Examples.fresh_controller
  = _isInGameArea Examples.canvas 200 300.
Proof.
  assert (Hh : 0 <= rect_height Examples.canvas) by (cbn; lra).
  exact (proj1 (@zones_tile_canvas 0 no_options Examples.canvas
                  (Some Examples.fresh_player)
                  (Some (mkView false None)) 200 300 Hh)).
Defined.

End TouchLaws.

Section TouchTracking.

Import TouchController.
Local Open Scope R_scope.

Lemma map_set_length key value m :
  (List.length (map_set key value m) <= S (List.length m))%nat.
Proof.
  induction m as [| [k v] m IH]; cbn; [lia |].
  destruct (TouchKey_eqb k key); cbn; lia.
Qed.

Lemma getTouchFromPool_fields c :
  activeTouches (snd (_getTouchFromPool c)) = activeTouches c
  /\ maxTouches (snd (_getTouchFromPool c)) = maxTouches c.
Proof.
  unfold _getTouchFromPool. destruct (rev (touchPool c)); cbn; auto.
Qed.

Lemma touchStart_loop_bound currentTime timer canvas touches :
  forall k c,
    let c' := touchStart_loop currentTime timer k canvas touches c in
    maxTouches c' = maxTouches c
    /\ (List.length (activeTouches c')
        <= Nat.max (List.length (activeTouches c)) (maxTouches c))%nat.
Proof.
  induction touches as [| touch touches IH]; intros k c; cbn [touchStart_loop].
  - cbv zeta. split; [reflexivity | lia].
  - cbv zeta.
    destruct (maxTouches c <=? List.length (activeTouches c))%nat eqn:E;
      [split; [reflexivity | lia] |].
    apply Nat.leb_gt in E.
    destruct (negb (_isInGameArea canvas _ _)); [apply IH |].
    destruct (getTouchFromPool_fields c) as [Ha Hm].
    destruct (_getTouchFromPool c) as [touchObj c1]. cbn [snd] in Ha, Hm.
    match goal with
    | |- context [touchStart_loop currentTime timer (S k) canvas touches ?d] =>
        destruct (IH (S k) d) as [H1 H2];
        assert (Hd : maxTouches d = maxTouches c
                     /\ (List.length (activeTouches d)
                         <= S (List.length (activeTouches c)))%nat)
    end.
    { cbn. rewrite Ha, Hm. split; [reflexivity | apply map_set_length]. }
    cbv zeta in H1, H2. destruct Hd as [Hd1 Hd2].
    rewrite H1, Hd1. split; [reflexivity |]. lia.
Qed.

(** X27.  [_handleTouchStart] never tracks more touches than
    [maxTouches]: a controller that tracks at most [maxTouches] touches
    still does after any touch-start event, however many fingers the event
    reports; the limit itself is not changed. *)
Theorem handleTouchStart_respects_maxTouches (now : R) (timer : nat -> nat)
    (gameState : option GameStateView) (canvas : Canvas)
    (changedTouches : list Touch) (c : TouchController.t) :
  (List.length (activeTouches c) <= maxTouches c)%nat ->
  let c' := _handleTouchStart now timer gameState canvas changedTouches c in
  (List.length (activeTouches c') <= maxTouches c')%nat
  /\ maxTouches c' = maxTouches c.
Proof.
  intros Hle. cbv zeta. unfold _handleTouchStart.
  destruct (destroyed c || negb (isEnabled c)); [auto |].
  destruct (paused gameState); [auto |].
  cbv zeta.
  destruct (touchStart_loop_bound now timer canvas changedTouches 0 c)
    as [H1 H2].
  cbv zeta in H1, H2. cbn. rewrite H1. split; [lia | reflexivity].
Qed.

Lemma handleTouchStart_respects_maxTouches_witness :
  let c' := _handleTouchStart 1000 (fun k => k)
              (Some (Game.view Examples.fresh_game)) Examples.canvas
              [Examples.touch_in_reeling_zone] Examples.fresh_controller in
  (List.length (activeTouches c') <= maxTouches c')%nat.
Proof.
  cbv zeta.
  apply handleTouchStart_respects_maxTouches.
  cbn. lia.
Defined.

End TouchTracking.

Section TouchRoundTrip.

Import TouchController.
Local Open Scope R_scope.

Lemma recognizeGesture_tracking now random touchObj duration distance c
    player st :
  let o := _recognizeGesture now random touchObj duration distance c player st in
  activeTouches (self o) = activeTouches c
  /\ touchPool (self o) = touchPool c
  /\ maxTouches (self o) = maxTouches c.
Proof.
  cbv zeta. unfold _recognizeGesture, _handleTap, _handleSwipe,
    _handleGameTap, _handleGameSwipe, _handleDoubleTap.
  repeat match goal with
         | |- context [if ?b then _ else _] => destruct b
         | |- context [match ?p with Some _ => _ | None => _ end] => destruct p
         end; cbn; auto.
Qed.

Lemma TouchKey_eqb_refl k : TouchKey_eqb k k = true.
Proof. destruct k; cbn; [apply Nat.eqb_refl | reflexivity]. Qed.

(** X28.  A touch that is put down and lifted again leaves no trace in the
    tracking state: on an enabled controller that tracks no touch, whose
    pool is neither empty nor over its capacity, a touch-start inside the
    game area takes one object from the pool and tracks it under the
    identifier of the touch, with the canvas coordinates and the time of
    the start; the touch-end of the same touch removes the entry and puts
    the object back, so that no touch is tracked and the pool has its
    size again. *)
Theorem touch_start_end_round_trip (now later : R) (timer : nat -> nat)
    (random : nat -> R) (gameState : option GameStateView) (canvas : Canvas)
    (touch : Touch) (c : TouchController.t) (player : option Player.t)
    (st : Fish.Store) :
  destroyed c = false ->
  isEnabled c = true ->
  paused gameState = false ->
  activeTouches c = [] ->
  (0 < maxTouches c)%nat ->
  touchPool c <> [] ->
  (List.length (touchPool c) <= maxTouches c * 2)%nat ->
  let coordinates := _getTouchCoordinates touch c in
  _isInGameArea canvas (MathUtils.x coordinates) (MathUtils.y coordinates)
  = true ->
  let c1 := _handleTouchStart now timer gameState canvas [touch] c in
  let o := _handleTouchEnd later random [touch] c1 player st in
  (exists touchObj,
      activeTouches c1 = [(TouchIdentifier (identifier touch), touchObj)]
      /\ startX touchObj = MathUtils.x coordinates
      /\ startY touchObj = MathUtils.y coordinates
      /\ startTime touchObj = now
      /\ isActive touchObj = true)
  /\ S (List.length (touchPool c1)) = List.length (touchPool c)
  /\ activeTouches (self o) = []
  /\ List.length (touchPool (self o)) = List.length (touchPool c).
Proof.
  intros Hd He Hp Ha Hmax Hpool Hcap coordinates Harea. cbv zeta.
  unfold _handleTouchStart. rewrite Hd, He, Hp. cbn [negb orb].
  cbn [touchStart_loop]. rewrite Ha. cbn [List.length].
  replace (maxTouches c <=? 0)%nat with false
    by (symmetry; apply Nat.leb_gt; exact Hmax).
  fold coordinates. rewrite Harea. cbn [negb].
  unfold _getTouchFromPool.
  destruct (rev (touchPool c)) as [| popped rest] eqn:Er.
  { exfalso. apply Hpool. apply (f_equal (@rev _)) in Er.
    rewrite rev_involutive in Er. exact Er. }
  assert (Hlen : List.length (touchPool c) = S (List.length rest)).
  { rewrite <- (rev_involutive (touchPool c)), Er, length_rev. reflexivity. }
  cbn -[Nat.ltb Nat.mul]. rewrite Ha. cbn -[Nat.ltb Nat.mul].
  split.
  { eexists. split; [reflexivity |]. cbn. repeat split. }
  split; [rewrite length_rev, Hlen; reflexivity |].
  unfold _handleTouchEnd. cbn -[Nat.ltb Nat.mul touchEnd_loop].
  rewrite Hd, He. cbn -[Nat.ltb Nat.mul _recognizeGesture _returnTouchToPool].
  rewrite Nat.eqb_refl.
  cbn -[Nat.ltb Nat.mul _recognizeGesture _returnTouchToPool].
  match goal with
  | |- context [_recognizeGesture ?a ?b ?t ?du ?di ?d player st] =>
      destruct (recognizeGesture_tracking a b t du di d player st)
        as (G1 & G2 & G3);
      cbv zeta in G1, G2, G3; cbn in G1, G2, G3;
      set (o := _recognizeGesture a b t du di d player st) in *
  end.
  clearbody o.
  unfold _returnTouchToPool. rewrite G2, G3, length_rev.
  replace (List.length rest <? maxTouches c * 2)%nat with true
    by (symmetry; apply Nat.ltb_lt; lia).
  cbn. rewrite G1, G2. cbn. rewrite Nat.eqb_refl. cbn.
  split; [reflexivity |]. rewrite length_app, length_rev, Hlen. cbn. lia.
Qed.

(** The touch at (200, 300) on the fresh controller. *)
Lemma touch_start_end_round_trip_witness :
  let c1 := _handleTouchStart 1000 (fun k => k)
              (Some (Game.view Examples.fresh_game)) Examples.canvas
              [Examples.touch_in_reeling_zone] Examples.fresh_controller in
  let o := _handleTouchEnd 1100 (fun _ => 0) [Examples.touch_in_reeling_zone]
             c1 (Some Examples.casting_player) PlayerStates.default_store in
  activeTouches (self o) = []
  /\ List.length (touchPool (self o))
     = List.length (touchPool Examples.fresh_controller).
Proof.
  cbv zeta.
  assert (Hpool : touchPool Examples.fresh_controller <> [])
    by (cbn; discriminate).
  assert (Hcap : (List.length (touchPool Examples.fresh_controller)
                  <= maxTouches Examples.fresh_controller * 2)%nat)
    by (cbn; lia).
  assert (Hmax : (0 < maxTouches Examples.fresh_controller)%nat)
    by (cbn; lia).
  assert (Harea : _isInGameArea Examples.canvas
                    (MathUtils.x (_getTouchCoordinates
                                    Examples.touch_in_reeling_zone
                                    Examples.fresh_controller))
                    (MathUtils.y (_getTouchCoordinates
                                    Examples.touch_in_reeling_zone
                                    Examples.fresh_controller)) = true).
  { unfold _isInGameArea, _getTouchCoordinates, Examples.fresh_controller,
      Game._createTouchController, build, Examples.canvas,
      Examples.touch_in_reeling_zone.
    evaluate. reflexivity. }
  destruct (@touch_start_end_round_trip 1000 1100 (fun k => k) (fun _ => 0)
              (Some (Game.view Examples.fresh_game)) Examples.canvas
              Examples.touch_in_reeling_zone Examples.fresh_controller
              (Some Examples.casting_player) PlayerStates.default_store
              eq_refl eq_refl eq_refl eq_refl Hmax Hpool Hcap Harea)
    as (_ & _ & H3 & H4).
  split; [exact H3 | exact H4].
Defined.

End TouchRoundTrip.

Section TouchGestures.

Import TouchController.
Local Open Scope R_scope.

Lemma cast_from_idle random power angle p st :
  Player.destroyed p = false ->
  Player.isCasting p = false ->
  Player.isReeling p = false ->
  let p' := Player.player (Player.cast random power angle p st) in
  Player.isCasting p' = true
  /\ Player.castCount p' = S (Player.castCount p)
  /\ Player.fishes (Player.cast random power angle p st) = st.
Proof.
  intros Hd Hc Hr. cbv zeta. unfold Player.cast. rewrite Hd, Hc, Hr.
  cbn [orb]. cbv zeta.
  destruct (Rltb 0 _); cbn -[Player.normalizeAngle MathUtils.clamp];
    repeat split.
Qed.

(** X29.  A swipe casts exactly when it starts in the casting zone and is
    at least [swipeMinDistance] long: in fishing mode, on a player that is
    neither destroyed nor casting nor reeling, such a swipe starts a cast
    (the player is casting afterwards and the cast is counted); a swipe
    that starts outside the casting zone, or is shorter, leaves the player
    as it is.  The swipe is recorded as the last gesture either way. *)
Theorem swipe_casts_from_casting_zone (now random : R) (swipeData : SwipeData)
    (c : TouchController.t) (p : Player.t) (st : Fish.Store) :
  currentMode c = "fishing"%string ->
  Player.destroyed p = false ->
  Player.isCasting p = false ->
  Player.isReeling p = false ->
  let o := _handleSwipe now random swipeData c (Some p) st in
  lastGesture (self o) = Some (Swipe swipeData now)
  /\ fishes o = st
  /\ (isInCastingZone (swipe_startX swipeData) (swipe_startY swipeData) c = true ->
      swipeMinDistance c <= swipe_distance swipeData ->
      exists p',
        TouchController.player o = Some p'
        /\ Player.isCasting p' = true
        /\ Player.castCount p' = S (Player.castCount p))
  /\ (isInCastingZone (swipe_startX swipeData) (swipe_startY swipeData) c = false
      \/ swipe_distance swipeData < swipeMinDistance c ->
      TouchController.player o = Some p /\ calls o = []).
Proof.
  intros Hm Hd Hc Hr. cbv zeta. unfold _handleSwipe, _handleGameSwipe.
  rewrite Hm. cbn [String.eqb negb].
  replace (String.eqb "fishing" "fishing") with true by reflexivity.
  cbn [negb].
  destruct (isInCastingZone _ _ c) eqn:Ez;
    destruct (Rleb (swipeMinDistance c) (swipe_distance swipeData)) eqn:Es;
    cbn [andb self TouchController.player fishes calls].
  - unfold Player.handleTouchCast. rewrite Hd, Hc, Hr. cbn [orb]. cbv zeta.
    match goal with
    | |- context [Player.cast random ?pw ?an p st] =>
        destruct (@cast_from_idle random pw an p st Hd Hc Hr) as (H1 & H2 & H3);
        cbv zeta in H1, H2, H3
    end.
    split; [reflexivity |]. split; [exact H3 |].
    split; [intros _ _; eexists; split; [reflexivity | split; assumption] |].
    intros [H | H]; [discriminate |]. apply Rleb_true in Es. lra.
  - split; [reflexivity |]. split; [reflexivity |].
    split; [intros _ H; apply Rleb_false in Es; lra | auto].
  - split; [reflexivity |]. split; [reflexivity |].
    split; [intros H; discriminate | auto].
  - split; [reflexivity |]. split; [reflexivity |].
    split; [intros H; discriminate | auto].
Qed.

(** A swipe of 100 units down from (187, 100) on the fresh controller. *)
Lemma swipe_casts_from_casting_zone_witness :
  let swipeData := mkSwipe 187 100 187 200 100 200 "down" (1 / 2) in
  let o := _handleSwipe 0 0 swipeData Examples.fresh_controller
             (Some Examples.fresh_player) PlayerStates.default_store in
  exists p',
    TouchController.player o = Some p'
    /\ Player.isCasting p' = true
    /\ Player.castCount p' = S (Player.castCount Examples.fresh_player).
Proof.
  cbv zeta.
  assert (Hm : currentMode Examples.fresh_controller = "fishing"%string)
    by reflexivity.
  assert (Hd : Player.destroyed Examples.fresh_player = false).
  { unfold Examples.fresh_player, Game._createPlayer, Player.new,
      Player._applyEnvironmentEffects. evaluate. reflexivity. }
  assert (Hc : Player.isCasting Examples.fresh_player = false).
  { unfold Examples.fresh_player, Game._createPlayer, Player.new,
      Player._applyEnvironmentEffects. evaluate. reflexivity. }
  assert (Hr : Player.isReeling Examples.fresh_player = false).
  { unfold Examples.fresh_player, Game._createPlayer, Player.new,
      Player._applyEnvironmentEffects. evaluate. reflexivity. }
  destruct (@swipe_casts_from_casting_zone 0 0
              (mkSwipe 187 100 187 200 100 200 "down" (1 / 2))
              Examples.fresh_controller Examples.fresh_player
              PlayerStates.default_store Hm Hd Hc Hr) as (_ & _ & Hcast & _).
  apply Hcast.
  - unfold isInCastingZone, in_zone, Examples.fresh_controller,
      Game._createTouchController, build, _handleOrientationChange,
      _initializeTouchZones, Examples.canvas.
    evaluate. reflexivity.
  - unfold Examples.fresh_controller, Game._createTouchController, build.
    evaluate. lra.
Defined.

(** X30.  Taps pair up into double taps: on a controller with a positive
    gesture threshold, a first tap is recorded as a tap; a second tap at
    the same place before [doubleTapDelay] has passed is recorded as a
    double tap and clears the tap clock, so that a third tap, however
    quick, is a plain tap again.  None of the three touches the player. *)
Theorem taps_pair_into_double_taps (t1 t2 t3 : R)
    (position : MathUtils.Point R) (c : TouchController.t)
    (player : option Player.t) (st : Fish.Store) :
  lastTapTime c = 0 ->
  t1 <> 0 ->
  t2 - t1 < doubleTapDelay c ->
  0 < gestureThreshold c ->
  let o1 := _handleTap t1 position c player st in
  let o2 := _handleTap t2 position (self o1) (TouchController.player o1)
              (fishes o1) in
  let o3 := _handleTap t3 position (self o2) (TouchController.player o2)
              (fishes o2) in
  lastGesture (self o1) = Some (Tap position t1)
  /\ lastGesture (self o2) = Some (DoubleTap position t2)
  /\ lastTapTime (self o2) = 0
  /\ lastGesture (self o3) = Some (Tap position t3)
  /\ TouchController.player o3 = player
  /\ fishes o3 = st.
Proof.
  intros H0 Ht1 Hd Hg. cbv zeta.
  assert (Hzero : Rabs (MathUtils.x position - MathUtils.x position) = 0
                  /\ Rabs (MathUtils.y position - MathUtils.y position) = 0).
  { split; rewrite Rminus_diag; apply Rabs_R0. }
  destruct Hzero as [Hx Hy].
  assert (H1 : _handleTap t1 position c player st
               = mkOut (c <| lastTapTime := t1 |>
                          <| lastTapPosition := Some position |>
                          <| lastGesture := Some (Tap position t1) |>)
                       player st []).
  { unfold _handleTap. cbv zeta. rewrite H0.
    replace (Reqb 0 0) with true by (symmetry; apply Reqb_true; reflexivity).
    cbn [negb andb]. unfold _handleGameTap.
    destruct player; cbn; [destruct (negb _) |]; reflexivity. }
  rewrite H1. cbn [self TouchController.player fishes].
  set (c1 := c <| lastTapTime := t1 |> <| lastTapPosition := Some position |>
               <| lastGesture := Some (Tap position t1) |>).
  assert (H2 : _handleTap t2 position c1 player st
               = mkOut (c1 <| lastGesture := Some (DoubleTap position t2) |>
                           <| lastTapTime := 0 |>)
                       player st []).
  { unfold _handleTap. cbv zeta.
    change (lastTapTime c1) with t1.
    change (lastTapPosition c1) with (Some position).
    change (doubleTapDelay c1) with (doubleTapDelay c).
    change (gestureThreshold c1) with (gestureThreshold c).
    cbv beta iota. rewrite Hx, Hy.
    replace (Reqb t1 0) with false by (symmetry; apply Reqb_false; exact Ht1).
    replace (Rltb (t2 - t1) (doubleTapDelay c)) with true
      by (symmetry; apply Rltb_true; exact Hd).
    replace (Rltb 0 (gestureThreshold c)) with true
      by (symmetry; apply Rltb_true; exact Hg).
    reflexivity. }
  rewrite H2. cbn [self TouchController.player fishes].
  set (c2 := c1 <| lastGesture := Some (DoubleTap position t2) |>
                <| lastTapTime := 0 |>).
  assert (H3 : _handleTap t3 position c2 player st
               = mkOut (c2 <| lastTapTime := t3 |>
                           <| lastTapPosition := Some position |>
                           <| lastGesture := Some (Tap position t3) |>)
                       player st []).
  { unfold _handleTap. cbv zeta.
    change (lastTapTime c2) with 0.
    replace (Reqb 0 0) with true by (symmetry; apply Reqb_true; reflexivity).
    cbn [negb andb]. unfold _handleGameTap.
    destruct player; cbn; [destruct (negb _) |]; reflexivity. }
  rewrite H3. cbn [self TouchController.player fishes].
  repeat split.
Qed.

(** Three quick taps at (200, 300) on the fresh controller. *)
Lemma taps_pair_into_double_taps_witness :
  let position := MathUtils.mkPoint 200 300 in
  let o1 := _handleTap 1000 position Examples.fresh_controller None
              PlayerStates.default_store in
  let o2 := _handleTap 1100 position (self o1) (TouchController.player o1)
              (fishes o1) in
  let o3 := _handleTap 1150 position (self o2) (TouchController.player o2)
              (fishes o2) in
  lastGesture (self o2) = Some (DoubleTap position 1100)
  /\ lastGesture (self o3) = Some (Tap position 1150).
Proof.
  cbv zeta.
  assert (H0 : lastTapTime Examples.fresh_controller = 0) by reflexivity.
  assert (Ht1 : 1000 <> 0) by lra.
  assert (Hd : 1100 - 1000 < doubleTapDelay Examples.fresh_controller).
  { unfold Examples.fresh_controller, Game._createTouchController, build.
    evaluate. lra. }
  assert (Hg : 0 < gestureThreshold Examples.fresh_controller).
  { unfold Examples.fresh_controller, Game._createTouchController, build.
    evaluate. lra. }
  destruct (@taps_pair_into_double_taps 1000 1100 1150
              (MathUtils.mkPoint 200 300) Examples.fresh_controller None
              PlayerStates.default_store H0 Ht1 Hd Hg)
    as (_ & H2 & _ & H3 & _).
  split; [exact H2 | exact H3].
Defined.

End TouchGestures.
